(** * blobfs: the synchronizing content-addressed filesystem

    A shallow embedding of [cmd/blobfs-mount/blobfs-mount.go] and
    [pkg/cache/cache.go].  Go pointers to [Dir] and [File] become addresses
    into a heap of node objects, the reference type [map[string]Node] becomes
    an address into a heap of child maps, and every method threads the
    filesystem state explicitly.  A Go function returning [(v, err)] returns a
    [result]; a run-time panic (nil dereference, failed type assertion, slice
    bound) is an outcome of its own. *)

From Stdlib Require Import ZArith Lia List String Ascii.
From Stdlib.Strings Require Import Byte.
From stdpp Require Import base option gmap sets list strings sorting fin_maps pretty.

Set Default Proof Using "Type".

(** ** Go values shared by both packages *)

Definition bytes := list byte.

(** The error values the two files compare against or create. *)
Inductive error : Type :=
  | ErrBlobNotFound            (* clientutil.ErrBlobNotFound *)
  | ErrNotFound                (* vkv.ErrNotFound *)
  | ErrKeyNotFound             (* kvstore.ErrKeyNotFound *)
  | ErrVersionConflict         (* a put refused by a versioned store *)
  | EPERM | EEXIST | EIO | ENOENT | EFBIG   (* fuse errnos *)
  | ErrNoXattr
  | Errorf (msg : string)      (* fmt.Errorf *)
  | ErrIO (msg : string).      (* any other error of a collaborator *)

Global Instance error_eq_dec : EqDecision error.
Proof. solve_decision. Defined.

(** The outcome of a call: a value, a returned error, a run-time panic, or
    (for the functions that recurse through the tree) recursion cut off
    because the fuel ran out. *)
Inductive result (A : Type) : Type :=
  | Ok (a : A)
  | Err (e : error)
  | Panic (why : string)
  | OutOfFuel.
Arguments Ok {A} a.
Arguments Err {A} e.
Arguments Panic {A} why.
Arguments OutOfFuel {A}.

Definition is_Ok {A} (r : result A) : Prop :=
  match r with Ok _ => True | _ => False end.

Definition is_Err {A} (r : result A) : Prop :=
  match r with Err _ => True | _ => False end.

(** ** pkg/cache: the two-tier content store *)

Module cache.

(** What [Cache] consumes from [blobsfile.BlobsFileBackend] (the local tier)
    and from [blobstore.BlobStore] (the remote tier). *)
Class BlobTier (T : Type) := {
  tier_Get : T → string → result bytes;
  tier_Put : T → string → bytes → result unit * T;
  tier_Stat : T → string → result bool
}.

Record Cache (B R : Type) := mkCache { backend : B; bs : R }.
Arguments mkCache {B R} backend bs.
Arguments backend {B R} c.
Arguments bs {B R} c.

Section Cache.
Context {B R : Type} `{!BlobTier B, !BlobTier R}.

Definition PutRemote (c : Cache B R) (hash : string) (blob : bytes)
  : result unit * Cache B R :=
  let '(r, bs') := tier_Put (bs c) hash blob in
  (r, mkCache (backend c) bs').

Definition Put (c : Cache B R) (hash : string) (blob : bytes)
  : result unit * Cache B R :=
  let '(r, backend') := tier_Put (backend c) hash blob in
  (r, mkCache backend' (bs c)).

Definition StatRemote (c : Cache B R) (hash : string) : result bool :=
  tier_Stat (bs c) hash.

Definition Stat (c : Cache B R) (hash : string) : result bool :=
  match tier_Stat (backend c) hash with
  | Err e => Err e
  | Panic w => Panic w
  | OutOfFuel => OutOfFuel
  | Ok false => tier_Stat (bs c) hash
  | Ok true => Ok true
  end.

(** [switch err] on the local read: [ErrBlobNotFound] falls back to the
    remote tier and saves the blob locally, [nil] returns the local blob,
    any other error is returned as it is. *)
Definition Get (c : Cache B R) (hash : string) : result bytes * Cache B R :=
  match tier_Get (backend c) hash with
  | Err ErrBlobNotFound =>
      match tier_Get (bs c) hash with
      | Ok blob =>
          let '(r, backend') := tier_Put (backend c) hash blob in
          match r with
          | Ok _ => (Ok blob, mkCache backend' (bs c))
          | Err e => (Err e, mkCache backend' (bs c))
          | Panic w => (Panic w, mkCache backend' (bs c))
          | OutOfFuel => (OutOfFuel, mkCache backend' (bs c))
          end
      | Err e => (Err e, c)
      | Panic w => (Panic w, c)
      | OutOfFuel => (OutOfFuel, c)
      end
  | Ok blob => (Ok blob, c)
  | Err e => (Err e, c)
  | Panic w => (Panic w, c)
  | OutOfFuel => (OutOfFuel, c)
  end.
End Cache.

(** A tier as a finite map from hashes to slots.  A slot holds the stored
    bytes or is unreadable (a damaged entry: reading it fails with an error
    that is not [ErrBlobNotFound]); a sealed tier refuses writes. *)
Inductive Slot := Stored (blob : bytes) | Unreadable.

Record MapTier := mkTier { slots : gmap string Slot; sealed : bool }.

Definition MapTier_Get (t : MapTier) (hash : string) : result bytes :=
  match slots t !! hash with
  | None => Err ErrBlobNotFound
  | Some (Stored blob) => Ok blob
  | Some Unreadable => Err (ErrIO "unreadable blob")
  end.

Definition MapTier_Put (t : MapTier) (hash : string) (blob : bytes)
  : result unit * MapTier :=
  if sealed t then (Err (ErrIO "sealed tier"), t)
  else (Ok tt, mkTier (<[hash := Stored blob]> (slots t)) (sealed t)).

Definition MapTier_Stat (t : MapTier) (hash : string) : result bool :=
  Ok (bool_decide (is_Some (slots t !! hash))).

Global Instance MapTier_BlobTier : BlobTier MapTier := {|
  tier_Get := MapTier_Get;
  tier_Put := MapTier_Put;
  tier_Stat := MapTier_Stat
|}.

(** The blob is neither stored nor readable in the tier. *)
Definition absent_or_unreadable (t : MapTier) (hash : string) : Prop :=
  ∀ blob, slots t !! hash ≠ Some (Stored blob).

End cache.

(** ** Strings and paths *)

(** [strings.Split(s, sep)] for a one-character separator: the pieces
    between the separators, empty pieces included, so that the result has one
    more element than [s] has separators. *)
Fixpoint strings_Split (s : string) (sep : ascii) : list string :=
  match s with
  | EmptyString => [EmptyString]
  | String c s' =>
      if Ascii.eqb c sep then EmptyString :: strings_Split s' sep
      else match strings_Split s' sep with
           | [] => [String c EmptyString]
           | w :: ws => String c w :: ws
           end
  end.

Definition slash : ascii := "/"%char.

Definition nonempty (s : string) : bool :=
  match s with EmptyString => false | _ => true end.

Fixpoint strings_Join (elems : list string) (sep : string) : string :=
  match elems with
  | [] => EmptyString
  | [e] => e
  | e :: rest => e +:+ sep +:+ strings_Join rest sep
  end.

Definition starts_with_slash (s : string) : bool :=
  match s with String c _ => Ascii.eqb c slash | EmptyString => false end.

(** [filepath.Join]: empty elements are dropped, the others are joined by a
    slash and the result is cleaned (repeated separators collapse, no
    trailing separator).  The names of this tree never hold [.] or [..]
    elements, which [filepath.Clean] would also resolve. *)
Definition filepath_Join (elems : list string) : string :=
  let used := filter (λ e, nonempty e = true) elems in
  let segs := filter (λ e, nonempty e = true)
                (concat (map (λ e, strings_Split e slash) used)) in
  match used with
  | [] => EmptyString
  | e :: _ =>
      if starts_with_slash e then String slash (strings_Join segs "/")
      else match segs with [] => "." | _ => strings_Join segs "/" end
  end.

(** ** Nodes metadata and roots (packages [meta] and [root]) *)

(** An element of [meta.Meta.Refs], a slice of [interface{}]: the hash of a
    child for a directory, an [(index, hash)] pair for a chunk of a file. *)
Inductive RefItem := RefStr (hash : string) | RefPair (idx : Z) (hash : string).

Global Instance RefItem_eq_dec : EqDecision RefItem.
Proof. solve_decision. Defined.

Record Meta := mkMeta {
  Name : string;
  Type_ : string;
  Size : Z;
  Mode : Z;
  ModTime : string;
  Refs : list RefItem;
  XAttrs : option (gmap string string);   (* [None] is the nil map *)
  Hash : string
}.

Definition NewMeta : Meta := mkMeta "" "" 0 0 "" [] None "".

Definition AddRef (m : Meta) (hash : string) : Meta :=
  mkMeta (Name m) (Type_ m) (Size m) (Mode m) (ModTime m)
         (Refs m ++ [RefStr hash]) (XAttrs m) (Hash m).

Definition set_Hash (m : Meta) (hash : string) : Meta :=
  mkMeta (Name m) (Type_ m) (Size m) (Mode m) (ModTime m) (Refs m) (XAttrs m) hash.

Definition set_Name (m : Meta) (name : string) : Meta :=
  mkMeta name (Type_ m) (Size m) (Mode m) (ModTime m) (Refs m) (XAttrs m) (Hash m).

Definition set_XAttrs (m : Meta) (xs : option (gmap string string)) : Meta :=
  mkMeta (Name m) (Type_ m) (Size m) (Mode m) (ModTime m) (Refs m) xs (Hash m).

Definition IsDir (m : Meta) : bool := bool_decide (Type_ m = "dir").

Definition IsPublic (m : Meta) : bool :=
  match XAttrs m with
  | Some xs => bool_decide (xs !! "public" = Some "1")
  | None => false
  end.

(** Modelled from the spec: package [pkg/root] is not part of the sources at
    hand.  A Root is the content hash of the root directory, a version number
    and an optional comment; [root.New] builds one with no comment. *)
Record Root := mkRoot { Ref : string; Version : Z; Comment : string }.

Definition root_New (ref : string) (version : Z) : Root := mkRoot ref version "".

Definition set_Version (r : Root) (version : Z) : Root :=
  mkRoot (Ref r) version (Comment r).

Definition set_Comment (r : Root) (comment : string) : Root :=
  mkRoot (Ref r) (Version r) comment.

(** The collaborators this program calls and does not define: the canonical
    node encoder and hasher of package [meta], the JSON form of a Root, and
    the index endpoint of the remote server.  The development is parametric
    in them. *)
Class Externals := {
  (* the method [Json] of a Meta: its content hash and its encoding *)
  Meta_Json : Meta → string * bytes;
  (* [meta.NewMetaFromBlob(hash, blob)] *)
  NewMetaFromBlob : string → bytes → result Meta;
  (* [json.Marshal] of a Root, and the method [JSON] of a Root *)
  json_Marshal_Root : Root → result bytes;
  Root_JSON : Root → result bytes;
  (* [root.NewFromJSON(data, version)] *)
  Root_NewFromJSON : bytes → Z → result Root;
  (* GET /api/filetree/index/{ref}: the path-to-hash index of a remote tree *)
  fetch_index : string → result (gmap string string)
}.

(** ** The versioned key-value stores *)

Record KeyValue := mkKV { kv_Hash : string; kv_Data : bytes; kv_Version : Z }.

(** Modelled from the spec: the Versioned Mutation Store (packages [vkv] and
    [kvstore] of BlobStash) keeps an ordered, append-only version history per
    key.  A put with version -1 takes the next version number; a put with a
    version that is not above the latest one is refused.  A store that is
    offline fails every call. *)
Record VKV := mkVKV { entries : gmap string (list KeyValue); offline : bool }.

Definition history (db : VKV) (key : string) : list KeyValue :=
  default [] (entries db !! key).

Definition latest_version (h : list KeyValue) : Z :=
  match last h with Some kv => kv_Version kv | None => 0 end.

Definition vkv_Get (notfound : error) (db : VKV) (key : string) (version : Z)
  : result KeyValue :=
  if offline db then Err (ErrIO "store offline")
  else if bool_decide (version = (-1)%Z) then
    match last (history db key) with
    | Some kv => Ok kv
    | None => Err notfound
    end
  else
    match find (λ kv, bool_decide (kv_Version kv = version)) (history db key) with
    | Some kv => Ok kv
    | None => Err notfound
    end.

Definition vkv_Put (db : VKV) (key ref : string) (data : bytes) (version : Z)
  : result KeyValue * VKV :=
  if offline db then (Err (ErrIO "store offline"), db)
  else
    let h := history db key in
    let v := if bool_decide (version = (-1)%Z) then (latest_version h + 1)%Z
             else version in
    if bool_decide (h = [] ∨ (latest_version h < v)%Z) then
      let kv := mkKV ref data v in
      (Ok kv, mkVKV (<[key := h ++ [kv]]> (entries db)) (offline db))
    else (Err ErrVersionConflict, db).

(** [Versions(key, 0, -1, 0)]: the whole history, oldest version first. *)
Definition vkv_Versions (notfound : error) (db : VKV) (key : string)
  : result (list KeyValue) :=
  if offline db then Err (ErrIO "store offline")
  else match entries db !! key with
       | Some h => Ok h
       | None => Err notfound
       end.

Definition rootKeyFmt (name : string) : string := "blobfs:root:" +:+ name.
Definition localRootKeyFmt (name : string) : string := "local:root:" +:+ name.

(** ** The filesystem state *)

Definition addr := nat.

(** A [Mount] holds a [Node] that is a [*Dir] at every place the program
    builds one; [None] is the nil pointer, for [m_node] and for [m_root]. *)
Record Mount := mkMount {
  m_immutable : bool;
  m_node : option addr;
  m_root : option Root
}.

Record fileState := mkFileState { updated : bool; openCount : Z }.

Record Dir := mkDir {
  d_meta : Meta;
  d_parent : option addr;            (* nil for the root *)
  d_Children : option addr           (* nil, or the address of the map *)
}.

Record File := mkFile {
  f_data : option (list byte);       (* nil, or the buffer *)
  f_meta : Meta;
  f_FakeFile : bool;                 (* whether the reader is set *)
  f_parent : option addr;
  f_state : fileState
}.

Inductive Obj := ODir (d : Dir) | OFile (fl : File).

(** The [FS] struct together with the memory its pointers lead to.  Loggers,
    the FUSE connection, the uploader, user ids and the mutex are left out:
    the model is sequential and keeps no log. *)
Record FS := mkFS {
  fs_root : option addr;
  fs_rkv : VKV;
  fs_lkv : VKV;
  fs_bs : cache.Cache cache.MapTier cache.MapTier;
  fs_name : string;
  fs_immutable : bool;
  fs_sync : nat;
  fs_lastOP : string;
  fs_local : option Mount;
  fs_remote : option Mount;
  fs_cache : gset Z;
  fs_openFds : Z;
  fs_heap : gmap addr Obj;
  fs_maps : gmap addr (gmap string addr);
  fs_next : addr
}.

Definition set_fs_root (v : option addr) (f : FS) : FS :=
  mkFS v (fs_rkv f) (fs_lkv f) (fs_bs f) (fs_name f) (fs_immutable f)
       (fs_sync f) (fs_lastOP f) (fs_local f) (fs_remote f) (fs_cache f)
       (fs_openFds f) (fs_heap f) (fs_maps f) (fs_next f).

Definition set_fs_rkv (v : VKV) (f : FS) : FS :=
  mkFS (fs_root f) v (fs_lkv f) (fs_bs f) (fs_name f) (fs_immutable f)
       (fs_sync f) (fs_lastOP f) (fs_local f) (fs_remote f) (fs_cache f)
       (fs_openFds f) (fs_heap f) (fs_maps f) (fs_next f).

Definition set_fs_lkv (v : VKV) (f : FS) : FS :=
  mkFS (fs_root f) (fs_rkv f) v (fs_bs f) (fs_name f) (fs_immutable f)
       (fs_sync f) (fs_lastOP f) (fs_local f) (fs_remote f) (fs_cache f)
       (fs_openFds f) (fs_heap f) (fs_maps f) (fs_next f).

Definition set_fs_bs (v : cache.Cache cache.MapTier cache.MapTier) (f : FS) : FS :=
  mkFS (fs_root f) (fs_rkv f) (fs_lkv f) v (fs_name f) (fs_immutable f)
       (fs_sync f) (fs_lastOP f) (fs_local f) (fs_remote f) (fs_cache f)
       (fs_openFds f) (fs_heap f) (fs_maps f) (fs_next f).

Definition set_fs_sync (v : nat) (f : FS) : FS :=
  mkFS (fs_root f) (fs_rkv f) (fs_lkv f) (fs_bs f) (fs_name f)
       (fs_immutable f) v (fs_lastOP f) (fs_local f) (fs_remote f)
       (fs_cache f) (fs_openFds f) (fs_heap f) (fs_maps f) (fs_next f).

Definition set_fs_lastOP (v : string) (f : FS) : FS :=
  mkFS (fs_root f) (fs_rkv f) (fs_lkv f) (fs_bs f) (fs_name f)
       (fs_immutable f) (fs_sync f) v (fs_local f) (fs_remote f) (fs_cache f)
       (fs_openFds f) (fs_heap f) (fs_maps f) (fs_next f).

Definition set_fs_local (v : option Mount) (f : FS) : FS :=
  mkFS (fs_root f) (fs_rkv f) (fs_lkv f) (fs_bs f) (fs_name f)
       (fs_immutable f) (fs_sync f) (fs_lastOP f) v (fs_remote f) (fs_cache f)
       (fs_openFds f) (fs_heap f) (fs_maps f) (fs_next f).

Definition set_fs_remote (v : option Mount) (f : FS) : FS :=
  mkFS (fs_root f) (fs_rkv f) (fs_lkv f) (fs_bs f) (fs_name f)
       (fs_immutable f) (fs_sync f) (fs_lastOP f) (fs_local f) v (fs_cache f)
       (fs_openFds f) (fs_heap f) (fs_maps f) (fs_next f).

Definition set_fs_cache (v : gset Z) (f : FS) : FS :=
  mkFS (fs_root f) (fs_rkv f) (fs_lkv f) (fs_bs f) (fs_name f)
       (fs_immutable f) (fs_sync f) (fs_lastOP f) (fs_local f) (fs_remote f) v
       (fs_openFds f) (fs_heap f) (fs_maps f) (fs_next f).

Definition set_fs_openFds (v : Z) (f : FS) : FS :=
  mkFS (fs_root f) (fs_rkv f) (fs_lkv f) (fs_bs f) (fs_name f)
       (fs_immutable f) (fs_sync f) (fs_lastOP f) (fs_local f) (fs_remote f)
       (fs_cache f) v (fs_heap f) (fs_maps f) (fs_next f).

Definition set_fs_heap (v : gmap addr Obj) (f : FS) : FS :=
  mkFS (fs_root f) (fs_rkv f) (fs_lkv f) (fs_bs f) (fs_name f)
       (fs_immutable f) (fs_sync f) (fs_lastOP f) (fs_local f) (fs_remote f)
       (fs_cache f) (fs_openFds f) v (fs_maps f) (fs_next f).

Definition set_fs_maps (v : gmap addr (gmap string addr)) (f : FS) : FS :=
  mkFS (fs_root f) (fs_rkv f) (fs_lkv f) (fs_bs f) (fs_name f)
       (fs_immutable f) (fs_sync f) (fs_lastOP f) (fs_local f) (fs_remote f)
       (fs_cache f) (fs_openFds f) (fs_heap f) v (fs_next f).

Definition set_fs_next (v : addr) (f : FS) : FS :=
  mkFS (fs_root f) (fs_rkv f) (fs_lkv f) (fs_bs f) (fs_name f)
       (fs_immutable f) (fs_sync f) (fs_lastOP f) (fs_local f) (fs_remote f)
       (fs_cache f) (fs_openFds f) (fs_heap f) (fs_maps f) v.

(** ** State passing *)

Definition M (A : Type) : Type := FS → result A * FS.

Definition ret {A} (a : A) : M A := λ f, (Ok a, f).
Definition fail {A} (e : error) : M A := λ f, (Err e, f).
Definition panic {A} (why : string) : M A := λ f, (Panic why, f).
Definition lift {A} (r : result A) : M A := λ f, (r, f).
Definition gets {A} (p : FS → A) : M A := λ f, (Ok (p f), f).
Definition modify (g : FS → FS) : M unit := λ f, (Ok tt, g f).

(** Sequencing with [if err != nil { return err }] after the first call; a
    panic unwinds the same way. *)
Definition bind {A B} (m : M A) (k : A → M B) : M B :=
  λ f, match m f with
       | (Ok a, f') => k a f'
       | (Err e, f') => (Err e, f')
       | (Panic w, f') => (Panic w, f')
       | (OutOfFuel, f') => (OutOfFuel, f')
       end.

Notation "x <~ m ;; k" := (bind m (λ x, k))
  (at level 100, m at next level, right associativity).
Notation "m ;;; k" := (bind m (λ _, k))
  (at level 100, right associativity).

Fixpoint forM_ {A} (l : list A) (body : A → M unit) : M unit :=
  match l with
  | [] => ret tt
  | x :: rest => body x ;;; forM_ rest body
  end.

Definition nil_deref : string := "invalid memory address or nil pointer dereference".

(** Dereferencing a [*Dir] and a [*File]. *)
Definition get_dir (a : addr) : M Dir :=
  λ f, match fs_heap f !! a with
       | Some (ODir d) => (Ok d, f)
       | _ => (Panic nil_deref, f)
       end.

Definition get_file (a : addr) : M File :=
  λ f, match fs_heap f !! a with
       | Some (OFile fl) => (Ok fl, f)
       | _ => (Panic nil_deref, f)
       end.

Definition deref_opt {A} (o : option A) : M A :=
  match o with Some a => ret a | None => panic nil_deref end.

Definition set_obj (a : addr) (o : Obj) : M unit :=
  modify (λ f, set_fs_heap (<[a := o]> (fs_heap f)) f).

Definition alloc (o : Obj) : M addr :=
  λ f, let a := fs_next f in
       (Ok a, set_fs_next (S a) (set_fs_heap (<[a := o]> (fs_heap f)) f)).

(** [map[string]Node{}] *)
Definition alloc_map : M addr :=
  λ f, let a := fs_next f in
       (Ok a, set_fs_next (S a) (set_fs_maps (<[a := ∅]> (fs_maps f)) f)).

(** The entries of [d.Children]; a nil map has none. *)
Definition children_of (f : FS) (d : Dir) : gmap string addr :=
  match d_Children d with
  | Some ma => default ∅ (fs_maps f !! ma)
  | None => ∅
  end.

(** [d.Children[name] = c]; assigning into a nil map panics. *)
Definition children_insert (d : addr) (name : string) (c : addr) : M unit :=
  dir <~ get_dir d ;;
  match d_Children dir with
  | Some ma =>
      modify (λ f, set_fs_maps
                     (<[ma := <[name := c]> (default ∅ (fs_maps f !! ma))]> (fs_maps f)) f)
  | None => panic "assignment to entry in nil map"
  end.

(** [delete(d.Children, name)]; deleting from a nil map does nothing. *)
Definition children_delete (d : addr) (name : string) : M unit :=
  dir <~ get_dir d ;;
  match d_Children dir with
  | Some ma =>
      modify (λ f, set_fs_maps
                     (<[ma := delete name (default ∅ (fs_maps f !! ma))]> (fs_maps f)) f)
  | None => ret tt
  end.

Definition children_lookup (d : addr) (name : string) : M (option addr) :=
  dir <~ get_dir d ;;
  gets (λ f, children_of f dir !! name).

(** Go leaves the order of [range] over a map unspecified: an iteration
    order is any way of listing the entries of a map, each once. *)
Definition MapRange : Type := ∀ V : Type, gmap string V → list (string * V).

Definition range_ok (rg : MapRange) : Prop :=
  ∀ (V : Type) (m : gmap string V), rg V m ≡ₚ map_to_list m.

Definition range_sorted : MapRange := λ V m, map_to_list m.
Definition range_reversed : MapRange := λ V m, reverse (map_to_list m).

Definition updateLastOP (now : string) : M unit := modify (set_fs_lastOP now).

Definition Immutable (f : FS) : bool := fs_immutable f.

(** ** Calls into the stores *)

Definition bs_Stat (hash : string) : M bool :=
  λ f, (cache.Stat (fs_bs f) hash, f).

Definition bs_StatRemote (hash : string) : M bool :=
  λ f, (cache.StatRemote (fs_bs f) hash, f).

Definition bs_Get (hash : string) : M bytes :=
  λ f, let '(r, c) := cache.Get (fs_bs f) hash in (r, set_fs_bs c f).

Definition bs_Put (hash : string) (blob : bytes) : M unit :=
  λ f, let '(r, c) := cache.Put (fs_bs f) hash blob in (r, set_fs_bs c f).

Definition bs_PutRemote (hash : string) (blob : bytes) : M unit :=
  λ f, let '(r, c) := cache.PutRemote (fs_bs f) hash blob in (r, set_fs_bs c f).

Definition lkv_Get (key : string) (version : Z) : M KeyValue :=
  λ f, (vkv_Get ErrNotFound (fs_lkv f) key version, f).

Definition rkv_Get (key : string) (version : Z) : M KeyValue :=
  λ f, (vkv_Get ErrKeyNotFound (fs_rkv f) key version, f).

Definition lkv_Put (key ref : string) (data : bytes) (version : Z) : M KeyValue :=
  λ f, let '(r, db) := vkv_Put (fs_lkv f) key ref data version in
       (r, set_fs_lkv db f).

Definition rkv_Put (key ref : string) (data : bytes) (version : Z) : M KeyValue :=
  λ f, let '(r, db) := vkv_Put (fs_rkv f) key ref data version in
       (r, set_fs_rkv db f).

Definition rkv_Versions (key : string) : M (list KeyValue) :=
  λ f, (vkv_Versions ErrKeyNotFound (fs_rkv f) key, f).

(** [kv, err := get(...)] followed by a [switch err] whose not-found case
    goes on with a nil [kv] and whose default case returns the error. *)
Definition get_opt (notfound : error) (m : M KeyValue) : M (option KeyValue) :=
  λ f, match m f with
       | (Ok kv, f') => (Ok (Some kv), f')
       | (Err e, f') =>
           if decide (e = notfound) then (Ok None, f') else (Err e, f')
       | (Panic w, f') => (Panic w, f')
       | (OutOfFuel, f') => (OutOfFuel, f')
       end.

(** A call whose error is assigned and never looked at: the results are nil
    when it failed. *)
Definition ignoring_err {A} (m : M A) : M (option A) :=
  λ f, match m f with
       | (Ok a, f') => (Ok (Some a), f')
       | (Err _, f') => (Ok None, f')
       | (Panic w, f') => (Panic w, f')
       | (OutOfFuel, f') => (OutOfFuel, f')
       end.

(** ** Mounts *)

(** [FS.Mount]: the local mount when there is no remote one or when its
    version is strictly above the remote version, the remote mount
    otherwise. *)
Definition FS_Mount (f : FS) : result (option Mount) :=
  match fs_local f with
  | Some l =>
      match fs_remote f with
      | None => Ok (Some l)
      | Some r =>
          match m_root l, m_root r with
          | Some lroot, Some rroot =>
              if bool_decide (Version lroot > Version rroot)%Z
              then Ok (Some l) else Ok (Some r)
          | _, _ => Panic nil_deref
          end
      end
  | None => Ok (fs_remote f)
  end.

(** [f.root = f.Mount().node.( *Dir)] *)
Definition root_from_Mount : M unit :=
  mo <~ (λ f, (FS_Mount f, f)) ;;
  m <~ deref_opt mo ;;
  modify (set_fs_root (m_node m)).

(** [InvalidateCache]: every cached node id is invalidated in the kernel
    (failures are only logged) and dropped. *)
Definition FS_InvalidateCache : M unit := modify (set_fs_cache ∅).

(** ** Directories *)

Definition NewDir (m : Meta) (parent : option addr) : M addr :=
  alloc (ODir (mkDir m parent None)).

Definition NewFile (m : Meta) (parent : option addr) : M addr :=
  alloc (OFile (mkFile None m false parent (mkFileState false 0))).

(** [uint32(os.ModeDir | 0555)] *)
Definition dir_mode : Z := 2147484013.

Definition obj_Meta (o : Obj) : Meta :=
  match o with ODir d => d_meta d | OFile fl => f_meta fl end.

Definition obj_IsDir (o : Obj) : bool :=
  match o with ODir _ => true | OFile _ => false end.

Definition get_obj (a : addr) : M Obj :=
  λ f, match fs_heap f !! a with
       | Some o => (Ok o, f)
       | None => (Panic nil_deref, f)
       end.

Section Program.
Context {ext : Externals}.

(** The loop of [Dir.Save] over the children: one [AddRef] per child, in
    the order of the iteration. *)
Fixpoint add_child_refs (m : Meta) (cs : list (string * addr)) : M Meta :=
  match cs with
  | [] => ret m
  | (_, c) :: rest =>
      o <~ get_obj c ;;
      add_child_refs (AddRef m (Hash (obj_Meta o))) rest
  end.

(** [Dir.Save]: rebuild the Meta of the directory, store it unless the blob
    exists, then save the parent, or at the root commit a new local version,
    replace the local mount and copy the directory over [f.root]. *)
Fixpoint Dir_Save (fuel : nat) (rg : MapRange) (now : string) (d : addr)
  : M unit :=
  match fuel with
  | 0 => λ f, (OutOfFuel, f)
  | S fuel' =>
      dir <~ get_dir d ;;
      let m0 := mkMeta (Name (d_meta dir)) "dir" 0 dir_mode
                  (if nonempty (ModTime (d_meta dir))
                   then ModTime (d_meta dir) else now)
                  [] None "" in
      cs <~ gets (λ f, rg addr (children_of f dir)) ;;
      m1 <~ add_child_refs m0 cs ;;
      let mhash := (Meta_Json m1).1 in
      let mjs := (Meta_Json m1).2 in
      let m := set_Hash m1 mhash in
      set_obj d (ODir (mkDir m (d_parent dir) (d_Children dir))) ;;;
      mexists <~ bs_Stat mhash ;;
      (if mexists : bool then ret tt else bs_Put mhash mjs) ;;;
      match d_parent dir with
      | None =>
          let root := root_New mhash 0 in
          js <~ lift (json_Marshal_Root root) ;;
          name <~ gets fs_name ;;
          kv <~ lkv_Put (localRootKeyFmt name) "" js (-1) ;;
          let root := set_Version root (kv_Version kv) in
          modify (set_fs_local (Some (mkMount false (Some d) (Some root)))) ;;;
          r <~ gets fs_root ;;
          match r with
          | Some ra => dv <~ get_dir d ;; set_obj ra (ODir dv)
          | None => ret tt
          end
      | Some p => Dir_Save fuel' rg now p
      end
  end.

(** [File.Save] *)
Definition File_Save (fuel : nat) (rg : MapRange) (now : string) (a : addr)
  : M unit :=
  fl <~ get_file a ;;
  imm <~ gets Immutable ;;
  if imm : bool then ret tt
  else p <~ deref_opt (f_parent fl) ;; Dir_Save fuel rg now p.

(** [Dir.reload]: a fresh child map, filled from the refs of the Meta. *)
Definition Dir_reload (d : addr) : M unit :=
  dir <~ get_dir d ;;
  ma <~ alloc_map ;;
  set_obj d (ODir (mkDir (d_meta dir) (d_parent dir) (Some ma))) ;;;
  forM_ (Refs (d_meta dir)) (λ ref,
    match ref with
    | RefPair _ _ => panic "interface conversion: not a string"
    | RefStr h =>
        blob <~ bs_Get h ;;
        m <~ lift (NewMetaFromBlob h blob) ;;
        c <~ (if IsDir m then NewDir m (Some d) else NewFile m (Some d)) ;;
        children_insert d (Name m) c
    end).

Definition reload_if_nil (d : addr) : M unit :=
  dir <~ get_dir d ;;
  match d_Children dir with
  | None => Dir_reload d
  | Some _ => ret tt
  end.

(** [FS.initRoot] *)
Definition FS_initRoot (fuel : nat) (rg : MapRange) (now : string) : M addr :=
  ma <~ alloc_map ;;
  newRoot <~ alloc (ODir (mkDir NewMeta None (Some ma))) ;;
  Dir_Save fuel rg now newRoot ;;;
  ret newRoot.

(** [FS.kvDataToDir] *)
Definition FS_kvDataToDir (data : bytes) (version : Z) : M (Root * addr) :=
  lroot <~ lift (Root_NewFromJSON data version) ;;
  blob <~ bs_Get (Ref lroot) ;;
  m <~ lift (NewMetaFromBlob (Ref lroot) blob) ;;
  dir <~ NewDir m None ;;
  ret (lroot, dir).

Definition kv_to_dir_unchecked (kv : option KeyValue)
  : M (option Root * option addr) :=
  match kv with
  | Some kv =>
      r <~ ignoring_err (FS_kvDataToDir (kv_Data kv) (kv_Version kv)) ;;
      ret (fst <$> r, snd <$> r)
  | None => ret (None, None)
  end.

(** The first-start branch shared by [loadRoot] and [Pull]: a new root is
    created and committed as a second local version. *)
Definition commit_new_root (fuel : nat) (rg : MapRange) (now : string)
  (localFsName : string) : M unit :=
  newRoot <~ FS_initRoot fuel rg now ;;
  rootNode <~ get_dir newRoot ;;
  let localRoot := mkRoot (Hash (d_meta rootNode)) 0 "" in
  jsroot <~ lift (Root_JSON localRoot) ;;
  kv <~ (λ f, match lkv_Put localFsName "" jsroot (-1) f with
              | (Err _, f') => (Panic nil_deref, f')   (* kv.Version on a nil kv *)
              | other => other
              end) ;;
  let localRoot := set_Version localRoot (kv_Version kv) in
  modify (set_fs_local (Some (mkMount false (Some newRoot) (Some localRoot)))) ;;;
  root_from_Mount.

(** The loop [for _, version := range versions.Versions] whose put is
    written [if f.lkv.Put(...); err != nil]: the condition reads the [err]
    of the enclosing scope, which is nil, so a failed put goes unnoticed. *)
Definition save_versions (fsName : string) (versions : list KeyValue) : M unit :=
  forM_ versions (λ v,
    _ <~ ignoring_err (lkv_Put fsName (kv_Hash v) (kv_Data v) (kv_Version v)) ;;
    ret tt).

(** [FS.loadRoot] *)
Definition FS_loadRoot (fuel : nat) (rg : MapRange) (now : string) : M unit :=
  name <~ gets fs_name ;;
  let fsName := rootKeyFmt name in
  let localFsName := localRootKeyFmt name in
  localKv <~ get_opt ErrNotFound (lkv_Get fsName (-1)) ;;
  localRN <~ kv_to_dir_unchecked localKv ;;
  wipKv <~ get_opt ErrNotFound (lkv_Get localFsName (-1)) ;;
  wipRN <~ kv_to_dir_unchecked wipKv ;;
  remoteKv <~ get_opt ErrKeyNotFound (rkv_Get fsName (-1)) ;;
  remoteRN <~ kv_to_dir_unchecked remoteKv ;;
  imm <~ gets Immutable ;;
  let wip_ahead :=
    match wipKv with
    | None => false
    | Some w =>
        match localKv, remoteKv with
        | None, None => true
        | None, Some r => bool_decide (kv_Version w > kv_Version r)%Z
        | Some l, Some r =>
            bool_decide (kv_Version w > kv_Version l)%Z
            && bool_decide (kv_Version w > kv_Version r)%Z
        | Some _, None => false
        end
    end in
  if wip_ahead then
    modify (set_fs_local (Some (mkMount imm wipRN.2 wipRN.1))) ;;;
    root_from_Mount
  else
    match localKv, remoteKv with
    | None, None => commit_new_root fuel rg now localFsName
    | Some l, Some r =>
        localRoot <~ deref_opt localRN.1 ;;
        remoteRoot <~ deref_opt remoteRN.1 ;;
        if bool_decide (Version localRoot = Version remoteRoot) then
          modify (set_fs_remote (Some (mkMount imm localRN.2 localRN.1)))
        else if bool_decide (kv_Version l > kv_Version r)%Z then
          fail (Errorf "BlobStash instance seems out of sync, version mismatch")
        else
          _ <~ lkv_Put fsName (kv_Hash r) (kv_Data r) (kv_Version r) ;;
          modify (set_fs_remote (Some (mkMount imm remoteRN.2 remoteRN.1))) ;;;
          root_from_Mount
    | None, Some r =>
        versions <~ rkv_Versions fsName ;;
        save_versions fsName versions ;;;
        modify (set_fs_remote (Some (mkMount imm remoteRN.2 remoteRN.1))) ;;;
        root_from_Mount
    | Some _, None => fail (Errorf "shouldn't happen")
    end.

(** ** Walking the tree *)

(** [iterDir]: the callback runs on every node below [dir], files and
    directories, children before their directory.  The callback of the
    program appends to a slice, which is the accumulator here. *)
Fixpoint iterDir {A} (fuel : nat) (rg : MapRange) (cb : addr → A → M A)
  (dir : addr) (acc : A) : M A :=
  match fuel with
  | 0 => λ f, (OutOfFuel, f)
  | S fuel' =>
      reload_if_nil dir ;;;
      d <~ get_dir dir ;;
      cs <~ gets (λ f, rg addr (children_of f d)) ;;
      acc <~ (fix loop (cs : list (string * addr)) (acc : A) : M A :=
                match cs with
                | [] => ret acc
                | (_, node) :: rest =>
                    o <~ get_obj node ;;
                    acc <~ (if obj_IsDir o then iterDir fuel' rg cb node acc
                            else cb node acc) ;;
                    loop rest acc
                end) cs acc ;;
      cb dir acc
  end.

(** The callback of [FS.Refs]: the hash of the node, then for a file the
    hash of each of its chunks. *)
Fixpoint chunk_refs (irefs : list RefItem) (refs : list string)
  : M (list string) :=
  match irefs with
  | [] => ret refs
  | RefPair _ ref :: rest => chunk_refs rest (refs ++ [ref])
  | RefStr _ :: _ => panic "interface conversion: not a slice"
  end.

Definition Refs_cb (node : addr) (refs : list string) : M (list string) :=
  o <~ get_obj node ;;
  let refs := refs ++ [Hash (obj_Meta o)] in
  if obj_IsDir o then ret refs else chunk_refs (Refs (obj_Meta o)) refs.

(** [FS.Refs] *)
Definition FS_Refs (fuel : nat) (rg : MapRange) (rootDir : option addr)
  : M (list string) :=
  r <~ deref_opt rootDir ;;
  iterDir fuel rg Refs_cb r [].

(** [FS.Push] *)
Definition FS_Push (fuel : nat) (rg : MapRange) (comment : option string)
  : M unit :=
  mo <~ (λ f, (FS_Mount f, f)) ;;
  m <~ deref_opt mo ;;
  mroot <~ deref_opt (m_root m) ;;
  lo <~ gets fs_local ;;
  l <~ deref_opt lo ;;
  lroot <~ deref_opt (m_root l) ;;
  (* Ensure the current root is a local one *)
  if bool_decide (Ref mroot ≠ Ref lroot) then ret tt
  else
    name <~ gets fs_name ;;
    let fsName := rootKeyFmt name in
    remoteKv <~ get_opt ErrKeyNotFound (rkv_Get fsName (-1)) ;;
    match remoteKv with
    | Some kv => _ <~ FS_kvDataToDir (kv_Data kv) (kv_Version kv) ;; ret tt
    | None => ret tt
    end ;;;
    let croot := match comment with
                 | Some c => set_Comment lroot c
                 | None => lroot
                 end in
    modify (set_fs_local (Some (mkMount (m_immutable l) (m_node l) (Some croot)))) ;;;
    r <~ gets fs_root ;;
    refs <~ FS_Refs fuel rg r ;;
    (* First save all the blobs of the tree *)
    forM_ refs (λ ref,
      exists_ <~ bs_StatRemote ref ;;
      if exists_ : bool then ret tt
      else
        (* a failed read is only logged: the upload goes on with a nil blob *)
        blob <~ ignoring_err (bs_Get ref) ;;
        bs_PutRemote ref (default [] blob)) ;;;
    jsRoot <~ lift (Root_JSON croot) ;;
    _ <~ rkv_Put fsName "" jsRoot (Version croot) ;;
    _ <~ lkv_Put fsName "" jsRoot (Version croot) ;;
    ret tt.
End Program.

(** ** The diff of two indexes *)

Record DiffNode := mkDiffNode { Path : string; dHash : string }.

Global Instance DiffNode_eq_dec : EqDecision DiffNode.
Proof. solve_decision. Defined.

Record Diff := mkDiff {
  Added : list DiffNode;
  Conflicted : list DiffNode;
  DeletedCandidates : list DiffNode
}.

Definition segments (p : string) : nat := length (strings_Split p slash).

(** [ByLength.Less] *)
Definition ByLength_Less (a b : DiffNode) : bool :=
  bool_decide (segments (Path b) < segments (Path a)).

(** [sort.Sort] is not stable and its algorithm is the library's: any
    function that returns its input reordered so that no element is [Less]
    than one before it. *)
Definition Sorter : Type := list DiffNode → list DiffNode.

Definition sort_ok (srt : Sorter) : Prop :=
  (∀ l, srt l ≡ₚ l) ∧
  (∀ l, StronglySorted (λ a b, ByLength_Less b a = false) (srt l)).

Definition ByLength_le (a b : DiffNode) : Prop :=
  segments (Path b) ≤ segments (Path a).

Global Instance ByLength_le_dec a b : Decision (ByLength_le a b).
Proof. unfold ByLength_le. apply _. Defined.

Definition merge_sorter : Sorter := merge_sort ByLength_le.

(** The loop over the remote index. *)
Definition diff_remote (localIndex : gmap string string)
  (acc : list DiffNode * list DiffNode) (e : string * string)
  : list DiffNode * list DiffNode :=
  match localIndex !! e.1 with
  | Some lref =>
      if bool_decide (e.2 ≠ lref)
      then (acc.1, acc.2 ++ [mkDiffNode e.1 e.2])
      else acc
  | None => (acc.1 ++ [mkDiffNode e.1 e.2], acc.2)
  end.

(** The loop over the local index. *)
Definition diff_local (remoteIndex : gmap string string)
  (acc : list DiffNode) (e : string * string) : list DiffNode :=
  match remoteIndex !! e.1 with
  | Some _ => acc
  | None => acc ++ [mkDiffNode e.1 e.2]
  end.

(** [FS.compareIndex]; its error is always nil. *)
Definition FS_compareIndex (rg : MapRange) (srt : Sorter)
  (localIndex remoteIndex : gmap string string) : Diff :=
  let remoteIndex := delete "/" remoteIndex in
  let localIndex := delete "/" localIndex in
  let ac := fold_left (diff_remote localIndex) (rg string remoteIndex) ([], []) in
  let deleted := fold_left (diff_local remoteIndex) (rg string localIndex) [] in
  mkDiff ac.1 ac.2 (srt deleted).

(** What one entry of the remote index adds to [Added] and to
    [Conflicted], and one entry of the local index to the candidates. *)
Definition added_of (localIndex : gmap string string) (e : string * string)
  : option DiffNode :=
  match localIndex !! e.1 with
  | Some _ => None
  | None => Some (mkDiffNode e.1 e.2)
  end.

Definition conflicted_of (localIndex : gmap string string) (e : string * string)
  : option DiffNode :=
  match localIndex !! e.1 with
  | Some lref => if bool_decide (e.2 ≠ lref) then Some (mkDiffNode e.1 e.2) else None
  | None => None
  end.

Definition deleted_of (remoteIndex : gmap string string) (e : string * string)
  : option DiffNode :=
  match remoteIndex !! e.1 with
  | Some _ => None
  | None => Some (mkDiffNode e.1 e.2)
  end.

Section Sync.
Context {ext : Externals}.

(** [FS.buildLocalIndex] *)
Fixpoint FS_buildLocalIndex (fuel : nat) (rg : MapRange) (n : addr) (p : string)
  : M (gmap string string) :=
  match fuel with
  | 0 => λ f, (OutOfFuel, f)
  | S fuel' =>
      o <~ get_obj n ;;
      let name := Name (obj_Meta o) in
      let index : gmap string string :=
        {[ filepath_Join [p; name] := Hash (obj_Meta o) ]} in
      if obj_IsDir o then
        reload_if_nil n ;;;
        d <~ get_dir n ;;
        cs <~ gets (λ f, rg addr (children_of f d)) ;;
        (fix loop (cs : list (string * addr)) (index : gmap string string)
           : M (gmap string string) :=
           match cs with
           | [] => ret index
           | (_, child) :: rest =>
               co <~ get_obj child ;;
               if obj_IsDir co then
                 childIndex <~ FS_buildLocalIndex fuel' rg child
                                 (filepath_Join [p; name]) ;;
                 loop rest (fold_left (λ ix e, <[e.1 := e.2]> ix)
                                      (rg string childIndex) index)
               else
                 loop rest (<[filepath_Join [p; name; Name (obj_Meta co)]
                              := Hash (obj_Meta co)]> index)
           end) cs index
      else ret index
  end.

(** [FS.localIndex] *)
Definition FS_localIndex (fuel : nat) (rg : MapRange) : M (gmap string string) :=
  ro <~ gets fs_root ;;
  r <~ deref_opt ro ;;
  FS_buildLocalIndex fuel rg r "/".

(** [FS.metaFromHash] *)
Definition FS_metaFromHash (hash : string) : M Meta :=
  blob <~ bs_Get hash ;;
  lift (NewMetaFromBlob hash blob).

(** The loop of [FS.createNode] over the elements of the path.  The test
    [i == pathCount-1] is the test that no element is left. *)
Fixpoint createNode_walk (fuel : nat) (rg : MapRange) (now : string)
  (cmeta : Meta) (split : list string) (node : addr) : M unit :=
  match split with
  | [] => ret tt
  | p :: rest =>
      reload_if_nil node ;;;
      child <~ children_lookup node p ;;
      match child with
      | Some c =>
          o <~ get_obj c ;;
          match o with
          | ODir _ => createNode_walk fuel rg now cmeta rest c
          | OFile _ => panic "interface conversion: Node is *File, not *Dir"
          end
      | None =>
          match rest with
          | [] =>
              nfile <~ NewFile cmeta (Some node) ;;
              children_insert node p nfile ;;;
              Dir_Save fuel rg now node
          | _ :: _ =>
              newd <~ NewDir (mkMeta p "dir" 0 0 "" [] None "") (Some node) ;;
              children_insert node p newd ;;;
              Dir_Save fuel rg now node ;;;
              createNode_walk fuel rg now cmeta rest newd
          end
      end
  end.

(** [FS.createNode] *)
Definition FS_createNode (fuel : nat) (rg : MapRange) (now : string)
  (path : string) (cmeta : Meta) : M unit :=
  match path with
  | EmptyString => panic "slice bounds out of range"
  | String _ tail =>
      ro <~ gets fs_root ;;
      node <~ deref_opt ro ;;
      createNode_walk fuel rg now cmeta (strings_Split tail slash) node
  end.

(** The loop of [Pull] that copies the remote versions into the local
    mirror track, up to the version of the remote mount. *)
Fixpoint save_new_versions (fsName : string) (versions : list KeyValue)
  : M unit :=
  match versions with
  | [] => ret tt
  | version :: rest =>
      ro <~ gets fs_remote ;;
      stop <~ match ro with
              | Some r =>
                  rroot <~ deref_opt (m_root r) ;;
                  ret (bool_decide (kv_Version version = Version rroot))
              | None => ret false
              end ;;
      if stop : bool then ret tt
      else
        _ <~ ignoring_err (lkv_Put fsName (kv_Hash version) (kv_Data version)
                                   (kv_Version version)) ;;
        save_new_versions fsName rest
  end.

(** [*f.root = *n.( *Dir)] *)
Definition copy_over_root (n : option addr) : M unit :=
  ro <~ gets fs_root ;;
  src <~ deref_opt n ;;
  dv <~ get_dir src ;;
  r <~ deref_opt ro ;;
  set_obj r (ODir dv).

(** The merge of a diverged [Pull]. *)
Definition Pull_merge (fuel : nat) (rg : MapRange) (srt : Sorter) (now : string)
  (remoteRoot : option Root) : M unit :=
  rroot <~ deref_opt remoteRoot ;;
  remoteIndex <~ lift (fetch_index (Ref rroot)) ;;
  localIndex <~ FS_localIndex fuel rg ;;
  let diff := FS_compareIndex rg srt localIndex remoteIndex in
  forM_ (Added diff) (λ added,
    m <~ FS_metaFromHash (dHash added) ;;
    FS_createNode fuel rg now (Path added) m) ;;;
  forM_ (Conflicted diff) (λ conflicted,
    m <~ FS_metaFromHash (dHash conflicted) ;;
    let m := set_Name m (Name m +:+ ".conflicted") in
    FS_createNode fuel rg now (Path conflicted +:+ ".conflicted") m) ;;;
  (* the deleted candidates are only logged *)
  lo <~ gets fs_local ;;
  l <~ deref_opt lo ;;
  copy_over_root (m_node l) ;;;
  FS_InvalidateCache.

(** [FS.Pull] *)
Definition FS_Pull (fuel : nat) (rg : MapRange) (srt : Sorter) (now : string)
  : M unit :=
  name <~ gets fs_name ;;
  let fsName := rootKeyFmt name in
  remoteKv <~ get_opt ErrKeyNotFound (rkv_Get fsName (-1)) ;;
  remoteRN <~ kv_to_dir_unchecked remoteKv ;;
  localKv <~ get_opt ErrNotFound (lkv_Get fsName (-1)) ;;
  imm <~ gets Immutable ;;
  match localKv, remoteKv with
  | None, None => commit_new_root fuel rg now (localRootKeyFmt name)
  | None, Some _ =>
      versions <~ rkv_Versions fsName ;;
      save_versions fsName versions ;;;
      modify (set_fs_remote (Some (mkMount imm remoteRN.2 remoteRN.1))) ;;;
      ro <~ gets fs_root ;;
      match ro with
      | Some _ => copy_over_root remoteRN.2
      | None => modify (set_fs_root remoteRN.2)
      end ;;;
      FS_InvalidateCache
  | Some _, None => FS_InvalidateCache
  | Some l, Some r =>
      if bool_decide (kv_Version r > kv_Version l)%Z then
        versions <~ rkv_Versions fsName ;;
        save_new_versions fsName versions ;;;
        lo <~ gets fs_local ;;
        diverged <~ match lo with
                    | Some lm =>
                        lroot <~ deref_opt (m_root lm) ;;
                        ret (bool_decide (Version lroot > kv_Version l)%Z)
                    | None => ret false
                    end ;;
        if diverged : bool then Pull_merge fuel rg srt now remoteRN.1
        else
          modify (set_fs_remote (Some (mkMount imm remoteRN.2 remoteRN.1))) ;;;
          copy_over_root remoteRN.2 ;;;
          FS_InvalidateCache
      else if bool_decide (kv_Version r < kv_Version l)%Z then
        fail (Errorf "BlobStash seems out of sync")
      else ret tt
  end.
End Sync.

(** ** The kernel-facing operations *)

(** The width of Go's [int] on the platform. *)
Inductive IntSize := Int32 | Int64.

(** [maxInt = int(^uint(0) >> 1)] *)
Definition maxInt (w : IntSize) : Z :=
  match w with Int32 => 2 ^ 31 - 1 | Int64 => 2 ^ 63 - 1 end.

(** Two's complement wrap-around of an [int64] sum. *)
Definition wrap64 (z : Z) : Z := (z + 2 ^ 63) mod 2 ^ 64 - 2 ^ 63.

Definition set_updated (fl : File) (b : bool) : File :=
  mkFile (f_data fl) (f_meta fl) (f_FakeFile fl) (f_parent fl)
         (mkFileState b (openCount (f_state fl))).

Definition set_data (fl : File) (data : option (list byte)) : File :=
  mkFile data (f_meta fl) (f_FakeFile fl) (f_parent fl) (f_state fl).

Definition set_f_meta (fl : File) (m : Meta) : File :=
  mkFile (f_data fl) m (f_FakeFile fl) (f_parent fl) (f_state fl).

Definition set_d_meta (d : Dir) (m : Meta) : Dir :=
  mkDir m (d_parent d) (d_Children d).

(** [n := copy(buf[off:], data)] followed by
    [if n < len(data) { buf = append(buf, data[n:]...) }], for an offset
    within the buffer. *)
Definition copy_append (buf : option (list byte)) (off : nat) (data : list byte)
  : option (list byte) :=
  let old := default [] buf in
  let n := min (length old - off) (length data) in
  let copied := take off old ++ take n data ++ drop (off + n) old in
  if bool_decide (n < length data) then Some (copied ++ drop n data)
  else match buf with
       | Some _ => Some copied
       | None => None
       end.

(** [File.Write]; the result is [resp.Size]. *)
Definition File_Write (w : IntSize) (now : string) (a : addr)
  (Offset : Z) (Data : list byte) : M Z :=
  updateLastOP now ;;;
  imm <~ gets Immutable ;;
  if imm : bool then fail EPERM
  else
    fl <~ get_file a ;;
    (* Set the updated flag *)
    let fl := set_updated fl true in
    set_obj a (OFile fl) ;;;
    let newLen := wrap64 (Offset + Z.of_nat (length Data)) in
    if bool_decide (newLen > maxInt w)%Z then fail EFBIG
    else
      let len := Z.of_nat (length (default [] (f_data fl))) in
      if bool_decide (Offset < 0 ∨ len < Offset)%Z
      then panic "slice bounds out of range"
      else
        set_obj a (OFile (set_data fl
                            (copy_append (f_data fl) (Z.to_nat Offset) Data))) ;;;
        ret (Z.of_nat (length Data)).

(** The keys of [virtualXAttrs]. *)
Definition is_virtualXAttr (name : string) : bool :=
  bool_decide (name = "ref") || bool_decide (name = "url").

Definition xattrs_set (m : Meta) (name value : string) : Meta :=
  set_XAttrs m (Some (<[name := value]> (default ∅ (XAttrs m)))).

Section Operations.
Context {ext : Externals}.

(** [File.Setxattr] *)
Definition File_Setxattr (fuel : nat) (rg : MapRange) (now : string) (a : addr)
  (name xattr : string) : M unit :=
  updateLastOP now ;;;
  imm <~ gets Immutable ;;
  if imm : bool then ret tt
  else if is_virtualXAttr name then ret tt
  else
    fl <~ get_file a ;;
    set_obj a (OFile (set_f_meta fl (xattrs_set (f_meta fl) name xattr))) ;;;
    File_Save fuel rg now a ;;;
    if bool_decide (name = "public")
    then modify (λ f, set_fs_sync (S (fs_sync f)) f)
    else ret tt.

(** [makePublic] *)
Fixpoint makePublic (fuel : nat) (rg : MapRange) (now : string) (node : addr)
  (value : string) : M unit :=
  match fuel with
  | 0 => λ f, (OutOfFuel, f)
  | S fuel' =>
      o <~ get_obj node ;;
      let m := obj_Meta o in
      m' <~ (if bool_decide (value = "1") then
               match XAttrs m with
               | Some xs => ret (set_XAttrs m (Some (<["public" := value]> xs)))
               | None => panic "assignment to entry in nil map"
               end
             else ret (set_XAttrs m (delete "public" <$> XAttrs m))) ;;
      match o with
      | ODir d =>
          set_obj node (ODir (set_d_meta d m')) ;;;
          cs <~ gets (λ f, rg addr (children_of f d)) ;;
          forM_ cs (λ c, makePublic fuel' rg now c.2 value) ;;;
          Dir_Save fuel rg now node
      | OFile fl =>
          set_obj node (OFile (set_f_meta fl m')) ;;;
          File_Save fuel rg now node
      end
  end.

(** [Dir.Setxattr] *)
Definition Dir_Setxattr (fuel : nat) (rg : MapRange) (now : string) (d : addr)
  (name xattr : string) : M unit :=
  updateLastOP now ;;;
  if bool_decide (name = "public") then makePublic fuel rg now d xattr
  else if is_virtualXAttr name then ret tt
  else
    dir <~ get_dir d ;;
    set_obj d (ODir (set_d_meta dir (xattrs_set (d_meta dir) name xattr))) ;;;
    Dir_Save fuel rg now d.

(** [Dir.Mkdir]; the result is the new directory. *)
Definition Dir_Mkdir (fuel : nat) (rg : MapRange) (now : string) (d : addr)
  (name : string) : M addr :=
  updateLastOP now ;;;
  imm <~ gets Immutable ;;
  if imm : bool then fail EPERM
  else
    reload_if_nil d ;;;
    c <~ children_lookup d name ;;
    match c with
    | Some _ => fail EEXIST
    | None =>
        ma <~ alloc_map ;;
        newdir <~ alloc (ODir (mkDir (set_Name NewMeta name) (Some d) (Some ma))) ;;
        Dir_Save fuel rg now newdir ;;;
        nd <~ get_dir newdir ;;
        children_insert d (Name (d_meta nd)) newdir ;;;
        Dir_Save fuel rg now d ;;;
        ret newdir
    end.

(** [Dir.Remove] *)
Definition Dir_Remove (fuel : nat) (rg : MapRange) (now : string) (d : addr)
  (name : string) : M unit :=
  updateLastOP now ;;;
  imm <~ gets Immutable ;;
  if imm : bool then fail EPERM
  else
    reload_if_nil d ;;;
    children_delete d name ;;;
    Dir_Save fuel rg now d.

(** [Dir.Create]; the result is the new file, which is also its handle. *)
Definition Dir_Create (fuel : nat) (rg : MapRange) (now : string) (d : addr)
  (name : string) (mode : Z) : M addr :=
  updateLastOP now ;;;
  imm <~ gets Immutable ;;
  if imm : bool then fail EPERM
  else
    reload_if_nil d ;;;
    dir <~ get_dir d ;;
    let m := mkMeta name "file" 0 mode now []
               (if IsPublic (d_meta dir) then Some {["public" := "1"]} else None)
               "" in
    let mhash := (Meta_Json m).1 in
    let mjs := (Meta_Json m).2 in
    let m := set_Hash m mhash in
    mexists <~ bs_Stat mhash ;;
    (if mexists : bool then ret tt else bs_Put mhash mjs) ;;;
    fa <~ NewFile m (Some d) ;;
    children_insert d (Name m) fa ;;;
    Dir_Save fuel rg now d ;;;
    fl <~ get_file fa ;;
    set_obj fa (OFile (mkFile (f_data fl) (f_meta fl) (f_FakeFile fl) (f_parent fl)
                        (mkFileState (updated (f_state fl))
                                     (openCount (f_state fl) + 1)))) ;;;
    modify (λ f, set_fs_openFds (fs_openFds f + 1) f) ;;;
    ret fa.
End Operations.

(** ** A reference implementation of the collaborators

    Enough of an encoder, a hasher, a Root codec and an index endpoint to run
    the model on concrete trees.  A Meta is encoded as its type, name and
    modification time followed by its refs in their order, one per line; the
    hash is a polynomial checksum of the encoding. *)

Definition newline : ascii := ascii_of_nat 10.

Definition ref_text (r : RefItem) : string :=
  match r with
  | RefStr h => h
  | RefPair _ h => String "#" h
  end.

Definition parse_ref (s : string) : RefItem :=
  match s with
  | String "#" h => RefPair 0 h
  | _ => RefStr s
  end.

Definition ref_encode (m : Meta) : string :=
  strings_Join (Type_ m :: Name m :: ModTime m :: map ref_text (Refs m))
               (String newline "").

Definition checksum (s : string) : N :=
  fold_left (λ acc c, (acc * 131 + N_of_ascii c) mod 1000000007)%N
            (list_ascii_of_string s) 7%N.

Definition ref_hash (s : string) : string := "h" +:+ pretty (checksum s).

Definition ref_Json (m : Meta) : string * bytes :=
  (ref_hash (ref_encode m), list_byte_of_string (ref_encode m)).

Definition ref_NewMetaFromBlob (hash : string) (blob : bytes) : result Meta :=
  match strings_Split (string_of_list_byte blob) newline with
  | ty :: name :: mtime :: refs =>
      Ok (mkMeta name ty 0 0 mtime (map parse_ref refs) None hash)
  | _ => Err (ErrIO "malformed meta")
  end.

Definition ref_Root_JSON (r : Root) : result bytes :=
  Ok (list_byte_of_string (Ref r +:+ String newline (Comment r))).

Definition ref_Root_NewFromJSON (data : bytes) (version : Z) : result Root :=
  match strings_Split (string_of_list_byte data) newline with
  | [ref; comment] => Ok (mkRoot ref version comment)
  | _ => Err (ErrIO "malformed root")
  end.

Definition ref_fetch_index (served : gmap string (gmap string string))
  (ref : string) : result (gmap string string) :=
  match served !! ref with
  | Some index => Ok index
  | None => Err (Errorf "failed to fetch index")
  end.

Definition reference (served : gmap string (gmap string string)) : Externals := {|
  Meta_Json := ref_Json;
  NewMetaFromBlob := ref_NewMetaFromBlob;
  json_Marshal_Root := ref_Root_JSON;
  Root_JSON := ref_Root_JSON;
  Root_NewFromJSON := ref_Root_NewFromJSON;
  fetch_index := ref_fetch_index served
|}.

(** ** Example states *)

(** Two tiers for the examples: [h1] is damaged locally and stored remotely. *)
Definition damaged_local : cache.Cache cache.MapTier cache.MapTier :=
  cache.mkCache (cache.mkTier {["h1" := cache.Unreadable]} false)
                (cache.mkTier {["h1" := cache.Stored [x01; x02]]} false).

Definition cold_local : cache.Cache cache.MapTier cache.MapTier :=
  cache.mkCache (cache.mkTier ∅ false)
                (cache.mkTier {["h1" := cache.Stored [x01; x02]]} false).

Definition blank_tier : cache.MapTier := cache.mkTier ∅ false.

(** A filesystem named [demo] with empty stores and no mount. *)
Definition blank_FS : FS :=
  mkFS None (mkVKV ∅ false) (mkVKV ∅ false)
       (cache.mkCache blank_tier blank_tier)
       "demo" false 0 "" None None ∅ 0 ∅ ∅ 0.

Definition local_v5 : Mount := mkMount false (Some 1) (Some (mkRoot "hl" 5 "")).
Definition remote_v5 : Mount := mkMount false (Some 2) (Some (mkRoot "hr" 5 "")).

Definition tied_FS : FS :=
  set_fs_remote (Some remote_v5) (set_fs_local (Some local_v5) blank_FS).

(** A file at address 0 whose buffer holds three bytes, under a root at
    address 1. *)
Definition open_file : File :=
  mkFile (Some [x01; x02; x03]) (mkMeta "f.txt" "file" 3 420 "t0" [] None "hf")
         false (Some 1) (mkFileState false 1).

Definition file_FS : FS := set_fs_heap {[ 0 := OFile open_file ]} blank_FS.

(** An immutable filesystem: a root directory at address 1 holding the file
    at address 0, mounted from the remote track. *)
Definition frozen_FS : FS :=
  mkFS (Some 1) (mkVKV ∅ false) (mkVKV ∅ false)
       (cache.mkCache blank_tier blank_tier)
       "demo" true 0 "" None
       (Some (mkMount true (Some 1) (Some (mkRoot "hd" 5 ""))))
       ∅ 0
       {[ 0 := OFile open_file;
          1 := ODir (mkDir (mkMeta "" "dir" 0 dir_mode "t0" [RefStr "hf"] None "hd")
                           None (Some 2)) ]}
       {[ 2 := {[ "f.txt" := 0 ]} ]} 3.

(** The root directory with no child that the next examples share, as the
    reference encoder stores it. *)
Definition empty_root : Meta := mkMeta "" "dir" 0 dir_mode "t0" [] None "".
Definition empty_root_hash : string := (ref_Json empty_root).1.
Definition empty_root_blob : bytes := (ref_Json empty_root).2.
Definition empty_root_record (version : Z) : KeyValue :=
  mkKV "" (list_byte_of_string (empty_root_hash +:+ String newline "")) version.

(** The remote mount is active at version 5, the local mount is at version 3
    and both have the same root hash; the remote blob store lacks the blob of
    the root. *)
Definition same_ref_FS : FS :=
  mkFS (Some 0)
       (mkVKV {[ rootKeyFmt "demo" := [empty_root_record 5] ]} false)
       (mkVKV ∅ false)
       (cache.mkCache
          (cache.mkTier {[ empty_root_hash := cache.Stored empty_root_blob ]} false)
          blank_tier)
       "demo" false 0 ""
       (Some (mkMount false (Some 0) (Some (mkRoot empty_root_hash 3 ""))))
       (Some (mkMount false (Some 0) (Some (mkRoot empty_root_hash 5 ""))))
       ∅ 0
       {[ 0 := ODir (mkDir (set_Hash empty_root empty_root_hash) None (Some 1)) ]}
       {[ 1 := ∅ ]} 2.

(** The same state with another root hash in the local mount. *)
Definition other_ref_FS : FS :=
  set_fs_local (Some (mkMount false (Some 0) (Some (mkRoot "hl" 3 "")))) same_ref_FS.

(** The local mirror and the live remote are both at version 5, there is no
    local work in progress, and nothing is mounted yet. *)
Definition synced_FS : FS :=
  mkFS None
       (mkVKV {[ rootKeyFmt "demo" := [empty_root_record 5] ]} false)
       (mkVKV {[ rootKeyFmt "demo" := [empty_root_record 5] ]} false)
       (cache.mkCache
          (cache.mkTier {[ empty_root_hash := cache.Stored empty_root_blob ]} false)
          (cache.mkTier {[ empty_root_hash := cache.Stored empty_root_blob ]} false))
       "demo" false 0 "" None None ∅ 0 ∅ ∅ 0.

Definition local_index : gmap string string :=
  {[ "/" := "r1"; "/a" := "x1"; "/a/b" := "y"; "/c" := "z"; "/e/f/g" := "v" ]}.

Definition remote_index : gmap string string :=
  {[ "/" := "r2"; "/a" := "x2"; "/d" := "w" ]}.

(** The tree another client has committed remotely as version 3: a root
    holding a file [b] written at [t7]. *)
Definition their_b : Meta := mkMeta "b" "file" 0 420 "t7" [] None "".
Definition their_b_hash : string := (ref_Json their_b).1.
Definition their_root : Meta :=
  mkMeta "" "dir" 0 dir_mode "t0" [RefStr their_b_hash] None "".
Definition their_root_hash : string := (ref_Json their_root).1.

Definition their_index : gmap string (gmap string string) :=
  {[ their_root_hash := {[ "/" := their_root_hash; "/b" := their_b_hash ]} ]}.

Definition their_server : Externals := reference their_index.

(** The state a call leaves behind. *)
Definition after {A} (m : M A) (f : FS) : FS := (m f).2.

(** The other client's commit as this client sees it: the two blobs in the
    remote tier and a version 3 on the remote track. *)
Definition remote_commit (f : FS) : FS :=
  let key := rootKeyFmt (fs_name f) in
  let record :=
    mkKV "" (list_byte_of_string (their_root_hash +:+ String newline "")) 3 in
  let remote := cache.bs (fs_bs f) in
  let remote' :=
    cache.mkTier
      (<[their_root_hash := cache.Stored (ref_Json their_root).2]>
         (<[their_b_hash := cache.Stored (ref_Json their_b).2]> (cache.slots remote)))
      (cache.sealed remote) in
  set_fs_rkv (mkVKV (<[key := history (fs_rkv f) key ++ [record]]> (entries (fs_rkv f)))
                    false)
    (set_fs_bs (cache.mkCache (cache.backend (fs_bs f)) remote') f).

(** This client starts on empty stores, pushes its empty root as version 2
    and creates a file [b]; [with_dir] also has a directory [b.conflicted].
    Then the other client commits. *)
Definition started : FS :=
  after (FS_loadRoot (ext := their_server) 5 range_sorted "t0") blank_FS.
Definition pushed : FS :=
  after (FS_Push (ext := their_server) 5 range_sorted None) started.
Definition with_b : FS :=
  after (Dir_Create (ext := their_server) 5 range_sorted "t1" 1 "b" 420) pushed.
Definition with_dir : FS :=
  after (Dir_Mkdir (ext := their_server) 5 range_sorted "t2" 1 "b.conflicted") with_b.

Definition diverged : FS := remote_commit with_b.
Definition diverged_name_taken : FS := remote_commit with_dir.

(** ** Observing a tree *)

(** The child of a directory under a name. *)
Definition child_at (f : FS) (d : addr) (name : string) : option Obj :=
  match fs_heap f !! d with
  | Some (ODir dir) => children_of f dir !! name ≫= λ c, fs_heap f !! c
  | _ => None
  end.

(** The hashes of the nodes reachable from a directory through the child
    maps, within a depth. *)
Fixpoint tree_hashes (depth : nat) (f : FS) (a : addr) : list string :=
  match depth with
  | 0 => []
  | S depth' =>
      match fs_heap f !! a with
      | Some (ODir d) =>
          Hash (d_meta d)
          :: concat (map (λ e, tree_hashes depth' f e.2)
                         (map_to_list (children_of f d)))
      | Some (OFile fl) => [Hash (f_meta fl)]
      | None => []
      end
  end.

(** ** Two runs that differ in the order of the refs *)

(** Two Metas that differ at most in the order of their refs. *)
Definition same_up_to_refs_order (m m' : Meta) : Prop :=
  Name m = Name m' ∧ Type_ m = Type_ m' ∧ Size m = Size m' ∧ Mode m = Mode m' ∧
  ModTime m = ModTime m' ∧ XAttrs m = XAttrs m' ∧ Hash m = Hash m' ∧
  Refs m ≡ₚ Refs m'.

(** An encoder that yields the same hash and the same bytes whatever the
    order of the refs. *)
Definition order_insensitive (ext : Externals) : Prop :=
  ∀ m m', same_up_to_refs_order m m' → Meta_Json m = Meta_Json m'.

Definition obj_sim (o1 o2 : Obj) : Prop :=
  match o1, o2 with
  | ODir d1, ODir d2 =>
      same_up_to_refs_order (d_meta d1) (d_meta d2) ∧
      d_parent d1 = d_parent d2 ∧ d_Children d1 = d_Children d2
  | OFile fl1, OFile fl2 => fl1 = fl2
  | _, _ => False
  end.

Definition heap_sim (h1 h2 : gmap addr Obj) : Prop :=
  ∀ a, option_Forall2 obj_sim (h1 !! a) (h2 !! a).

(** Two states that differ at most in the order of the refs of their
    directories. *)
Definition sim (f1 f2 : FS) : Prop :=
  heap_sim (fs_heap f1) (fs_heap f2) ∧ set_fs_heap ∅ f1 = set_fs_heap ∅ f2.

Definition res_sim {A} (RA : A → A → Prop) (x y : result A * FS) : Prop :=
  sim x.2 y.2 ∧
  match x.1, y.1 with
  | Ok a, Ok b => RA a b
  | Err e, Err e' => e = e'
  | Panic w, Panic w' => w = w'
  | OutOfFuel, OutOfFuel => True
  | _, _ => False
  end.

Definition simM {A} (RA : A → A → Prop) (m1 m2 : M A) : Prop :=
  ∀ f1 f2, sim f1 f2 → res_sim RA (m1 f1) (m2 f2).

(** Calls that neither read nor write the heap. *)
Definition heap_blind {A} (m : M A) : Prop :=
  ∀ f h, m (set_fs_heap h f) = ((m f).1, set_fs_heap h (m f).2) ∧
         fs_heap (m f).2 = fs_heap f.

Definition dir_sim (d1 d2 : Dir) : Prop := obj_sim (ODir d1) (ODir d2).

(** The loop over the children run on one state: all the hashes are added,
    or a nil child makes it panic; the state is not touched. *)
Definition child_hashes (f : FS) (cs : list (string * addr)) : option (list string) :=
  mapM (λ e, Hash ∘ obj_Meta <$> fs_heap f !! e.2) cs.

(** The root hash recorded by the last [Save]. *)
Definition saved_root_hash (f : FS) : option string :=
  match fs_local f with
  | Some l => Ref <$> m_root l
  | None => None
  end.

(** ** An encoder that sorts the refs *)

(** The refs are sorted before they are encoded. *)
Definition sorted_encode (m : Meta) : string :=
  strings_Join (Type_ m :: Name m :: ModTime m
                  :: merge_sort String.le (map ref_text (Refs m)))
               (String newline "").

Definition sorted_Json (m : Meta) : string * bytes :=
  (ref_hash (sorted_encode m), list_byte_of_string (sorted_encode m)).

Definition sorting_reference (served : gmap string (gmap string string)) : Externals := {|
  Meta_Json := sorted_Json;
  NewMetaFromBlob := ref_NewMetaFromBlob;
  json_Marshal_Root := ref_Root_JSON;
  Root_JSON := ref_Root_JSON;
  Root_NewFromJSON := ref_Root_NewFromJSON;
  fetch_index := ref_fetch_index served
|}.

(** A root directory at address 1 holding two files. *)
Definition two_children_FS : FS :=
  set_fs_root (Some 1)
    (set_fs_maps {[ 3 := {[ "a" := 0; "b" := 2 ]} ]}
       (set_fs_heap
          {[ 0 := OFile (mkFile None (mkMeta "a" "file" 1 420 "t0" [] None "ha")
                           false (Some 1) (mkFileState false 0));
             1 := ODir (mkDir (mkMeta "" "dir" 0 dir_mode "t0" [] None "") None (Some 3));
             2 := OFile (mkFile None (mkMeta "b" "file" 1 420 "t0" [] None "hb")
                           false (Some 1) (mkFileState false 0)) ]}
          blank_FS)).

(** ** Saving twice: the parts of [Dir.Save] *)

(** A tree whose parent pointers lead to nodes of smaller rank and whose
    child maps lead to nodes of larger rank. *)
Definition ranked (rank : addr → nat) (f : FS) : Prop :=
  ∀ a dir, fs_heap f !! a = Some (ODir dir) →
    (∀ p, d_parent dir = Some p → rank p < rank a) ∧
    (∀ n c, children_of f dir !! n = Some c → rank a < rank c).

(** [is_top f d r]: following the parent pointers from [d] ends at [r]. *)
Inductive is_top (f : FS) : addr → addr → Prop :=
  | top_here d dir :
      fs_heap f !! d = Some (ODir dir) → d_parent dir = None → is_top f d d
  | top_up d dir p r :
      fs_heap f !! d = Some (ODir dir) → d_parent dir = Some p →
      is_top f p r → is_top f d r.

(** The kind of an object and the pointers it holds. *)
Definition shape (o : option Obj) : option (bool * option addr * option addr) :=
  match o with
  | Some (ODir d) => Some (true, d_parent d, d_Children d)
  | Some (OFile fl) => Some (false, f_parent fl, None)
  | None => None
  end.

Section SaveParts.
Context {ext : Externals}.

(** The Meta [Dir.Save] installs in a directory whose children have the
    hashes [hs], in the order of the iteration. *)
Definition Save_meta (dir : Dir) (now : string) (hs : list string) : Meta :=
  let m1 := foldl AddRef
              (mkMeta (Name (d_meta dir)) "dir" 0 dir_mode
                 (if nonempty (ModTime (d_meta dir))
                  then ModTime (d_meta dir) else now)
                 [] None "") hs in
  set_Hash m1 (Meta_Json m1).1.

Definition Save_blob (dir : Dir) (now : string) (hs : list string) : bytes :=
  (Meta_Json (foldl AddRef
              (mkMeta (Name (d_meta dir)) "dir" 0 dir_mode
                 (if nonempty (ModTime (d_meta dir))
                  then ModTime (d_meta dir) else now)
                 [] None "") hs)).2.

Definition saved_dir (dir : Dir) (now : string) (hs : list string) : Obj :=
  ODir (mkDir (Save_meta dir now hs) (d_parent dir) (d_Children dir)).

(** The root branch of [Dir.Save]. *)
Definition commit_root (d : addr) (mhash : string) : M unit :=
  let root := root_New mhash 0 in
  js <~ lift (json_Marshal_Root root) ;;
  name <~ gets fs_name ;;
  kv <~ lkv_Put (localRootKeyFmt name) "" js (-1) ;;
  let root := set_Version root (kv_Version kv) in
  modify (set_fs_local (Some (mkMount false (Some d) (Some root)))) ;;;
  r <~ gets fs_root ;;
  match r with
  | Some ra => dv <~ get_dir d ;; set_obj ra (ODir dv)
  | None => ret tt
  end.

Definition Save_next (fuel : nat) (rg : MapRange) (now : string) (d : addr)
  (dir : Dir) (mhash : string) : M unit :=
  match d_parent dir with
  | None => commit_root d mhash
  | Some p => Dir_Save fuel rg now p
  end.
End SaveParts.

Definition present (c : cache.Cache cache.MapTier cache.MapTier) (h : string) : Prop :=
  is_Some (cache.slots (cache.backend c) !! h) ∨
  is_Some (cache.slots (cache.bs c) !! h).

Definition frame (rank : addr → nat) (d : addr) (f f1 : FS) : Prop :=
  (∀ a, rank d < rank a → fs_heap f1 !! a = fs_heap f !! a) ∧
  (∀ a, shape (fs_heap f1 !! a) = shape (fs_heap f !! a)) ∧
  fs_maps f1 = fs_maps f ∧ fs_root f1 = fs_root f ∧ fs_name f1 = fs_name f ∧
  (∀ h, present (fs_bs f) h → present (fs_bs f1) h).

Definition saved_again (f1 f2 : FS) : Prop :=
  let key := localRootKeyFmt (fs_name f1) in
  fs_heap f2 = fs_heap f1 ∧ fs_maps f2 = fs_maps f1 ∧ fs_bs f2 = fs_bs f1 ∧
  fs_root f2 = fs_root f1 ∧ saved_root_hash f2 = saved_root_hash f1 ∧
  ∃ kv kv',
    last (history (fs_lkv f1) key) = Some kv ∧
    history (fs_lkv f2) key = history (fs_lkv f1) key ++ [kv'] ∧
    kv_Data kv' = kv_Data kv ∧ kv_Version kv' = (kv_Version kv + 1)%Z.

(** The depth of the nodes of [two_children_FS]. *)
Definition two_children_rank (a : addr) : nat := if decide (a = 1) then 0 else 1.

(** [two_children_FS] after one [Save] of its root at [t1]. *)
Definition saved_once : FS :=
  after (Dir_Save (ext := reference ∅) 3 range_sorted "t1" 1) two_children_FS.

(** Two states with the same working root, tracks, name and mounts: what
    decoding a record leaves alone. *)
Definition same_tracks (f f' : FS) : Prop :=
  fs_root f' = fs_root f ∧ fs_lkv f' = fs_lkv f ∧ fs_rkv f' = fs_rkv f ∧
  fs_name f' = fs_name f ∧ fs_local f' = fs_local f ∧ fs_remote f' = fs_remote f ∧
  fs_immutable f' = fs_immutable f.

(** * The other operations *)

(** ** Path lookup and the remaining directory operations *)

Definition debugSuffix : string := ".blobfs_debug".

(** [strings.HasSuffix] *)
Definition strings_HasSuffix (s suffix : string) : bool :=
  bool_decide (String.length suffix ≤ String.length s) &&
  String.eqb (substring (String.length s - String.length suffix)
                        (String.length suffix) s) suffix.

(** What [Dir.Lookup] hands to the kernel: a node of the tree, or a
    [debugFile] holding bytes. *)
Inductive LookupResult := LNode (a : addr) | LDebugFile (data : bytes).

(** An entry of a directory listing. *)
Record Dirent := mkDirent { de_Inode : Z; de_Name : string; de_IsDir : bool }.

Definition set_Size (m : Meta) (size : Z) : Meta :=
  mkMeta (Name m) (Type_ m) size (Mode m) (ModTime m) (Refs m) (XAttrs m) (Hash m).

(** The error of a [ReadAt]: none, [io.EOF], or another one. *)
Inductive ReadAtErr := ReadAt_nil | ReadAt_EOF | ReadAt_other.

(** The collaborators of the file operations: the reader of package
    [filereader], the uploader of package [writer], both working on the
    content store they are given, and the HEAD request of the semi-private
    URL.  [ioutil.ReadAll] returns the bytes read so far together with the
    error, if any; [ReadAt] is given the size of the buffer and the offset
    and returns the bytes read together with the error; [RenameMeta] changes
    the Meta it is given in place and returns an error, if any. *)
Class FileIO := {
  filereader_ReadAt :
    cache.Cache cache.MapTier cache.MapTier → Meta → Z → Z →
    (bytes * ReadAtErr) * cache.Cache cache.MapTier cache.MapTier;
  filereader_ReadAll :
    cache.Cache cache.MapTier cache.MapTier → Meta →
    (bytes * option error) * cache.Cache cache.MapTier cache.MapTier;
  uploader_PutReader :
    cache.Cache cache.MapTier cache.MapTier → string → bytes →
    result Meta * cache.Cache cache.MapTier cache.MapTier;
  uploader_RenameMeta :
    cache.Cache cache.MapTier cache.MapTier → Meta → string →
    (Meta * option error) * cache.Cache cache.MapTier cache.MapTier;
  (* HEAD /api/filetree/node/{hash}?bewit=1: the status code and the
     [BlobStash-FileTree-Bewit] header *)
  head_bewit : string → result (Z * string)
}.

(** [m.Type[0:1]] *)
Definition Type_initial (m : Meta) : result string :=
  match Type_ m with
  | EmptyString => Panic "slice bounds out of range"
  | String c _ => Ok (String c EmptyString)
  end.

(** [handleListxattr]: of the virtual attributes only [ref] has a function;
    the names are appended in the order of the iteration. *)
Definition handleListxattr (rg : MapRange) (m : Meta) : list string :=
  ["ref"] ++
  match XAttrs m with
  | None => []
  | Some xs => (rg string xs).*1 ++ (if IsPublic m then ["url"] else [])
  end.

(** A call run with a deferred function: the deferred function runs when the
    call returns, whatever it returns. *)
Definition deferred {A} (body : M A) (after : FS → FS) : M A :=
  λ f, ((body f).1, after (body f).2).

(** The deferred function of [File.Release]. *)
Definition release_counts (a : addr) (f : FS) : FS :=
  match fs_heap f !! a with
  | Some (OFile fl) =>
      set_fs_openFds (fs_openFds f - 1)
        (set_fs_heap
           (<[a := OFile (mkFile (f_data fl) (f_meta fl) (f_FakeFile fl) (f_parent fl)
                            (mkFileState (updated (f_state fl))
                                         (openCount (f_state fl) - 1)))]>
              (fs_heap f)) f)
  | _ => f
  end.

(** [File.Size] *)
Definition File_Size (f : FS) (fl : File) : Z :=
  match f_data fl with
  | Some data => if Immutable f then Size (f_meta fl) else Z.of_nat (length data)
  | None => Size (f_meta fl)
  end.

Section MoreOperations.
Context {ext : Externals} {io : FileIO}.

(** [handleGetxattr] *)
Definition handleGetxattr (host : string) (m : Meta) (name : string)
  : result bytes :=
  if bool_decide (name = "ref") then Ok (list_byte_of_string (Hash m))
  else if bool_decide (name = "url.semiprivate") then
    match head_bewit (Hash m) with
    | Ok (status, bewit) =>
        if bool_decide (status ≠ 200%Z)
        then Err (Errorf ("bad status code: " +:+ pretty status))
        else match Type_initial m with
             | Ok t => Ok (list_byte_of_string
                             (host +:+ "/" +:+ t +:+ "/" +:+ Hash m
                                   +:+ "?bewit=" +:+ bewit))
             | Err e => Err e
             | Panic w => Panic w
             | OutOfFuel => OutOfFuel
             end
    | Err e => Err e
    | Panic w => Panic w
    | OutOfFuel => OutOfFuel
    end
  else if bool_decide (name = "url") && IsPublic m then
    match Type_initial m with
    | Ok t => Ok (list_byte_of_string (host +:+ "/" +:+ t +:+ "/" +:+ Hash m))
    | Err e => Err e
    | Panic w => Panic w
    | OutOfFuel => OutOfFuel
    end
  else
    match XAttrs m with
    | None => Err ErrNoXattr
    | Some xs =>
        match xs !! name with
        | Some v => Ok (list_byte_of_string v)
        | None => Err ErrNoXattr
        end
    end.

(** [FS.path] *)
Fixpoint FS_path (fuel : nat) (rg : MapRange) (n : addr) (lp p : string)
  : M (option addr) :=
  match fuel with
  | 0 => λ f, (OutOfFuel, f)
  | S fuel' =>
      o <~ get_obj n ;;
      if obj_IsDir o then
        reload_if_nil n ;;;
        d <~ get_dir n ;;
        cs <~ gets (λ f, rg addr (children_of f d)) ;;
        (fix loop (cs : list (string * addr)) : M (option addr) :=
           match cs with
           | [] => ret None
           | (_, child) :: rest =>
               no <~ get_obj n ;;
               co <~ get_obj child ;;
               let childPath :=
                 filepath_Join [p; Name (obj_Meta no); Name (obj_Meta co)] in
               if obj_IsDir co then
                 rnode <~ FS_path fuel' rg child lp
                            (filepath_Join [p; Name (obj_Meta no)]) ;;
                 match rnode with
                 | Some r =>
                     if bool_decide (childPath = lp) then ret (Some r)
                     else loop rest
                 | None => loop rest
                 end
               else if bool_decide (childPath = lp) then ret (Some child)
                    else loop rest
           end) cs
      else ret None
  end.

(** [Dir.Lookup] *)
Definition Dir_Lookup (socketPath : string) (now : string) (d : addr)
  (name : string) : M LookupResult :=
  updateLastOP now ;;;
  if bool_decide (name = ".blobfs_socket")
  then ret (LDebugFile (list_byte_of_string socketPath))
  else
    reload_if_nil d ;;;
    let debug := strings_HasSuffix name debugSuffix in
    let name := if debug
                then substring 0 (String.length name - String.length debugSuffix) name
                else name in
    c <~ children_lookup d name ;;
    match c with
    | Some c =>
        if debug then
          o <~ get_obj c ;;
          let hj := Meta_Json (obj_Meta o) in
          ret (LDebugFile (list_byte_of_string hj.1 ++ hj.2))
        else ret (LNode c)
    | None => fail ENOENT
    end.

(** [Dir.ReadDirAll] *)
Definition Dir_ReadDirAll (rg : MapRange) (now : string) (d : addr)
  : M (list Dirent) :=
  updateLastOP now ;;;
  reload_if_nil d ;;;
  dir <~ get_dir d ;;
  cs <~ gets (λ f, rg addr (children_of f dir)) ;;
  (fix loop (cs : list (string * addr)) (dirs : list Dirent) : M (list Dirent) :=
     match cs with
     | [] => ret dirs
     | (_, c) :: rest =>
         o <~ get_obj c ;;
         loop rest (dirs ++ [mkDirent 0 (Name (obj_Meta o)) (obj_IsDir o)])
     end) cs [].

Definition set_obj_Meta (o : Obj) (m : Meta) : Obj :=
  match o with
  | ODir d => ODir (set_d_meta d m)
  | OFile fl => OFile (set_f_meta fl m)
  end.

(** [Dir.Rename] *)
Definition Dir_Rename (fuel : nat) (rg : MapRange) (now : string) (d : addr)
  (OldName NewName : string) (newDir : addr) : M unit :=
  updateLastOP now ;;;
  reload_if_nil d ;;;
  c <~ children_lookup d OldName ;;
  match c with
  | Some node =>
      o <~ get_obj node ;;
      err <~ (λ f, let r := uploader_RenameMeta (fs_bs f) (obj_Meta o) NewName in
                   (Ok r.1.2,
                    set_fs_heap (<[node := set_obj_Meta o r.1.1]> (fs_heap f))
                      (set_fs_bs r.2 f))) ;;
      match err with
      | Some e => fail e
      | None =>
          (* Delete the source *)
          children_delete d OldName ;;;
          nd <~ get_obj newDir ;;
          match nd with
          | OFile _ => panic "interface conversion: fs.Node is *File, not *Dir"
          | ODir _ =>
              (if bool_decide (d ≠ newDir)
               then children_insert newDir NewName node
               else children_insert d NewName node) ;;;
              Dir_Save fuel rg now d ;;;
              (* Also save the dest dir if it was different from the src dir *)
              if bool_decide (d ≠ newDir) then Dir_Save fuel rg now newDir
              else ret tt
          end
      end
  | None => fail EIO
  end.

(** [Dir.Removexattr] *)
Definition Dir_Removexattr (fuel : nat) (rg : MapRange) (now : string) (d : addr)
  (name : string) : M unit :=
  updateLastOP now ;;;
  if is_virtualXAttr name then fail ErrNoXattr
  else
    dir <~ get_dir d ;;
    match XAttrs (d_meta dir) with
    | None => fail ErrNoXattr
    | Some xs =>
        match xs !! name with
        | Some _ =>
            set_obj d (ODir (set_d_meta dir
                               (set_XAttrs (d_meta dir) (Some (delete name xs))))) ;;;
            Dir_Save fuel rg now d ;;;
            if bool_decide (name = "public")
            then modify (λ f, set_fs_sync (S (fs_sync f)) f)
            else ret tt
        | None => fail ErrNoXattr
        end
    end.

(** [Dir.Getxattr] *)
Definition Dir_Getxattr (host : string) (now : string) (d : addr) (name : string)
  : M bytes :=
  updateLastOP now ;;;
  dir <~ get_dir d ;;
  lift (handleGetxattr host (d_meta dir) name).

(** [File.Listxattr] *)
Definition File_Listxattr (rg : MapRange) (now : string) (a : addr)
  : M (list string) :=
  updateLastOP now ;;;
  fl <~ get_file a ;;
  ret (handleListxattr rg (f_meta fl)).

(** [File.Getxattr]; the filesystem is reached through the parent. *)
Definition File_Getxattr (host : string) (now : string) (a : addr) (name : string)
  : M bytes :=
  updateLastOP now ;;;
  fl <~ get_file a ;;
  _ <~ deref_opt (f_parent fl) ;;
  lift (handleGetxattr host (f_meta fl) name).

(** [File.Removexattr] *)
Definition File_Removexattr (fuel : nat) (rg : MapRange) (now : string) (a : addr)
  (name : string) : M unit :=
  updateLastOP now ;;;
  if is_virtualXAttr name then fail ErrNoXattr
  else
    fl <~ get_file a ;;
    match XAttrs (f_meta fl) with
    | None => fail ErrNoXattr
    | Some xs =>
        match xs !! name with
        | Some _ =>
            set_obj a (OFile (set_f_meta fl
                                (set_XAttrs (f_meta fl) (Some (delete name xs))))) ;;;
            File_Save fuel rg now a ;;;
            if bool_decide (name = "public")
            then modify (λ f, set_fs_sync (S (fs_sync f)) f)
            else ret tt
        | None => fail ErrNoXattr
        end
    end.

(** [fuseutil.HandleRead] of the FUSE library, which takes [data] for the
    entire content: the bytes from the offset on, cut to the size. *)
Definition HandleRead (Offset Size : Z) (data : bytes) : bytes :=
  take (Z.to_nat Size)
       (if bool_decide (Offset >= Z.of_nat (length data))%Z then []
        else drop (Z.to_nat Offset) data).

(** [File.Read]; the result is [res.Data]. *)
Definition File_Read (now : string) (a : addr) (Offset Size : Z) : M bytes :=
  updateLastOP now ;;;
  fl <~ get_file a ;;
  if bool_decide (f_data fl = None) && negb (f_FakeFile fl) then ret []
  else
    size <~ gets (λ f, File_Size f fl) ;;
    if bool_decide (Offset >= size)%Z then ret []
    else
      imm <~ gets Immutable ;;
      if imm : bool then
        if bool_decide (Size < 0)%Z then panic "makeslice: len out of range"
        else if f_FakeFile fl then
          λ f, let r := filereader_ReadAt (fs_bs f) (f_meta fl) Size Offset in
               match r.1.2 with
               | ReadAt_other => (Err EIO, set_fs_bs r.2 f)
               | _ => (Ok r.1.1, set_fs_bs r.2 f)
               end
        else panic nil_deref
      else
        if bool_decide (Offset < 0 ∨ Size < 0)%Z
        then panic "slice bounds out of range"
        else ret (HandleRead Offset Size (default [] (f_data fl))).

(** [File.Open]; [node] is the id of the node in the request header. *)
Definition File_Open (now : string) (a : addr) (node : Z) : M unit :=
  updateLastOP now ;;;
  fl <~ get_file a ;;
  let st := mkFileState (updated (f_state fl)) (openCount (f_state fl) + 1) in
  set_obj a (OFile (mkFile (f_data fl) (f_meta fl) (f_FakeFile fl) (f_parent fl) st)) ;;;
  modify (λ f, set_fs_openFds (fs_openFds f + 1) f) ;;;
  modify (λ f, set_fs_cache ({[node]} ∪ fs_cache f) f) ;;;
  if bool_decide (openCount st = 1%Z) && bool_decide (0 < length (Refs (f_meta fl)))
  then
    λ f, let r := filereader_ReadAll (fs_bs f) (f_meta fl) in
         let f' := set_fs_heap
                     (<[a := OFile (mkFile (Some r.1.1) (f_meta fl) true
                                       (f_parent fl) st)]> (fs_heap f))
                     (set_fs_bs r.2 f) in
         match r.1.2 with
         | Some e => (Err e, f')
         | None => (Ok tt, f')
         end
  else ret tt.

(** [File.Release] *)
Definition File_Release (fuel : nat) (rg : MapRange) (now : string) (a : addr)
  : M unit :=
  updateLastOP now ;;;
  deferred
    (fl <~ get_file a ;;
     if bool_decide (openCount (f_state fl) = 1%Z) then
       imm <~ gets Immutable ;;
       match f_data fl with
       | Some data =>
           if negb imm && bool_decide (0 < length data) && updated (f_state fl)
           then
             let m1 := set_Size (f_meta fl) (Z.of_nat (length data)) in
             set_obj a (OFile (set_f_meta fl m1)) ;;;
             m2 <~ (λ f, let r := uploader_PutReader (fs_bs f) (Name m1) data in
                         (r.1, set_fs_bs r.2 f)) ;;
             fl1 <~ get_file a ;;
             set_obj a (OFile (set_f_meta fl1 m2)) ;;;
             p <~ deref_opt (f_parent fl1) ;;
             Dir_Save fuel rg now p ;;;
             fl2 <~ get_file a ;;
             set_obj a (OFile (set_updated fl2 false))
           else ret tt
       | None => ret tt
       end ;;;
       (* This is the last file descriptor, we can clean everything *)
       fl3 <~ get_file a ;;
       set_obj a (OFile (mkFile None (f_meta fl3) false (f_parent fl3) (f_state fl3)))
     else ret tt)
    (release_counts a).
End MoreOperations.

(** ** Relations between states *)

Definition keeps {A} (P : FS → FS → Prop) (m : M A) : Prop := ∀ f, P f (m f).2.

Definition remote_side (f f' : FS) : Prop :=
  fs_rkv f' = fs_rkv f ∧ fs_remote f' = fs_remote f ∧
  cache.bs (fs_bs f') = cache.bs (fs_bs f).

(** What a reload leaves alone: everything but the nodes, the child maps and
    the content store. *)
Definition same_session (f f' : FS) : Prop :=
  fs_openFds f' = fs_openFds f ∧ fs_sync f' = fs_sync f ∧ fs_cache f' = fs_cache f ∧
  fs_root f' = fs_root f ∧ fs_immutable f' = fs_immutable f ∧
  fs_name f' = fs_name f ∧ fs_lastOP f' = fs_lastOP f ∧
  fs_local f' = fs_local f ∧ fs_remote f' = fs_remote f ∧
  fs_lkv f' = fs_lkv f ∧ fs_rkv f' = fs_rkv f.

(** What a Save leaves alone in a node: the name, the parent and the child
    map of a directory, the whole of a file. *)
Definition node_sig (o : option Obj)
  : option (string * option addr * option addr + File) :=
  match o with
  | Some (ODir d) => Some (inl (Name (d_meta d), d_parent d, d_Children d))
  | Some (OFile fl) => Some (inr fl)
  | None => None
  end.

Definition same_tree (f f' : FS) : Prop :=
  (∀ a, node_sig (fs_heap f' !! a) = node_sig (fs_heap f !! a)) ∧
  fs_maps f' = fs_maps f ∧ fs_next f' = fs_next f ∧ fs_root f' = fs_root f ∧
  fs_immutable f' = fs_immutable f ∧ fs_openFds f' = fs_openFds f ∧
  fs_cache f' = fs_cache f ∧ fs_sync f' = fs_sync f ∧ fs_lastOP f' = fs_lastOP f.

(** A directory whose Meta is the one [Dir.Save] builds: a fresh Meta with
    the type and the mode of a directory. *)
Definition rebuilt (o : option Obj) : Prop :=
  ∃ dir, o = Some (ODir dir) ∧ XAttrs (d_meta dir) = None ∧
         Type_ (d_meta dir) = "dir" ∧ Mode (d_meta dir) = dir_mode ∧
         Size (d_meta dir) = 0%Z.

Definition keeps_rebuilt (f f' : FS) : Prop :=
  ∀ a, rebuilt (fs_heap f !! a) → rebuilt (fs_heap f' !! a).

(** ** A reference implementation of the file collaborators *)

(** Stand-ins for the reader, the uploader and the HEAD request, enough to
    run the file operations on concrete trees: the content of a file is the
    bytes stored under its first chunk, an upload stores the bytes under a
    checksum and returns a Meta with one chunk. *)
Definition ref_ReadAll (c : cache.Cache cache.MapTier cache.MapTier) (m : Meta)
  : (bytes * option error) * cache.Cache cache.MapTier cache.MapTier :=
  match Refs m with
  | RefPair _ h :: _ =>
      match cache.Get c h with
      | (Ok b, c') => ((b, None), c')
      | (Err e, c') => (([], Some e), c')
      | (_, c') => (([], Some (ErrIO "read")), c')
      end
  | _ => (([], None), c)
  end.

Definition ref_PutReader (c : cache.Cache cache.MapTier cache.MapTier)
  (name : string) (data : bytes)
  : result Meta * cache.Cache cache.MapTier cache.MapTier :=
  let h := ref_hash (string_of_list_byte data) in
  let m := mkMeta name "file" (Z.of_nat (length data)) 420 "" [RefPair 0 h] None "" in
  match cache.Put c h data with
  | (Ok _, c') => (Ok (set_Hash m (ref_Json m).1), c')
  | (Err e, c') => (Err e, c')
  | (Panic w, c') => (Panic w, c')
  | (OutOfFuel, c') => (OutOfFuel, c')
  end.

Definition ref_RenameMeta (c : cache.Cache cache.MapTier cache.MapTier)
  (m : Meta) (name : string)
  : (Meta * option error) * cache.Cache cache.MapTier cache.MapTier :=
  let m' := set_Name m name in
  ((set_Hash m' (ref_Json m').1, None), c).

Definition ref_ReadAt (c : cache.Cache cache.MapTier cache.MapTier) (m : Meta)
  (size off : Z)
  : (bytes * ReadAtErr) * cache.Cache cache.MapTier cache.MapTier :=
  let r := ref_ReadAll c m in
  match r.1.2 with
  | Some _ => (([], ReadAt_other), r.2)
  | None =>
      let part := take (Z.to_nat size) (drop (Z.to_nat off) r.1.1) in
      ((part, if bool_decide (Z.of_nat (length part) < size)%Z
              then ReadAt_EOF else ReadAt_nil), r.2)
  end.

Definition reference_io : FileIO := {|
  filereader_ReadAt := ref_ReadAt;
  filereader_ReadAll := ref_ReadAll;
  uploader_PutReader := ref_PutReader;
  uploader_RenameMeta := ref_RenameMeta;
  head_bewit := λ h, Ok (200%Z, "bewit-" +:+ h)
|}.

(** The addresses from [fs_next] on are free, and the child map of a
    directory, when it is not nil, is a map of the state. *)
Definition well_formed (f : FS) : Prop :=
  (∀ a : addr, fs_next f ≤ a → fs_heap f !! a = None ∧ fs_maps f !! a = None) ∧
  (∀ (a : addr) dir ma, fs_heap f !! a = Some (ODir dir) → d_Children dir = Some ma →
     is_Some (fs_maps f !! ma)).

(** The state of a reload in progress: the directory [d] holds the new child
    map [ma], the other nodes of [f] are as they were and its maps are still
    there. *)
Definition reloading (f : FS) (d : addr) (dir : Dir) (ma : addr) (g : FS) : Prop :=
  well_formed g ∧ fs_next f ≤ fs_next g ∧
  fs_heap g !! d = Some (ODir (mkDir (d_meta dir) (d_parent dir) (Some ma))) ∧
  fs_root g = fs_root f ∧ fs_immutable g = fs_immutable f ∧
  (∀ a o, a ≠ d → fs_heap f !! a = Some o → fs_heap g !! a = Some o).

(** The open count of the file at [a] and the count of open descriptors of
    the filesystem. *)
Definition open_counts (a : addr) (f : FS) : option (Z * Z) :=
  match fs_heap f !! a with
  | Some (OFile fl) => Some (openCount (f_state fl), fs_openFds f)
  | _ => None
  end.

(** The entry [ReadDirAll] makes for a child. *)
Definition dirent_of (f : FS) (c : addr) : option Dirent :=
  o ← fs_heap f !! c; Some (mkDirent 0 (Name (obj_Meta o)) (obj_IsDir o)).

(** The remote tier holds a blob under the hash. *)
Definition stored_remotely (f : FS) (hash : string) : Prop :=
  is_Some (cache.slots (cache.bs (fs_bs f)) !! hash).

(** ** Checking a tree *)

(** The end of the parent pointers from [d], followed for at most [fuel]
    steps. *)
Fixpoint top_of (fuel : nat) (f : FS) (d : addr) : option addr :=
  match fuel with
  | 0 => None
  | S fuel' =>
      match fs_heap f !! d with
      | Some (ODir dir) =>
          match d_parent dir with
          | None => Some d
          | Some p => top_of fuel' f p
          end
      | _ => None
      end
  end.

(** The working root, when there is one, is the top of [d]. *)
Definition top_check (fuel : nat) (f : FS) (d : addr) : bool :=
  match fs_root f with
  | Some r => bool_decide (top_of fuel f d = Some r)
  | None => true
  end.

Definition loaded_ok (f : FS) (o : Obj) : bool :=
  match o with
  | ODir dir =>
      match d_Children dir with
      | Some ma => bool_decide (is_Some (fs_maps f !! ma))
      | None => true
      end
  | OFile _ => true
  end.

(** The addresses in use are below the next free one and the child maps of
    the directories exist. *)
Definition wf_check (f : FS) : bool :=
  forallb (λ ao, bool_decide (ao.1 < fs_next f) && loaded_ok f ao.2)
          (map_to_list (fs_heap f)) &&
  forallb (λ am : addr * gmap string addr, bool_decide (am.1 < fs_next f))
          (map_to_list (fs_maps f)).

(** ** More example states *)

(** The tree of [two_children_FS] with its four addresses in use. *)
Definition tree_root : Dir :=
  mkDir (mkMeta "" "dir" 0 dir_mode "t0" [] None "") None (Some 3).
Definition tree_a : File :=
  mkFile None (mkMeta "a" "file" 1 420 "t0" [] None "ha") false (Some 1)
         (mkFileState false 0).
Definition tree_FS : FS := set_fs_next 4 two_children_FS.

(** The same tree with a subdirectory [sub] that was never listed. *)
Definition sub_dir : Dir :=
  mkDir (mkMeta "sub" "dir" 0 dir_mode "t0" [] None "hs") (Some 1) None.
Definition nested_FS : FS :=
  set_fs_next 5
    (set_fs_maps {[ 3 := {[ "a" := 0; "b" := 2; "sub" := 4 ]} ]}
       (set_fs_heap (<[4 := ODir sub_dir]> (fs_heap two_children_FS)) two_children_FS)).

(** The file [a] with one attribute, in the tree and in the immutable
    filesystem. *)
Definition tagged_file : File :=
  mkFile None (mkMeta "a" "file" 1 420 "t0" [] (Some {[ "user.note" := "x" ]}) "ha")
         false (Some 1) (mkFileState false 0).
Definition frozen_tagged : FS :=
  set_fs_heap (<[0 := OFile tagged_file]> (fs_heap frozen_FS)) frozen_FS.

(** The file [a] opened once and written to. *)
Definition written_file : File :=
  mkFile (Some [x01]) (mkMeta "a" "file" 1 420 "t0" [] None "ha") false (Some 1)
         (mkFileState true 1).
Definition written_FS : FS :=
  after (File_Write Int64 "t2" 0 0 [x01]) (after (File_Open (io := reference_io) "t1" 0 7) tree_FS).

(** * Properties *)

(** ** The content store *)

Section CacheFacts.
Context {B R : Type} `{!cache.BlobTier B, !cache.BlobTier R}.
Import cache.

Lemma Get_local_hit (c : Cache B R) hash blob :
  tier_Get (backend c) hash = Ok blob → Get c hash = (Ok blob, c).
Proof. intros Hl. unfold Get. by rewrite Hl. Qed.

Lemma Get_remote_fill (c : Cache B R) hash blob backend' :
  tier_Get (backend c) hash = Err ErrBlobNotFound →
  tier_Get (bs c) hash = Ok blob →
  tier_Put (backend c) hash blob = (Ok tt, backend') →
  Get c hash = (Ok blob, mkCache backend' (bs c)).
Proof. intros Hl Hr Hp. unfold Get. by rewrite Hl, Hr, Hp. Qed.

Lemma Get_fails_iff (c : Cache B R) hash :
  is_Err (Get c hash).1 ↔
    (∃ e, tier_Get (backend c) hash = Err e ∧ e ≠ ErrBlobNotFound) ∨
    (tier_Get (backend c) hash = Err ErrBlobNotFound ∧
       ((∃ e, tier_Get (bs c) hash = Err e) ∨
        (∃ blob e, tier_Get (bs c) hash = Ok blob ∧
                   (tier_Put (backend c) hash blob).1 = Err e))).
Proof.
  unfold Get.
  destruct (tier_Get (backend c) hash) as [lb|le|lw|] eqn:Hl; simpl.
  1,3,4: split; [done|intros [(e & He & _)|[He _]]; done].
  destruct (decide (le = ErrBlobNotFound)) as [->|Hne].
  - destruct (tier_Get (bs c) hash) as [rb|re|rw|] eqn:Hr; simpl.
    2: { split; [|done]. intros _. right. split; [done|]. left. by exists re. }
    2,3: split; [done|];
      intros [(e & He & Hne)|[_ [(e & He)|(blob & e & Hb & He)]]];
      first [done|congruence].
    destruct (tier_Put (backend c) hash rb) as [[u|pe|pw|] b'] eqn:Hp; simpl.
    all: split;
      [intros Hf|intros [(e & He & Hne)|[_ [(e & He)|(blob & e & Hb & He)]]]];
      try done; try congruence.
    + injection Hb as <-. by rewrite Hp in He.
    + right. split; [done|]. right. exists rb, pe. by rewrite Hp.
    + injection Hb as <-. by rewrite Hp in He.
    + injection Hb as <-. by rewrite Hp in He.
  - split.
    + intros _. left. by exists le.
    + intros _. by destruct le.
Qed.

(** C9 (as amended): [Get] returns the locally stored bytes when the local
    tier has them; on a local [ErrBlobNotFound] it fetches the bytes from the
    remote tier, writes them through to the local tier and returns them; it
    fails exactly when the local read fails with an error other than
    [ErrBlobNotFound], or the local tier misses and either the remote read
    fails or the write-through to the local tier fails. *)
Theorem Cache_Get_spec (c : Cache B R) (hash : string) :
  (∀ blob, tier_Get (backend c) hash = Ok blob → Get c hash = (Ok blob, c)) ∧
  (∀ blob backend',
     tier_Get (backend c) hash = Err ErrBlobNotFound →
     tier_Get (bs c) hash = Ok blob →
     tier_Put (backend c) hash blob = (Ok tt, backend') →
     Get c hash = (Ok blob, mkCache backend' (bs c))) ∧
  (is_Err (Get c hash).1 ↔
     (∃ e, tier_Get (backend c) hash = Err e ∧ e ≠ ErrBlobNotFound) ∨
     (tier_Get (backend c) hash = Err ErrBlobNotFound ∧
        ((∃ e, tier_Get (bs c) hash = Err e) ∨
         (∃ blob e, tier_Get (bs c) hash = Ok blob ∧
                    (tier_Put (backend c) hash blob).1 = Err e)))).
Proof.
  split; [|split].
  - intros blob. apply Get_local_hit.
  - intros blob backend'. apply Get_remote_fill.
  - apply Get_fails_iff.
Qed.
End CacheFacts.

(** C9 (witness): with an empty local tier, [Get] serves [h1] from the remote
    tier and the local tier holds it afterwards. *)
Lemma Cache_Get_spec_witness :
  cache.Get cold_local "h1"
  = (Ok [x01; x02],
     cache.mkCache (cache.mkTier {["h1" := cache.Stored [x01; x02]]} false)
                   (cache.bs cold_local)).
Proof.
  apply (proj1 (proj2 (Cache_Get_spec cold_local "h1"))); reflexivity.
Defined.

(** C9 (counterexample): the claim makes [Get] fail exactly when the blob is
    absent or unreadable in both tiers.  Here the local entry is unreadable
    and the remote tier stores the blob: [Get] fails all the same, because an
    error of the local read other than [ErrBlobNotFound] is returned without
    asking the remote tier. *)
Lemma Cache_Get_fails_with_remote_copy :
  ¬ (is_Err (cache.Get damaged_local "h1").1 ↔
       cache.absent_or_unreadable (cache.backend damaged_local) "h1" ∧
       cache.absent_or_unreadable (cache.bs damaged_local) "h1").
Proof.
  intros [Hfail _].
  assert (Herr : is_Err (cache.Get damaged_local "h1").1) by exact I.
  destruct (Hfail Herr) as [_ Hremote].
  by apply (Hremote [x01; x02]).
Qed.

(** On map tiers, a blob served by the remote tier is stored locally when
    [Get] returns. *)
Lemma Get_populates_local (c : cache.Cache cache.MapTier cache.MapTier) hash blob c' :
  cache.tier_Get (cache.backend c) hash = Err ErrBlobNotFound →
  cache.Get c hash = (Ok blob, c') →
  cache.slots (cache.backend c') !! hash = Some (cache.Stored blob).
Proof.
  intros Hl. unfold cache.Get. rewrite Hl.
  destruct (cache.tier_Get (cache.bs c) hash) as [rb| | |]; try done.
  simpl. unfold cache.MapTier_Put.
  destruct (cache.sealed (cache.backend c)); [done|].
  intros [= <- <-]. simpl. apply lookup_insert_eq.
Qed.

(** ** Mount selection *)

Lemma FS_Mount_local_only f l :
  fs_local f = Some l → fs_remote f = None → FS_Mount f = Ok (Some l).
Proof. intros Hl Hr. unfold FS_Mount. by rewrite Hl, Hr. Qed.

Lemma FS_Mount_remote_only f :
  fs_local f = None → FS_Mount f = Ok (fs_remote f).
Proof. intros Hl. unfold FS_Mount. by rewrite Hl. Qed.

Lemma FS_Mount_both f l r lroot rroot :
  fs_local f = Some l → fs_remote f = Some r →
  m_root l = Some lroot → m_root r = Some rroot →
  FS_Mount f
  = Ok (Some (if bool_decide (Version lroot > Version rroot)%Z then l else r)).
Proof.
  intros Hl Hr Hlr Hrr. unfold FS_Mount. rewrite Hl, Hr, Hlr, Hrr.
  by case_bool_decide.
Qed.

(** C3 (as amended): whenever at least one of the two mounts exists,
    [FS.Mount] returns one whose root version is highest: the only one there
    is, the local one when its version is strictly above the remote version,
    and the remote one otherwise, so that the remote mount wins ties. *)
Theorem FS_Mount_spec (f : FS) :
  (∀ l, fs_local f = Some l → fs_remote f = None → FS_Mount f = Ok (Some l)) ∧
  (∀ r, fs_local f = None → fs_remote f = Some r → FS_Mount f = Ok (Some r)) ∧
  (∀ l r lroot rroot,
     fs_local f = Some l → fs_remote f = Some r →
     m_root l = Some lroot → m_root r = Some rroot →
     ((Version lroot > Version rroot)%Z → FS_Mount f = Ok (Some l)) ∧
     ((Version lroot ≤ Version rroot)%Z → FS_Mount f = Ok (Some r))).
Proof.
  split; [|split].
  - intros l. apply FS_Mount_local_only.
  - intros r Hl Hr. rewrite <- Hr. by apply FS_Mount_remote_only.
  - intros l r lroot rroot Hl Hr Hlr Hrr.
    rewrite (FS_Mount_both f l r lroot rroot Hl Hr Hlr Hrr).
    split; intros Hv; case_bool_decide; (done || lia).
Qed.

(** C3 (witness): with both mounts at version 5 the remote one is returned. *)
Lemma FS_Mount_spec_witness : FS_Mount tied_FS = Ok (Some remote_v5).
Proof.
  apply (proj2 (proj2 (proj2 (FS_Mount_spec tied_FS))
                  local_v5 remote_v5 (mkRoot "hl" 5 "") (mkRoot "hr" 5 "")
                  eq_refl eq_refl eq_refl eq_refl)).
  simpl. lia.
Defined.

(** C3 (counterexample): the claim lets the local mount win ties.  With both
    mounts at version 5, [FS.Mount] returns the remote mount, not the local
    one. *)
Lemma FS_Mount_tie_is_not_local :
  ¬ (∀ f l r lroot rroot,
       fs_local f = Some l → fs_remote f = Some r →
       m_root l = Some lroot → m_root r = Some rroot →
       Version lroot = Version rroot → FS_Mount f = Ok (Some l)).
Proof.
  intros Hclaim.
  specialize (Hclaim tied_FS local_v5 remote_v5 _ _
                eq_refl eq_refl eq_refl eq_refl eq_refl).
  discriminate Hclaim.
Qed.

(** ** Writing into the buffer of a file *)

Ltac run_M :=
  repeat (unfold bind, ret, fail, panic, lift, gets, modify, updateLastOP,
            get_file, get_dir, get_obj, set_obj, deref_opt, Immutable; simpl).

Lemma wrap64_small z : (- 2 ^ 63 ≤ z < 2 ^ 63)%Z → wrap64 z = z.
Proof.
  intros Hz. unfold wrap64. rewrite Z.mod_small by lia. lia.
Qed.

Lemma maxInt_bound w : (0 < maxInt w < 2 ^ 63)%Z.
Proof. destruct w; simpl; lia. Qed.

Lemma copy_append_contents (buf : option (list byte)) (off : nat) (data : list byte) :
  off ≤ length (default [] buf) →
  default [] (copy_append buf off data)
  = take off (default [] buf) ++ data
      ++ drop (off + length data) (default [] buf).
Proof.
  intros Hoff. unfold copy_append. cbv zeta.
  set (old := default [] buf) in *.
  case_bool_decide as Hn.
  - simpl. rewrite <- !app_assoc. f_equal.
    assert (Hmin : (length old - off) `min` length data = length old - off) by lia.
    rewrite Hmin.
    rewrite (drop_ge old (off + (length old - off))) by lia.
    rewrite (drop_ge old (off + length data)) by lia.
    rewrite app_nil_r, app_nil_l. apply take_drop.
  - assert (Hmin : (length old - off) `min` length data = length data) by lia.
    rewrite Hmin. rewrite firstn_all.
    destruct buf as [b|]; simpl; [done|].
    subst old. simpl in *. assert (length data = 0) as Hd by lia.
    apply nil_length_inv in Hd. subst. by destruct off.
Qed.

Lemma File_Write_run w now a off data f fl :
  Immutable f = false →
  fs_heap f !! a = Some (OFile fl) →
  File_Write w now a off data f =
    let touched := set_fs_heap (<[a := OFile (set_updated fl true)]> (fs_heap f))
                     (set_fs_lastOP now f) in
    if bool_decide (wrap64 (off + Z.of_nat (length data)) > maxInt w)%Z
    then (Err EFBIG, touched)
    else if bool_decide (off < 0 ∨ Z.of_nat (length (default [] (f_data fl))) < off)%Z
    then (Panic "slice bounds out of range", touched)
    else (Ok (Z.of_nat (length data)),
          set_fs_heap
            (<[a := OFile (set_data (set_updated fl true)
                             (copy_append (f_data fl) (Z.to_nat off) data))]>
               (fs_heap f)) (set_fs_lastOP now f)).
Proof.
  intros Him Hfl. destruct f; simpl in *. subst.
  unfold File_Write. run_M. unfold set_fs_lastOP, set_fs_heap; simpl.
  rewrite Hfl. simpl.
  case_bool_decide; [done|]. simpl.
  case_bool_decide; [done|]. simpl.
  by rewrite insert_insert_eq.
Qed.

(** C10: on a mutable filesystem, a write whose offset is at most the length
    of the buffer (and whose end does not exceed [maxInt]) succeeds, reports
    the length of the data as [resp.Size], and leaves the old contents with
    the data overlaid at the offset, extended past the old end as needed.  A
    write whose offset lies beyond the end of the buffer is not handled: the
    slice expression panics and no gap is filled.  A write whose end exceeds
    [maxInt] is rejected with [EFBIG]. *)
Theorem File_Write_spec (w : IntSize) (now : string) (a : addr) (off : Z)
    (data : list byte) (f : FS) (fl : File) :
  Immutable f = false →
  fs_heap f !! a = Some (OFile fl) →
  (0 ≤ off)%Z →
  let old := default [] (f_data fl) in
  let n := Z.of_nat (length data) in
  let touched := set_fs_heap (<[a := OFile (set_updated fl true)]> (fs_heap f))
                   (set_fs_lastOP now f) in
  ((off + n ≤ maxInt w)%Z → (off ≤ Z.of_nat (length old))%Z →
     ∃ fl',
       File_Write w now a off data f
       = (Ok n, set_fs_heap (<[a := OFile fl']> (fs_heap f)) (set_fs_lastOP now f)) ∧
       default [] (f_data fl')
       = take (Z.to_nat off) old ++ data
           ++ drop (Z.to_nat off + length data) old ∧
       f_meta fl' = f_meta fl ∧ updated (f_state fl') = true) ∧
  ((off + n ≤ maxInt w)%Z → (Z.of_nat (length old) < off)%Z →
     File_Write w now a off data f = (Panic "slice bounds out of range", touched)) ∧
  ((maxInt w < off + n < 2 ^ 63)%Z →
     File_Write w now a off data f = (Err EFBIG, touched)).
Proof.
  intros Him Hfl Hoff old n touched.
  rewrite (File_Write_run w now a off data f fl Him Hfl). cbv zeta.
  pose proof (maxInt_bound w) as Hmax.
  split; [|split].
  - intros Hend Hin.
    rewrite wrap64_small by (subst n; lia).
    rewrite bool_decide_eq_false_2 by (subst n; lia).
    rewrite bool_decide_eq_false_2 by (subst old; lia).
    eexists. split; [reflexivity|]. simpl. split; [|done].
    rewrite copy_append_contents by (subst old; lia). done.
  - intros Hend Hout.
    rewrite wrap64_small by (subst n; lia).
    rewrite bool_decide_eq_false_2 by (subst n; lia).
    rewrite bool_decide_eq_true_2 by (subst old; lia). done.
  - intros Hbig.
    rewrite wrap64_small by (subst n; lia).
    rewrite bool_decide_eq_true_2 by (subst n; lia). done.
Qed.

(** C10 (witness): three bytes written at offset 1 of a three-byte buffer
    overlay its last two bytes and extend it by one. *)
Lemma File_Write_spec_witness :
  ∃ fl',
    File_Write Int64 "t1" 0 1 [x0a; x0b; x0c] file_FS
    = (Ok 3%Z, set_fs_heap (<[0 := OFile fl']> (fs_heap file_FS))
                 (set_fs_lastOP "t1" file_FS)) ∧
    default [] (f_data fl') = [x01; x0a; x0b; x0c] ∧
    f_meta fl' = f_meta open_file ∧ updated (f_state fl') = true.
Proof.
  apply (proj1 (File_Write_spec Int64 "t1" 0 1 [x0a; x0b; x0c] file_FS open_file
                  eq_refl eq_refl ltac:(lia))).
  - simpl. lia.
  - simpl. lia.
Defined.

(** A write at offset 5 of the three-byte buffer panics. *)
Example File_Write_past_end :
  (File_Write Int64 "t1" 0 5 [x0a] file_FS).1 = Panic "slice bounds out of range".
Proof. reflexivity. Qed.

(** ** Immutable filesystems *)

Section EarlyReturns.
Context {ext : Externals}.

Lemma File_Write_immutable w now a off data f :
  Immutable f = true →
  File_Write w now a off data f = (Err EPERM, set_fs_lastOP now f).
Proof.
  intros Him. destruct f; simpl in *. subst. reflexivity.
Qed.

Lemma Dir_Create_immutable fuel rg now d name mode f :
  Immutable f = true →
  Dir_Create fuel rg now d name mode f = (Err EPERM, set_fs_lastOP now f).
Proof.
  intros Him. destruct f; simpl in *. subst. reflexivity.
Qed.

Lemma Dir_Mkdir_immutable fuel rg now d name f :
  Immutable f = true →
  Dir_Mkdir fuel rg now d name f = (Err EPERM, set_fs_lastOP now f).
Proof.
  intros Him. destruct f; simpl in *. subst. reflexivity.
Qed.

Lemma Dir_Remove_immutable fuel rg now d name f :
  Immutable f = true →
  Dir_Remove fuel rg now d name f = (Err EPERM, set_fs_lastOP now f).
Proof.
  intros Him. destruct f; simpl in *. subst. reflexivity.
Qed.

Lemma File_Setxattr_immutable fuel rg now a name xattr f :
  Immutable f = true →
  File_Setxattr fuel rg now a name xattr f = (Ok tt, set_fs_lastOP now f).
Proof.
  intros Him. destruct f; simpl in *. subst. reflexivity.
Qed.

(** C4 (as amended): on an immutable filesystem, write, create, mkdir and
    remove fail with [EPERM], and setxattr on a file returns success without
    doing anything; each of these calls leaves the nodes, the child maps, the
    mounts and the stores as they were (only the time of the last operation
    is recorded). *)
Theorem immutable_rejects (w : IntSize) (fuel : nat) (rg : MapRange)
    (now : string) (f : FS) :
  Immutable f = true →
  (∀ a off data,
     File_Write w now a off data f = (Err EPERM, set_fs_lastOP now f)) ∧
  (∀ d name mode,
     Dir_Create fuel rg now d name mode f = (Err EPERM, set_fs_lastOP now f)) ∧
  (∀ d name,
     Dir_Mkdir fuel rg now d name f = (Err EPERM, set_fs_lastOP now f)) ∧
  (∀ d name,
     Dir_Remove fuel rg now d name f = (Err EPERM, set_fs_lastOP now f)) ∧
  (∀ a name xattr,
     File_Setxattr fuel rg now a name xattr f = (Ok tt, set_fs_lastOP now f)) ∧
  fs_heap (set_fs_lastOP now f) = fs_heap f ∧
  fs_maps (set_fs_lastOP now f) = fs_maps f ∧
  fs_root (set_fs_lastOP now f) = fs_root f ∧
  fs_local (set_fs_lastOP now f) = fs_local f ∧
  fs_remote (set_fs_lastOP now f) = fs_remote f ∧
  fs_lkv (set_fs_lastOP now f) = fs_lkv f ∧
  fs_rkv (set_fs_lastOP now f) = fs_rkv f ∧
  fs_bs (set_fs_lastOP now f) = fs_bs f.
Proof.
  intros Him. repeat split.
  - intros. by apply File_Write_immutable.
  - intros. by apply Dir_Create_immutable.
  - intros. by apply Dir_Mkdir_immutable.
  - intros. by apply Dir_Remove_immutable.
  - intros. by apply File_Setxattr_immutable.
Qed.

(** ** Push *)

(** C5 (as amended): in every state where a local mount exists and the root
    hash of the active mount differs from the root hash of the local mount,
    [Push] returns success and changes nothing: no blob is uploaded and no
    version is committed. *)
Theorem FS_Push_noop (fuel : nat) (rg : MapRange) (comment : option string)
    (f : FS) (m l : Mount) (mroot lroot : Root) :
  FS_Mount f = Ok (Some m) → m_root m = Some mroot →
  fs_local f = Some l → m_root l = Some lroot →
  Ref mroot ≠ Ref lroot →
  FS_Push fuel rg comment f = (Ok tt, f).
Proof.
  intros Hm Hmr Hl Hlr Hne. unfold FS_Push. run_M.
  rewrite Hm. simpl. rewrite Hmr. simpl. rewrite Hl. simpl. rewrite Hlr. simpl.
  by rewrite bool_decide_eq_true_2.
Qed.

End EarlyReturns.

(** C4 (witness): mkdir on the immutable filesystem. *)
Lemma immutable_rejects_witness :
  Dir_Mkdir (ext := reference ∅) 5 range_sorted "t1" 1 "new" frozen_FS
  = (Err EPERM, set_fs_lastOP "t1" frozen_FS).
Proof.
  apply (proj1 (proj2 (proj2
           (immutable_rejects (ext := reference ∅)
              Int64 5 range_sorted "t1" frozen_FS eq_refl)))).
Defined.

(** C4 (counterexample): the claim makes setxattr fail with [EPERM] on an
    immutable mount.  [File.Setxattr] returns nil there. *)
Lemma File_Setxattr_immutable_succeeds :
  (File_Setxattr (ext := reference ∅) 5 range_sorted "t1" 0
     "user.note" "x" frozen_FS).1 ≠ Err EPERM.
Proof. discriminate. Qed.

(** [Dir.Setxattr] has no immutability guard at all: on the immutable
    filesystem it saves the directory, which stores a blob, commits a local
    version and installs a local mount. *)
Example Dir_Setxattr_ignores_immutable :
  let r := Dir_Setxattr (ext := reference ∅) 5 range_sorted "t1" 1
             "user.note" "x" frozen_FS in
  r.1 = Ok tt ∧
  length (history (fs_lkv r.2) (localRootKeyFmt "demo")) = 1 ∧
  is_Some (fs_local r.2) ∧
  fs_heap r.2 ≠ fs_heap frozen_FS.
Proof.
  vm_compute. repeat split; [by eexists|]. intros Heq. discriminate Heq.
Qed.

(** C5 (witness): the remote mount is active and its root hash differs from
    the local one. *)
Lemma FS_Push_noop_witness :
  FS_Push (ext := reference ∅) 5 range_sorted None other_ref_FS
  = (Ok tt, other_ref_FS).
Proof.
  apply (FS_Push_noop (ext := reference ∅) 5 range_sorted None other_ref_FS
           (mkMount false (Some 0) (Some (mkRoot empty_root_hash 5 "")))
           (mkMount false (Some 0) (Some (mkRoot "hl" 3 "")))
           (mkRoot empty_root_hash 5 "") (mkRoot "hl" 3 ""));
    try reflexivity.
  vm_compute. discriminate.
Defined.

(** C5 (counterexample): the claim makes [Push] a successful no-op whenever
    the active mount is not the local one.  Here the remote mount is active
    (version 5 against 3) and has the root hash of the local mount: the guard
    compares the hashes, so [Push] goes on, uploads the blob of the root to
    the remote store and does not return success. *)
Lemma FS_Push_remote_active_same_ref :
  let r := FS_Push (ext := reference ∅) 5 range_sorted None same_ref_FS in
  FS_Mount same_ref_FS = Ok (fs_remote same_ref_FS) ∧
  fs_remote same_ref_FS ≠ fs_local same_ref_FS ∧
  r ≠ (Ok tt, same_ref_FS) ∧
  cache.slots (cache.bs (fs_bs same_ref_FS)) !! empty_root_hash = None ∧
  cache.slots (cache.bs (fs_bs r.2)) !! empty_root_hash
  = Some (cache.Stored empty_root_blob).
Proof.
  vm_compute. repeat split; discriminate.
Qed.

(** ** loadRoot *)

Section LoadRoot.
Context {ext : Externals}.



Lemma same_tracks_refl f : same_tracks f f.
Proof. by repeat split. Qed.


Lemma bs_Get_tracks h f : same_tracks f (bs_Get h f).2.
Proof.
  unfold bs_Get. destruct (cache.Get (fs_bs f) h) as [r c]. simpl.
  by destruct f.
Qed.

Lemma NewDir_tracks m p f : same_tracks f (NewDir m p f).2.
Proof. unfold NewDir, alloc. simpl. by destruct f. Qed.

Lemma kvDataToDir_tracks data v f : same_tracks f (FS_kvDataToDir data v f).2.
Proof.
  unfold FS_kvDataToDir, bind, lift, ret.
  destruct (Root_NewFromJSON data v) as [lroot| | |]; simpl; try apply same_tracks_refl.
  pose proof (bs_Get_tracks (Ref lroot) f) as H1.
  destruct (bs_Get (Ref lroot) f) as [[blob| | |] f1]; simpl in *; try done.
  destruct (NewMetaFromBlob (Ref lroot) blob) as [m| | |]; simpl; done.
Qed.

Lemma kv_to_dir_unchecked_tracks kv f : same_tracks f (kv_to_dir_unchecked kv f).2.
Proof.
  destruct kv as [kv|]; simpl; [|apply same_tracks_refl].
  unfold bind, ignoring_err, ret.
  pose proof (kvDataToDir_tracks (kv_Data kv) (kv_Version kv) f) as H.
  by destruct (FS_kvDataToDir (kv_Data kv) (kv_Version kv) f) as [[a| | |] f1].
Qed.

Lemma bind_Ok {A B} (m : M A) (k : A → M B) f b f' :
  bind m k f = (Ok b, f') → ∃ a f1, m f = (Ok a, f1) ∧ k a f1 = (Ok b, f').
Proof.
  unfold bind. destruct (m f) as [[a| | |] f1]; try done. eauto.
Qed.






End LoadRoot.

(** C8 (the code at the failing input): with the local mirror and the live
    remote at the same version, [loadRoot] returns nil with the remote mount
    set and [f.root] still nil; the other successful branches end with
    [f.root = f.Mount().node]. *)
Lemma loadRoot_in_sync_leaves_root_nil :
  let r := FS_loadRoot (ext := reference ∅) 5 range_sorted "t9" synced_FS in
  r.1 = Ok tt ∧
  fs_local r.2 = None ∧
  fs_remote r.2
  = Some (mkMount false (Some 0) (Some (mkRoot empty_root_hash 5 ""))) ∧
  fs_root r.2 = None.
Proof. vm_compute. done. Qed.

(** ** The diff of two indexes *)

Lemma fold_diff_remote localIndex l acc :
  fold_left (diff_remote localIndex) l acc
  = (acc.1 ++ omap (added_of localIndex) l,
     acc.2 ++ omap (conflicted_of localIndex) l).
Proof.
  revert acc. induction l as [|e l IH]; intros [a c]; simpl.
  - by rewrite !app_nil_r.
  - rewrite IH. unfold diff_remote, added_of, conflicted_of. simpl.
    destruct (localIndex !! e.1) as [lref|]; simpl.
    + case_bool_decide; simpl; [|done]. by rewrite <- app_assoc.
    + by rewrite <- app_assoc.
Qed.

Lemma fold_diff_local remoteIndex l acc :
  fold_left (diff_local remoteIndex) l acc
  = acc ++ omap (deleted_of remoteIndex) l.
Proof.
  revert acc. induction l as [|e l IH]; intros acc; simpl.
  - by rewrite app_nil_r.
  - rewrite IH. unfold diff_local, deleted_of.
    destruct (remoteIndex !! e.1); simpl; [done|]. by rewrite <- app_assoc.
Qed.

Lemma NoDup_omap_paths (g : string * string → option DiffNode) l :
  (∀ e x, g e = Some x → Path x = e.1) →
  NoDup l.*1 → NoDup (omap g l).
Proof.
  intros Hg. induction l as [|e l IH]; simpl; [constructor|].
  intros [Hnotin Hnd]%NoDup_cons. specialize (IH Hnd).
  destruct (g e) as [x|] eqn:He; [|done].
  apply NoDup_cons. split; [|done].
  intros (e' & Hin & He')%list_elem_of_omap.
  apply Hnotin. apply list_elem_of_fmap. exists e'. split; [|done].
  by rewrite <- (Hg e x He), <- (Hg e' x He').
Qed.

Lemma range_elem_of (rg : MapRange) (m : gmap string string) p h :
  range_ok rg → (p, h) ∈ rg string m ↔ m !! p = Some h.
Proof. intros Hrg. rewrite (Hrg string m). apply elem_of_map_to_list. Qed.

Lemma range_NoDup_fst (rg : MapRange) (m : gmap string string) :
  range_ok rg → NoDup (rg string m).*1.
Proof. intros Hrg. rewrite (Hrg string m). apply NoDup_fst_map_to_list. Qed.

Lemma sorted_by_segments l :
  StronglySorted (λ a b, ByLength_Less b a = false) l →
  StronglySorted (λ a b, segments (Path b) ≤ segments (Path a)) l.
Proof.
  induction 1 as [|a l Hs IH Hall]; constructor; [done|].
  eapply Forall_impl; [exact Hall|]. intros b Hb. unfold ByLength_Less in Hb.
  apply bool_decide_eq_false in Hb. lia.
Qed.

Lemma elem_of_added (rg : MapRange) (li ri : gmap string string) p h :
  range_ok rg →
  mkDiffNode p h ∈ omap (added_of li) (rg string ri) ↔
  ri !! p = Some h ∧ li !! p = None.
Proof.
  intros Hrg. rewrite list_elem_of_omap. split.
  - intros ([q g] & Hin & He). apply (range_elem_of rg) in Hin; [|done].
    unfold added_of in He. simpl in He.
    destruct (li !! q) eqn:Hl; [done|]. by injection He as -> ->.
  - intros [Hr Hl]. exists (p, h). split; [by apply (range_elem_of rg)|].
    unfold added_of. simpl. by rewrite Hl.
Qed.

Lemma elem_of_conflicted (rg : MapRange) (li ri : gmap string string) p h :
  range_ok rg →
  mkDiffNode p h ∈ omap (conflicted_of li) (rg string ri) ↔
  ri !! p = Some h ∧ ∃ lh, li !! p = Some lh ∧ lh ≠ h.
Proof.
  intros Hrg. rewrite list_elem_of_omap. split.
  - intros ([q g] & Hin & He). apply (range_elem_of rg) in Hin; [|done].
    unfold conflicted_of in He. simpl in He.
    destruct (li !! q) as [lh|] eqn:Hl; [|done].
    case_bool_decide; [|done]. injection He as -> ->.
    split; [done|]. exists lh. split; [done|congruence].
  - intros [Hr (lh & Hl & Hne)]. exists (p, h).
    split; [by apply (range_elem_of rg)|].
    unfold conflicted_of. simpl. rewrite Hl.
    rewrite bool_decide_eq_true_2; [done|congruence].
Qed.

Lemma elem_of_deleted (rg : MapRange) (li ri : gmap string string) p h :
  range_ok rg →
  mkDiffNode p h ∈ omap (deleted_of ri) (rg string li) ↔
  li !! p = Some h ∧ ri !! p = None.
Proof.
  intros Hrg. rewrite list_elem_of_omap. split.
  - intros ([q g] & Hin & He). apply (range_elem_of rg) in Hin; [|done].
    unfold deleted_of in He. simpl in He.
    destruct (ri !! q) eqn:Hr; [done|]. by injection He as -> ->.
  - intros [Hl Hr]. exists (p, h). split; [by apply (range_elem_of rg)|].
    unfold deleted_of. simpl. by rewrite Hr.
Qed.

(** C6: for every pair of indexes, [Added] holds exactly the paths present
    remotely and absent locally, [Conflicted] exactly the paths present in
    both with differing hashes, [DeletedCandidates] exactly the paths present
    locally and absent remotely; the root entry is in none of them, no path
    is listed twice, and [DeletedCandidates] is ordered by descending number
    of path segments.  This holds for any iteration order of the two maps and
    any sorting algorithm. *)
Theorem compareIndex_spec (rg : MapRange) (srt : Sorter)
    (localIndex remoteIndex : gmap string string) :
  range_ok rg → sort_ok srt →
  let diff := FS_compareIndex rg srt localIndex remoteIndex in
  (∀ p h, mkDiffNode p h ∈ Added diff ↔
     p ≠ "/" ∧ remoteIndex !! p = Some h ∧ localIndex !! p = None) ∧
  (∀ p h, mkDiffNode p h ∈ Conflicted diff ↔
     p ≠ "/" ∧ remoteIndex !! p = Some h ∧
     ∃ lh, localIndex !! p = Some lh ∧ lh ≠ h) ∧
  (∀ p h, mkDiffNode p h ∈ DeletedCandidates diff ↔
     p ≠ "/" ∧ localIndex !! p = Some h ∧ remoteIndex !! p = None) ∧
  NoDup (Added diff) ∧ NoDup (Conflicted diff) ∧
  NoDup (DeletedCandidates diff) ∧
  StronglySorted (λ a b, segments (Path b) ≤ segments (Path a))
    (DeletedCandidates diff).
Proof.
  intros Hrg [Hperm Hsorted] diff. subst diff. unfold FS_compareIndex. cbv zeta.
  rewrite fold_diff_remote, fold_diff_local. simpl.
  split; [|split; [|split; [|split; [|split; [|split]]]]].
  - intros p h. rewrite (elem_of_added rg) by done.
    rewrite !lookup_delete_Some, lookup_delete_None. split.
    + intros [[Hne Hr] [Heq|Hl]]; [by subst|done].
    + intros (Hne & Hr & Hl). auto.
  - intros p h. rewrite (elem_of_conflicted rg) by done.
    rewrite lookup_delete_Some. split.
    + intros [[Hne Hr] (lh & [_ Hl]%lookup_delete_Some & Hd)]. eauto.
    + intros (Hne & Hr & lh & Hl & Hd). split; [done|].
      exists lh. by rewrite lookup_delete_Some.
  - intros p h. rewrite (Hperm _), (elem_of_deleted rg) by done.
    rewrite !lookup_delete_Some, lookup_delete_None. split.
    + intros [[Hne Hr] [Heq|Hl]]; [by subst|done].
    + intros (Hne & Hr & Hl). auto.
  - apply NoDup_omap_paths; [|by apply range_NoDup_fst].
    intros [q g] x. unfold added_of. simpl.
    destruct (delete "/" localIndex !! q); [done|]. by intros [= <-].
  - apply NoDup_omap_paths; [|by apply range_NoDup_fst].
    intros [q g] x. unfold conflicted_of. simpl.
    destruct (delete "/" localIndex !! q); [|done].
    case_bool_decide; [|done]. by intros [= <-].
  - rewrite (Hperm _). apply NoDup_omap_paths; [|by apply range_NoDup_fst].
    intros [q g] x. unfold deleted_of. simpl.
    destruct (delete "/" remoteIndex !! q); [done|]. by intros [= <-].
  - apply sorted_by_segments, Hsorted.
Qed.

Lemma range_sorted_ok : range_ok range_sorted.
Proof. intros V m. reflexivity. Qed.

Lemma range_reversed_ok : range_ok range_reversed.
Proof. intros V m. unfold range_reversed. by rewrite reverse_Permutation. Qed.

Global Instance ByLength_le_trans : Transitive ByLength_le.
Proof. unfold ByLength_le. intros a b c. lia. Qed.

Global Instance ByLength_le_total : Total ByLength_le.
Proof. unfold ByLength_le. intros a b. lia. Qed.

Lemma merge_sorter_ok : sort_ok merge_sorter.
Proof.
  split.
  - intros l. apply merge_sort_Permutation.
  - intros l. unfold merge_sorter.
    pose proof (StronglySorted_merge_sort ByLength_le l) as Hs.
    induction Hs as [|a k Hs IH Hall]; constructor; [done|].
    eapply Forall_impl; [exact Hall|]. intros b Hb.
    unfold ByLength_Less. apply bool_decide_eq_false. unfold ByLength_le in Hb. lia.
Qed.

(** C6 (witness): the diff of two small indexes, with the maps iterated in
    key order and merge sort as the sorting algorithm. *)
Lemma compareIndex_spec_witness :
  let diff := FS_compareIndex range_sorted merge_sorter local_index remote_index in
  (∀ p h, mkDiffNode p h ∈ Added diff ↔
     p ≠ "/" ∧ remote_index !! p = Some h ∧ local_index !! p = None) ∧
  (∀ p h, mkDiffNode p h ∈ Conflicted diff ↔
     p ≠ "/" ∧ remote_index !! p = Some h ∧
     ∃ lh, local_index !! p = Some lh ∧ lh ≠ h) ∧
  (∀ p h, mkDiffNode p h ∈ DeletedCandidates diff ↔
     p ≠ "/" ∧ local_index !! p = Some h ∧ remote_index !! p = None) ∧
  NoDup (Added diff) ∧ NoDup (Conflicted diff) ∧
  NoDup (DeletedCandidates diff) ∧
  StronglySorted (λ a b, segments (Path b) ≤ segments (Path a))
    (DeletedCandidates diff).
Proof.
  exact (compareIndex_spec range_sorted merge_sorter local_index remote_index
           range_sorted_ok merge_sorter_ok).
Defined.

Example compareIndex_small :
  FS_compareIndex range_sorted merge_sorter local_index remote_index
  = mkDiff [mkDiffNode "/d" "w"] [mkDiffNode "/a" "x2"]
           [mkDiffNode "/e/f/g" "v"; mkDiffNode "/a/b" "y"; mkDiffNode "/c" "z"].
Proof. vm_compute. reflexivity. Qed.

(** ** A diverged Pull *)

(** The usual case: the local and the remote [b] differ, [Pull] merges, the
    local file stays at [b] and the remote one appears at [b.conflicted]. *)
Example Pull_conflict_duplicates :
  let r := FS_Pull (ext := their_server) 5 range_sorted merge_sorter "t8" diverged in
  r.1 = Ok tt ∧
  child_at r.2 1 "b" = child_at diverged 1 "b" ∧
  (Hash ∘ obj_Meta <$> child_at r.2 1 "b.conflicted") = Some their_b_hash ∧
  (Name ∘ obj_Meta <$> child_at r.2 1 "b.conflicted") = Some "b.conflicted".
Proof. vm_compute. done. Qed.

(** C7 (the code at the failing input): the local tree has a file [b] and a
    directory [b.conflicted], the remote tree a different [b].  [/b] is the
    one conflicted path; [createNode] finds the name [b.conflicted] in the
    root, steps into it and returns nil.  [Pull] returns nil, the tree is as
    it was and the remote [b] is nowhere in it. *)
Lemma Pull_conflict_name_taken :
  let r := FS_Pull (ext := their_server) 5 range_sorted merge_sorter "t8"
             diverged_name_taken in
  r.1 = Ok tt ∧
  fs_root r.2 = Some 1 ∧
  child_at r.2 1 "b" = child_at diverged_name_taken 1 "b" ∧
  child_at r.2 1 "b.conflicted" = child_at diverged_name_taken 1 "b.conflicted" ∧
  (obj_IsDir <$> child_at r.2 1 "b.conflicted") = Some true ∧
  their_b_hash ∉ tree_hashes 5 r.2 1.
Proof.
  vm_compute. repeat split; try done.
  intros Hin. repeat (apply elem_of_cons in Hin as [Hin|Hin]; [discriminate Hin|]).
  by apply elem_of_nil in Hin.
Qed.

(** The diff [Pull] computes in that state. *)
Example Pull_conflict_name_taken_diff :
  let index := FS_localIndex (ext := their_server) 5 range_sorted diverged_name_taken in
  index.1 = Ok {[ "/" := "h569555820"; "/b" := "h393479725";
                  "/b.conflicted" := "h717982778" ]} ∧
  FS_compareIndex range_sorted merge_sorter
    {[ "/" := "h569555820"; "/b" := "h393479725"; "/b.conflicted" := "h717982778" ]}
    {[ "/" := their_root_hash; "/b" := their_b_hash ]}
  = mkDiff [] [mkDiffNode "/b" their_b_hash]
           [mkDiffNode "/b.conflicted" "h717982778"].
Proof. vm_compute. done. Qed.

(** ** Saving a directory: the order of the children *)

Section Determinism.
Context {ext : Externals}.

Lemma same_up_to_refs_order_refl m : same_up_to_refs_order m m.
Proof. by repeat split. Qed.

Lemma obj_sim_refl o : obj_sim o o.
Proof. destruct o; simpl; [|done]. split; [apply same_up_to_refs_order_refl|done]. Qed.

Lemma sim_refl f : sim f f.
Proof.
  split; [|done]. intros a. destruct (fs_heap f !! a); constructor. apply obj_sim_refl.
Qed.

Lemma simM_ret {A} (RA : A → A → Prop) a b : RA a b → simM RA (ret a) (ret b).
Proof. intros Hab f1 f2 Hs. by split. Qed.

Lemma simM_bind {A B} (RA : A → A → Prop) (RB : B → B → Prop) m1 m2 k1 k2 :
  simM RA m1 m2 → (∀ a b, RA a b → simM RB (k1 a) (k2 b)) →
  simM RB (bind m1 k1) (bind m2 k2).
Proof.
  intros Hm Hk f1 f2 Hs. unfold bind. specialize (Hm f1 f2 Hs).
  destruct (m1 f1) as [r1 g1], (m2 f2) as [r2 g2]. destruct Hm as [Hg Hr]. simpl in *.
  destruct r1, r2; try done; try (by split).
  by apply Hk.
Qed.

Lemma set_fs_heap_eq f1 f2 :
  set_fs_heap ∅ f1 = set_fs_heap ∅ f2 → f2 = set_fs_heap (fs_heap f2) f1.
Proof. destruct f1, f2. simpl. unfold set_fs_heap. simpl. by intros [= -> -> -> -> -> -> -> -> -> -> -> -> -> ->]. Qed.

Lemma simM_blind {A} (m : M A) : heap_blind m → simM eq m m.
Proof.
  intros Hm f1 f2 [Hh Heq]. apply set_fs_heap_eq in Heq. rewrite Heq.
  destruct (Hm f1 (fs_heap f2)) as [-> _]. destruct (Hm f1 (fs_heap f1)) as [_ Hk].
  split; simpl.
  - split; simpl.
    + rewrite Hk. destruct f2; simpl. destruct ((m f1).2); simpl in *. done.
    + destruct (m f1).2; done.
  - destruct (m f1).1; done.
Qed.

Ltac blind := intros f h; destruct f; simpl; split; reflexivity.

Lemma blind_bs_Stat hash : heap_blind (bs_Stat hash).
Proof. blind. Qed.

Lemma blind_bs_Put hash blob : heap_blind (bs_Put hash blob).
Proof.
  intros f h; destruct f; unfold bs_Put; simpl.
  destruct (cache.Put _ _ _); simpl. done.
Qed.

Lemma blind_lift {A} (r : result A) : heap_blind (lift r).
Proof. blind. Qed.

Lemma blind_gets_name : heap_blind (gets fs_name).
Proof. blind. Qed.

Lemma blind_gets_root : heap_blind (gets fs_root).
Proof. blind. Qed.

Lemma blind_lkv_Put key ref data version : heap_blind (lkv_Put key ref data version).
Proof.
  intros f h; destruct f; unfold lkv_Put; simpl.
  destruct (vkv_Put _ _ _ _ _); simpl. done.
Qed.

Lemma blind_set_local v : heap_blind (modify (set_fs_local v)).
Proof. blind. Qed.

Lemma simM_get_dir d : simM dir_sim (get_dir d) (get_dir d).
Proof.
  intros f1 f2 Hs. pose proof Hs as [Hh _]. specialize (Hh d). unfold get_dir.
  destruct Hh as [o1 o2 Ho|]; [|by split].
  destruct o1, o2; try done; by split.
Qed.

Lemma simM_get_obj c : simM obj_sim (get_obj c) (get_obj c).
Proof.
  intros f1 f2 Hs. pose proof Hs as [Hh _]. specialize (Hh c). unfold get_obj.
  destruct Hh as [o1 o2 Ho|]; by split.
Qed.

Lemma simM_set_obj d o1 o2 : obj_sim o1 o2 → simM eq (set_obj d o1) (set_obj d o2).
Proof.
  intros Ho f1 f2 [Hh Heq]. unfold set_obj, modify. split; [|done]. simpl. split.
  - intros a. destruct f1, f2; simpl in *.
    destruct (decide (a = d)) as [->|Hne].
    + rewrite !lookup_insert_eq. by constructor.
    + rewrite !lookup_insert_ne by done. apply Hh.
  - destruct f1, f2; simpl in *. done.
Qed.

Lemma sim_children f1 f2 d1 d2 :
  sim f1 f2 → dir_sim d1 d2 → children_of f1 d1 = children_of f2 d2.
Proof.
  intros [_ Heq] (_ & _ & Hc). unfold children_of. rewrite Hc.
  destruct f1, f2; simpl in *. by injection Heq as -> -> -> -> -> -> -> -> -> -> -> -> -> ->.
Qed.

Lemma simM_range_children (rg1 rg2 : MapRange) d1 d2 :
  range_ok rg1 → range_ok rg2 → dir_sim d1 d2 →
  simM Permutation (gets (λ f, rg1 addr (children_of f d1)))
                   (gets (λ f, rg2 addr (children_of f d2))).
Proof.
  intros H1 H2 Hd f1 f2 Hs. split; [done|]. simpl.
  rewrite (sim_children f1 f2 d1 d2 Hs Hd). by rewrite (H1 _ _), (H2 _ _).
Qed.

Lemma AddRef_sim m1 m2 h :
  same_up_to_refs_order m1 m2 → same_up_to_refs_order (AddRef m1 h) (AddRef m2 h).
Proof.
  intros (?&?&?&?&?&?&?&Hr). repeat split; simpl; try done. by rewrite Hr.
Qed.

Lemma AddRef_swap m h1 h2 :
  same_up_to_refs_order (AddRef (AddRef m h1) h2) (AddRef (AddRef m h2) h1).
Proof.
  repeat split; simpl. rewrite <- !app_assoc. apply Permutation_app_head. simpl. apply perm_swap.
Qed.

Lemma obj_sim_Hash o1 o2 : obj_sim o1 o2 → Hash (obj_Meta o1) = Hash (obj_Meta o2).
Proof.
  destruct o1, o2; simpl; try done.
  - by intros ((?&?&?&?&?&?&?&?) & _).
  - by intros ->.
Qed.

Lemma same_up_to_refs_order_trans m1 m2 m3 :
  same_up_to_refs_order m1 m2 → same_up_to_refs_order m2 m3 →
  same_up_to_refs_order m1 m3.
Proof.
  intros (?&?&?&?&?&?&?&?) (?&?&?&?&?&?&?&?). repeat split; by etrans.
Qed.

Lemma add_child_refs_run m cs f :
  add_child_refs m cs f
  = match child_hashes f cs with
    | Some hs => (Ok (foldl AddRef m hs), f)
    | None => (Panic nil_deref, f)
    end.
Proof.
  revert m. induction cs as [|[n c] cs IH]; intros m; simpl; [done|].
  unfold bind, get_obj, child_hashes. simpl.
  destruct (fs_heap f !! c) as [o|]; simpl; [|done].
  rewrite IH. unfold child_hashes. by destruct (mapM _ cs).
Qed.

Lemma child_hashes_sim f1 f2 cs :
  sim f1 f2 → child_hashes f1 cs = child_hashes f2 cs.
Proof.
  intros [Hh _]. unfold child_hashes. induction cs as [|[n c] cs IH]; simpl; [done|].
  rewrite IH. specialize (Hh c).
  destruct Hh as [o1 o2 Ho|]; simpl; [|done]. by rewrite (obj_sim_Hash o1 o2 Ho).
Qed.

Lemma child_hashes_perm f cs1 cs2 :
  cs1 ≡ₚ cs2 →
  match child_hashes f cs1, child_hashes f cs2 with
  | Some hs1, Some hs2 => hs1 ≡ₚ hs2
  | None, None => True
  | _, _ => False
  end.
Proof.
  unfold child_hashes. induction 1 as [|[n c] l l' Hp IH|[n c] [n' c'] l|l l' l'' H1 IH1 H2 IH2]; simpl.
  - done.
  - destruct (fs_heap f !! c); simpl; [|done].
    destruct (mapM _ l), (mapM _ l'); simpl; try done. by constructor.
  - destruct (fs_heap f !! c), (fs_heap f !! c'); simpl; try done.
    destruct (mapM _ l); simpl; [|done]. apply perm_swap.
  - destruct (mapM _ l), (mapM _ l'), (mapM _ l''); try done. by etrans.
Qed.

Lemma foldl_AddRef_sim m1 m2 hs1 hs2 :
  same_up_to_refs_order m1 m2 → hs1 ≡ₚ hs2 →
  same_up_to_refs_order (foldl AddRef m1 hs1) (foldl AddRef m2 hs2).
Proof.
  intros Hm Hp. revert m1 m2 Hm.
  induction Hp as [|h l l' Hp IH|h h' l|l l' l'' H1 IH1 H2 IH2]; intros m1 m2 Hm; simpl.
  - done.
  - apply IH. by apply AddRef_sim.
  - assert (Hl : ∀ a b, same_up_to_refs_order a b →
                 same_up_to_refs_order (foldl AddRef a l) (foldl AddRef b l)).
    { induction l as [|x l IHl]; intros a b Hab; simpl; [done|]. apply IHl. by apply AddRef_sim. }
    apply Hl. eapply same_up_to_refs_order_trans; [apply AddRef_swap|].
    by do 2 apply AddRef_sim.
  - eapply same_up_to_refs_order_trans; [apply IH1, Hm|].
    apply IH2. apply same_up_to_refs_order_refl.
Qed.

Lemma simM_add_child_refs m1 m2 cs1 cs2 :
  same_up_to_refs_order m1 m2 → cs1 ≡ₚ cs2 →
  simM same_up_to_refs_order (add_child_refs m1 cs1) (add_child_refs m2 cs2).
Proof.
  intros Hm Hp f1 f2 Hs. rewrite !add_child_refs_run.
  rewrite <- (child_hashes_sim f1 f2 cs2 Hs).
  pose proof (child_hashes_perm f1 cs1 cs2 Hp) as Hh.
  destruct (child_hashes f1 cs1), (child_hashes f1 cs2); try done.
  split; [done|]. simpl. by apply foldl_AddRef_sim.
Qed.

Lemma simM_Dir_Save fuel (rg1 rg2 : MapRange) now d :
  order_insensitive ext → range_ok rg1 → range_ok rg2 →
  simM eq (Dir_Save fuel rg1 now d) (Dir_Save fuel rg2 now d).
Proof.
  intros Hins H1 H2. revert d. induction fuel as [|fuel IH]; intros d.
  { intros f1 f2 Hs. by split. }
  simpl. eapply simM_bind; [apply simM_get_dir|]. intros dir1 dir2 Hd.
  pose proof Hd as ((Hname & _ & _ & _ & Hmt & _) & Hpar & Hch).
  rewrite Hname, Hmt.
  eapply simM_bind; [apply simM_range_children; assumption|]. intros cs1 cs2 Hcs.
  eapply simM_bind;
    [apply simM_add_child_refs; [apply same_up_to_refs_order_refl|done]|].
  intros m1 m2 Hm. rewrite (Hins m1 m2 Hm).
  eapply simM_bind.
  { apply simM_set_obj. simpl. split; [|done].
    destruct Hm as (?&?&?&?&?&?&?&?). by repeat split. }
  intros _ _ _.
  eapply simM_bind; [apply simM_blind, blind_bs_Stat|]. intros mexists ? <-.
  eapply (simM_bind eq).
  { destruct mexists; [by apply simM_ret|apply simM_blind, blind_bs_Put]. }
  intros _ _ _. rewrite Hpar. destruct (d_parent dir2) as [p|]; [apply IH|].
  eapply simM_bind; [apply simM_blind, blind_lift|]. intros js ? <-.
  eapply simM_bind; [apply simM_blind, blind_gets_name|]. intros name ? <-.
  eapply simM_bind; [apply simM_blind, blind_lkv_Put|]. intros kv ? <-.
  eapply simM_bind; [apply simM_blind, blind_set_local|]. intros _ _ _.
  eapply simM_bind; [apply simM_blind, blind_gets_root|]. intros r ? <-.
  destruct r as [ra|]; [|by apply simM_ret].
  eapply simM_bind; [apply simM_get_dir|]. intros dv1 dv2 Hdv.
  by apply simM_set_obj.
Qed.

Lemma sim_fields f1 f2 :
  sim f1 f2 →
  fs_local f1 = fs_local f2 ∧ fs_bs f1 = fs_bs f2 ∧ fs_lkv f1 = fs_lkv f2 ∧
  fs_root f1 = fs_root f2 ∧ fs_maps f1 = fs_maps f2 ∧
  ∀ a, Hash ∘ obj_Meta <$> fs_heap f1 !! a = Hash ∘ obj_Meta <$> fs_heap f2 !! a.
Proof.
  intros [Hh Heq]. destruct f1, f2; simpl in *.
  injection Heq as -> -> -> -> -> -> -> -> -> -> -> -> -> ->.
  repeat split. intros a. specialize (Hh a).
  destruct Hh as [o1 o2 Ho|]; simpl; [|done]. by rewrite (obj_sim_Hash o1 o2 Ho).
Qed.

(** C1 (as amended): [Dir.Save] hands the child hashes to the encoder in the
    order in which the child map is iterated and imposes no order of its
    own.  With an encoder that is insensitive to the order of the refs, two
    runs of [Save] that iterate the child maps in any two orders have the
    same outcome, record the same root hash, give every directory the same
    hash and leave the same stores. *)
Theorem Dir_Save_order_independent (fuel : nat) (rg1 rg2 : MapRange)
    (now : string) (d : addr) (f : FS) :
  order_insensitive ext → range_ok rg1 → range_ok rg2 →
  let r1 := Dir_Save fuel rg1 now d f in
  let r2 := Dir_Save fuel rg2 now d f in
  r1.1 = r2.1 ∧
  saved_root_hash r1.2 = saved_root_hash r2.2 ∧
  (∀ a, Hash ∘ obj_Meta <$> fs_heap r1.2 !! a
        = Hash ∘ obj_Meta <$> fs_heap r2.2 !! a) ∧
  fs_bs r1.2 = fs_bs r2.2 ∧ fs_lkv r1.2 = fs_lkv r2.2.
Proof.
  intros Hins H1 H2 r1 r2.
  destruct (simM_Dir_Save fuel rg1 rg2 now d Hins H1 H2 f f (sim_refl f)) as [Hs Hr].
  fold r1 r2 in Hs, Hr.
  destruct (sim_fields _ _ Hs) as (Hl & Hb & Hk & _ & _ & Hh).
  repeat split; try done.
  - destruct r1.1 as [[]| | |], r2.1 as [[]| | |]; by subst.
  - unfold saved_root_hash. by rewrite Hl.
Qed.
End Determinism.

Lemma sorting_reference_order_insensitive served :
  order_insensitive (sorting_reference served).
Proof.
  intros m m' (Hn & Ht & _ & _ & Hmt & _ & _ & Hr). simpl.
  unfold sorted_Json, sorted_encode. rewrite Hn, Ht, Hmt.
  assert (merge_sort String.le (map ref_text (Refs m))
          = merge_sort String.le (map ref_text (Refs m'))) as ->; [|done].
  apply (StronglySorted_unique String.le).
  - apply StronglySorted_merge_sort; apply _.
  - apply StronglySorted_merge_sort; apply _.
  - rewrite !merge_sort_Permutation. by apply Permutation_map.
Qed.

(** C1 (witness): with the sorting encoder, the root holding [a] and [b]
    gets the same hash whether its children are iterated in key order or in
    reverse. *)
Lemma Dir_Save_order_independent_witness :
  let r1 := Dir_Save (ext := sorting_reference ∅) 3 range_sorted "t1" 1
              two_children_FS in
  let r2 := Dir_Save (ext := sorting_reference ∅) 3 range_reversed "t1" 1
              two_children_FS in
  r1.1 = r2.1 ∧
  saved_root_hash r1.2 = saved_root_hash r2.2 ∧
  (∀ a, Hash ∘ obj_Meta <$> fs_heap r1.2 !! a
        = Hash ∘ obj_Meta <$> fs_heap r2.2 !! a) ∧
  fs_bs r1.2 = fs_bs r2.2 ∧ fs_lkv r1.2 = fs_lkv r2.2.
Proof.
  exact (Dir_Save_order_independent (ext := sorting_reference ∅) 3
           range_sorted range_reversed "t1" 1 two_children_FS
           (sorting_reference_order_insensitive ∅)
           range_sorted_ok range_reversed_ok).
Defined.

(** C1 (counterexample): the claim makes the root hash independent of the
    order in which the children are iterated.  With the reference encoder,
    which encodes the refs in the order it is given them, the two iteration
    orders of the same two children give two root hashes. *)
Lemma Dir_Save_depends_on_iteration_order :
  let r1 := Dir_Save (ext := reference ∅) 3 range_sorted "t1" 1 two_children_FS in
  let r2 := Dir_Save (ext := reference ∅) 3 range_reversed "t1" 1 two_children_FS in
  range_sorted addr {[ "a" := 0; "b" := 2 ]}
    ≡ₚ range_reversed addr {[ "a" := 0; "b" := 2 ]} ∧
  r1.1 = Ok tt ∧ r2.1 = Ok tt ∧
  saved_root_hash r1.2 ≠ saved_root_hash r2.2.
Proof.
  split; [by rewrite (range_sorted_ok _ _), (range_reversed_ok _ _)|].
  vm_compute. repeat split; discriminate.
Qed.

(** ** Saving a directory twice *)

Section SaveTwice.
Context {ext : Externals}.

Lemma set_fs_heap_id f : set_fs_heap (fs_heap f) f = f.
Proof. by destruct f. Qed.

Lemma set_fs_bs_id f : set_fs_bs (fs_bs f) f = f.
Proof. by destruct f. Qed.

(** One round of [Dir.Save] on a state where the directory and its children
    are there. *)
Lemma Dir_Save_round fuel (rg : MapRange) now d f dir hs :
  fs_heap f !! d = Some (ODir dir) →
  child_hashes f (rg addr (children_of f dir)) = Some hs →
  Dir_Save (S fuel) rg now d f
  = let g := set_fs_heap (<[d := saved_dir dir now hs]> (fs_heap f)) f in
    let mhash := Hash (Save_meta dir now hs) in
    match cache.Stat (fs_bs f) mhash with
    | Ok true => Save_next fuel rg now d dir mhash g
    | Ok false =>
        match cache.Put (fs_bs f) mhash (Save_blob dir now hs) with
        | (Ok _, c) => Save_next fuel rg now d dir mhash (set_fs_bs c g)
        | (Err e, c) => (Err e, set_fs_bs c g)
        | (Panic w, c) => (Panic w, set_fs_bs c g)
        | (OutOfFuel, c) => (OutOfFuel, set_fs_bs c g)
        end
    | Err e => (Err e, g)
    | Panic w => (Panic w, g)
    | OutOfFuel => (OutOfFuel, g)
    end.
Proof.
  intros Hd Hhs. cbn [Dir_Save].
  unfold Save_next, commit_root, saved_dir, Save_meta, Save_blob.
  unfold bind, get_dir, gets, set_obj, modify, bs_Stat, bs_Put, ret.
  rewrite Hd, add_child_refs_run, Hhs.
  destruct f; simpl.
  destruct (cache.Stat _ _) as [[|]| | |]; try reflexivity.
  destruct (cache.Put _ _ _) as [[[]| | |] c]; reflexivity.
Qed.

Lemma Dir_Save_Ok_dir fuel (rg : MapRange) now d f f1 :
  Dir_Save (S fuel) rg now d f = (Ok tt, f1) →
  ∃ dir hs, fs_heap f !! d = Some (ODir dir) ∧
            child_hashes f (rg addr (children_of f dir)) = Some hs.
Proof.
  cbn [Dir_Save]. unfold bind at 1. unfold get_dir.
  destruct (fs_heap f !! d) as [[dir|]|] eqn:Hd; try discriminate.
  unfold bind at 1. unfold gets at 1. unfold bind at 1.
  rewrite add_child_refs_run.
  destruct (child_hashes f _) as [hs|] eqn:Hhs; try discriminate.
  intros _. eauto.
Qed.

Lemma Stat_present c h : cache.Stat c h = Ok true ↔ present c h.
Proof.
  unfold cache.Stat, present. simpl. unfold cache.MapTier_Stat.
  case_bool_decide as Hl; simpl.
  - split; auto.
  - split.
    + intros [= Hr]. right. by apply bool_decide_eq_true in Hr.
    + intros [?|Hr]; [done|]. by rewrite bool_decide_eq_true_2.
Qed.

Lemma Stat_total c h : ∃ b, cache.Stat c h = Ok b.
Proof.
  unfold cache.Stat. simpl. unfold cache.MapTier_Stat.
  case_bool_decide; eauto.
Qed.

Lemma Put_present c h blob c' h0 :
  cache.Put c h blob = (Ok tt, c') →
  present c' h ∧ (present c h0 → present c' h0).
Proof.
  unfold cache.Put. simpl. unfold cache.MapTier_Put, present.
  destruct (cache.sealed (cache.backend c)); [done|]. intros [= <-]. simpl. split.
  - left. rewrite lookup_insert_eq. by eexists.
  - intros [Hl|Hr]; [left|by right].
    destruct (decide (h = h0)) as [->|Hne].
    + rewrite lookup_insert_eq. by eexists.
    + by rewrite lookup_insert_ne.
Qed.

Lemma vkv_Put_auto db key ref data kv db' :
  vkv_Put db key ref data (-1) = (Ok kv, db') →
  offline db = false ∧ offline db' = false ∧
  kv = mkKV ref data (latest_version (history db key) + 1) ∧
  history db' key = history db key ++ [kv].
Proof.
  unfold vkv_Put. destruct (offline db) eqn:Hoff; [done|].
  rewrite (bool_decide_eq_true_2 ((-1)%Z = (-1)%Z)) by done.
  case_bool_decide; [|done]. intros [= <- <-]. simpl.
  repeat split; try done. unfold history at 1. simpl. by rewrite lookup_insert_eq.
Qed.

Lemma vkv_Put_auto_Ok db key ref data :
  offline db = false →
  ∃ kv db', vkv_Put db key ref data (-1) = (Ok kv, db').
Proof.
  intros Hoff. unfold vkv_Put. rewrite Hoff.
  rewrite (bool_decide_eq_true_2 ((-1)%Z = (-1)%Z)) by done.
  rewrite bool_decide_eq_true_2 by (right; lia). eauto.
Qed.

Lemma latest_version_snoc h kv : latest_version (h ++ [kv]) = kv_Version kv.
Proof. unfold latest_version. by rewrite last_snoc. Qed.

(** The root branch on a state whose working root is the saved directory
    (or is not set). *)
Lemma commit_root_run d mhash g dv :
  fs_heap g !! d = Some (ODir dv) →
  (fs_root g = None ∨ fs_root g = Some d) →
  commit_root d mhash g
  = match json_Marshal_Root (root_New mhash 0) with
    | Ok js =>
        match vkv_Put (fs_lkv g) (localRootKeyFmt (fs_name g)) "" js (-1) with
        | (Ok kv, db) =>
            (Ok tt,
             set_fs_local
               (Some (mkMount false (Some d)
                        (Some (set_Version (root_New mhash 0) (kv_Version kv)))))
               (set_fs_lkv db g))
        | (Err e, db) => (Err e, set_fs_lkv db g)
        | (Panic w, db) => (Panic w, set_fs_lkv db g)
        | (OutOfFuel, db) => (OutOfFuel, set_fs_lkv db g)
        end
    | Err e => (Err e, g)
    | Panic w => (Panic w, g)
    | OutOfFuel => (OutOfFuel, g)
    end.
Proof.
  intros Hd Hr. unfold commit_root.
  unfold bind, lift, gets, lkv_Put, modify, get_dir, set_obj, ret.
  destruct (json_Marshal_Root _) as [js| | |]; try reflexivity.
  destruct (vkv_Put _ _ _ _ _) as [[kv| | |] db]; try reflexivity.
  destruct g; simpl in *.
  destruct Hr as [->| ->]; simpl; [reflexivity|].
  rewrite Hd. unfold modify, set_fs_heap, set_fs_local, set_fs_lkv; simpl.
  by rewrite insert_id.
Qed.

Lemma foldl_AddRef_fields m hs :
  Name (foldl AddRef m hs) = Name m ∧ ModTime (foldl AddRef m hs) = ModTime m.
Proof.
  revert m. induction hs as [|h hs IH]; intros m; simpl; [done|].
  destruct (IH (AddRef m h)) as [-> ->]. done.
Qed.

Lemma nonempty_true s : s ≠ "" → nonempty s = true.
Proof. by destruct s. Qed.

Lemma Save_meta_again dir now1 now2 hs p c :
  now1 ≠ "" →
  Save_meta (mkDir (Save_meta dir now1 hs) p c) now2 hs = Save_meta dir now1 hs.
Proof.
  intros Hnow.
  assert (Hn : Name (Save_meta dir now1 hs) = Name (d_meta dir)).
  { unfold Save_meta. simpl. by rewrite (proj1 (foldl_AddRef_fields _ _)). }
  assert (Hm : ModTime (Save_meta dir now1 hs)
               = if nonempty (ModTime (d_meta dir))
                 then ModTime (d_meta dir) else now1).
  { unfold Save_meta. simpl. by rewrite (proj2 (foldl_AddRef_fields _ _)). }
  assert (Hne : nonempty (ModTime (Save_meta dir now1 hs)) = true).
  { rewrite Hm. destruct (nonempty (ModTime (d_meta dir))) eqn:Hd; [done|].
    by apply nonempty_true. }
  unfold Save_meta at 1. cbn [d_meta]. rewrite Hne, Hn, Hm. reflexivity.
Qed.

Lemma frame_refl rank d f : frame rank d f f.
Proof. by repeat split. Qed.

Lemma ranked_shape rank f f' :
  ranked rank f →
  (∀ a, shape (fs_heap f' !! a) = shape (fs_heap f !! a)) →
  fs_maps f' = fs_maps f → ranked rank f'.
Proof.
  intros Hr Hs Hm a dir' Ha. specialize (Hs a). rewrite Ha in Hs. simpl in Hs.
  destruct (fs_heap f !! a) as [[dir|fl]|] eqn:Hf; simpl in Hs; try done.
  injection Hs as Hp Hc. destruct (Hr a dir Hf) as [H1 H2]. split.
  - intros p. rewrite Hp. apply H1.
  - intros n c. unfold children_of. rewrite Hc, Hm. apply H2.
Qed.

Lemma is_top_shape f f' d r :
  is_top f d r →
  (∀ a, shape (fs_heap f' !! a) = shape (fs_heap f !! a)) →
  is_top f' d r.
Proof.
  intros Ht Hs. induction Ht as [d dir Hd Hp|d dir p r Hd Hp Ht IH].
  - pose proof (Hs d) as Hsd. rewrite Hd in Hsd. simpl in Hsd.
    destruct (fs_heap f' !! d) as [[dir'|]|] eqn:Hd'; simpl in Hsd; try done.
    injection Hsd as Hp' _. eapply top_here; [done|]. congruence.
  - pose proof (Hs d) as Hsd. rewrite Hd in Hsd. simpl in Hsd.
    destruct (fs_heap f' !! d) as [[dir'|]|] eqn:Hd'; simpl in Hsd; try done.
    injection Hsd as Hp' _. eapply top_up; [done| |done]. congruence.
Qed.

Lemma is_top_root f d dir r :
  is_top f d r → fs_heap f !! d = Some (ODir dir) → d_parent dir = None → r = d.
Proof. intros Ht Hd Hp. destruct Ht; congruence. Qed.

Lemma is_top_parent f d dir p r :
  is_top f d r → fs_heap f !! d = Some (ODir dir) → d_parent dir = Some p →
  is_top f p r.
Proof. intros Ht Hd Hp. destruct Ht; congruence. Qed.

Lemma child_hashes_ext f f' cs :
  (∀ e, e ∈ cs → fs_heap f' !! e.2 = fs_heap f !! e.2) →
  child_hashes f' cs = child_hashes f cs.
Proof.
  unfold child_hashes. induction cs as [|e cs IH]; intros Hcs; simpl; [done|].
  rewrite (Hcs e) by (by left). rewrite IH; [done|].
  intros e' He'. apply Hcs. by right.
Qed.

Lemma shape_insert_saved f d dir now hs a :
  fs_heap f !! d = Some (ODir dir) →
  shape (<[d := saved_dir dir now hs]> (fs_heap f) !! a) = shape (fs_heap f !! a).
Proof.
  intros Hd. destruct (decide (a = d)) as [->|Hne].
  - by rewrite lookup_insert_eq, Hd.
  - by rewrite lookup_insert_ne.
Qed.

(** The state after the existence check and the put of one round. *)
Lemma Dir_Save_round_Ok fuel (rg : MapRange) now d f f1 dir hs :
  fs_heap f !! d = Some (ODir dir) →
  child_hashes f (rg addr (children_of f dir)) = Some hs →
  Dir_Save (S fuel) rg now d f = (Ok tt, f1) →
  ∃ g, Save_next fuel rg now d dir (Hash (Save_meta dir now hs)) g = (Ok tt, f1) ∧
       fs_heap g = <[d := saved_dir dir now hs]> (fs_heap f) ∧
       fs_maps g = fs_maps f ∧ fs_root g = fs_root f ∧ fs_name g = fs_name f ∧
       present (fs_bs g) (Hash (Save_meta dir now hs)) ∧
       (∀ h, present (fs_bs f) h → present (fs_bs g) h).
Proof.
  intros Hd Hhs Hrun. rewrite (Dir_Save_round fuel rg now d f dir hs Hd Hhs) in Hrun.
  cbv zeta in Hrun.
  destruct (cache.Stat (fs_bs f) _) as [[|]| | |] eqn:Hs; try discriminate.
  - eexists. split; [exact Hrun|]. apply Stat_present in Hs.
    destruct f; simpl in *. by repeat split.
  - destruct (cache.Put (fs_bs f) _ _) as [[[]| | |] c] eqn:Hp; try discriminate.
    eexists. split; [exact Hrun|].
    destruct f; simpl in *. repeat split; try done.
    + by apply (Put_present _ _ _ _ "" Hp).
    + intros h. by apply (Put_present _ _ _ _ h Hp).
Qed.

Lemma Dir_Save_again (rank : addr → nat) (rg : MapRange) now1 now2 fuel :
  range_ok rg → now1 ≠ "" →
  ∀ d f f1,
    ranked rank f →
    (∀ r, fs_root f = Some r → is_top f d r) →
    Dir_Save fuel rg now1 d f = (Ok tt, f1) →
    frame rank d f f1 ∧
    ∃ f2, Dir_Save fuel rg now2 d f1 = (Ok tt, f2) ∧ saved_again f1 f2.
Proof.
  intros Hrg Hnow. induction fuel as [|fuel IH]; intros d f f1 Hrk Hroot Hrun; [done|].
  destruct (Dir_Save_Ok_dir _ _ _ _ _ _ Hrun) as (dir & hs & Hd & Hhs).
  destruct (Dir_Save_round_Ok _ _ _ _ _ _ _ _ Hd Hhs Hrun)
    as (g & Hnext & Hheap & Hmaps & Hr & Hname & Hst & Hmono).
  set (dir1 := mkDir (Save_meta dir now1 hs) (d_parent dir) (d_Children dir)).
  assert (Hshape : ∀ a, shape (fs_heap g !! a) = shape (fs_heap f !! a)).
  { intros a. rewrite Hheap. by apply shape_insert_saved. }
  assert (Hrk' : ranked rank g) by (by eapply ranked_shape).
  destruct (Hrk d dir Hd) as [Hup Hdown].
  (* the children of the directory are below it and keep their hashes *)
  assert (Hkids : ∀ f', (∀ a, rank d < rank a → fs_heap f' !! a = fs_heap f !! a) →
                        fs_maps f' = fs_maps f →
                        child_hashes f' (rg addr (children_of f' dir1)) = Some hs).
  { intros f' Hbelow Hm. 
    assert (children_of f' dir1 = children_of f dir) as ->.
    { unfold children_of. simpl. by rewrite Hm. }
    rewrite <- Hhs. apply child_hashes_ext. intros [n c] Hin. simpl.
    apply Hbelow. apply (Hdown n). apply elem_of_map_to_list.
    by rewrite <- (Hrg addr _). }
  (* a second round on a state that holds the saved directory is idle *)
  assert (Hidle : ∀ f', fs_heap f' !! d = Some (ODir dir1) →
                        (∀ a, rank d < rank a → fs_heap f' !! a = fs_heap f !! a) →
                        fs_maps f' = fs_maps f →
                        present (fs_bs f') (Hash (Save_meta dir now1 hs)) →
                        Dir_Save (S fuel) rg now2 d f'
                        = Save_next fuel rg now2 d dir1 (Hash (Save_meta dir now1 hs)) f').
  { intros f' Hd' Hbelow Hm Hp.
    rewrite (Dir_Save_round fuel rg now2 d f' dir1 hs Hd' (Hkids f' Hbelow Hm)).
    cbv zeta. unfold saved_dir, dir1. rewrite Save_meta_again by done.
    fold dir1. cbn [d_parent d_Children]. 
    change (ODir (mkDir (Save_meta dir now1 hs) (d_parent dir) (d_Children dir)))
      with (ODir dir1).
    rewrite insert_id by done. rewrite set_fs_heap_id.
    apply Stat_present in Hp. by rewrite Hp. }
  unfold Save_next in Hnext.
  destruct (d_parent dir) as [p|] eqn:Hpar.
  - (* the parent is saved next *)
    assert (Hlt : rank p < rank d) by (by apply Hup).
    destruct (IH p g f1 Hrk') as [Hframe (f2 & Hrun2 & Hagain)]; [|done|].
    { intros r Hroot'. rewrite Hr in Hroot'.
      eapply is_top_shape; [|done]. eapply is_top_parent; [by apply Hroot|done|done]. }
    destruct Hframe as (Hf1 & Hf2 & Hf3 & Hf4 & Hf5 & Hf6).
    assert (Hbelow : ∀ a, rank d < rank a → fs_heap f1 !! a = fs_heap f !! a).
    { intros a Ha. rewrite Hf1 by lia. rewrite Hheap.
      rewrite lookup_insert_ne; [done|]. intros ->. lia. }
    split.
    + split; [exact Hbelow|]. split; [intros a; by rewrite Hf2|].
      split; [congruence|]. split; [congruence|]. split; [congruence|].
      intros h Hh. by apply Hf6, Hmono.
    + exists f2. split; [|done].
      rewrite Hidle.
      * unfold Save_next, dir1. simpl. exact Hrun2.
      * rewrite Hf1 by done. rewrite Hheap, lookup_insert_eq.
        unfold saved_dir, dir1. by rewrite Hpar.
      * done.
      * congruence.
      * by apply Hf6.
  - (* the root: a new version is committed *)
    assert (Hroot' : fs_root g = None ∨ fs_root g = Some d).
    { rewrite Hr. destruct (fs_root f) as [r|] eqn:Hfr; [|by left].
      right. f_equal. by eapply is_top_root; [apply Hroot| |]. }
    assert (Hgd : fs_heap g !! d = Some (ODir dir1)).
    { rewrite Hheap, lookup_insert_eq. unfold saved_dir, dir1. by rewrite Hpar. }
    rewrite (commit_root_run d _ g dir1 Hgd Hroot') in Hnext.
    destruct (json_Marshal_Root _) as [js| | |] eqn:Hjs; try discriminate.
    destruct (vkv_Put _ _ _ _ _) as [[kv| | |] db] eqn:Hput; try discriminate.
    injection Hnext as <-.
    destruct (vkv_Put_auto _ _ _ _ _ _ Hput) as (Hoff & Hoff' & Hkv & Hhist).
    assert (Hbelow : ∀ a, rank d < rank a →
              fs_heap (set_fs_local
                         (Some (mkMount false (Some d)
                            (Some (set_Version (root_New (Hash (Save_meta dir now1 hs)) 0)
                                     (kv_Version kv)))))
                         (set_fs_lkv db g)) !! a = fs_heap f !! a).
    { intros a Ha. destruct g; simpl in *. subst.
      rewrite lookup_insert_ne; [done|]. intros ->. lia. }
    split.
    + destruct g; simpl in *. subst. by repeat split.
    + destruct (vkv_Put_auto_Ok db (localRootKeyFmt (fs_name g)) "" js Hoff')
        as (kv' & db' & Hput').
      destruct (vkv_Put_auto _ _ _ _ _ _ Hput') as (_ & _ & Hkv' & Hhist').
      eexists. split.
      * rewrite Hidle.
        -- unfold Save_next, dir1. cbn [d_parent].
           erewrite commit_root_run.
           ++ rewrite Hjs. destruct g; simpl in *. rewrite Hput'. reflexivity.
           ++ destruct g; simpl in *. exact Hgd.
           ++ destruct g; simpl in *. exact Hroot'.
        -- destruct g; simpl in *. exact Hgd.
        -- exact Hbelow.
        -- destruct g; simpl in *. done.
        -- destruct g; simpl in *. done.
      * destruct g; simpl in *. unfold saved_again. simpl. repeat split.
        exists kv, kv'. rewrite Hhist. rewrite last_snoc. split; [done|].
        rewrite Hhist'. rewrite Hhist. split; [done|].
        rewrite Hkv'. simpl. rewrite Hhist, latest_version_snoc.
        split; [|done]. by rewrite Hkv.
Qed.

(** C2 (as amended): on a well-formed tree whose working root is the top of
    the saved directory, with the child maps iterated in the same order both
    times, a second [Save] right after a successful one succeeds, records
    the same root hash, leaves every node and the content store as they are
    (the existence check skips every put), and appends one more version
    entry, with the same data, to the local track. *)
Theorem Dir_Save_twice (rank : addr → nat) (fuel : nat) (rg : MapRange)
    (now1 now2 : string) (d : addr) (f f1 : FS) :
  range_ok rg → now1 ≠ "" → ranked rank f →
  (∀ r, fs_root f = Some r → is_top f d r) →
  Dir_Save fuel rg now1 d f = (Ok tt, f1) →
  ∃ f2,
    Dir_Save fuel rg now2 d f1 = (Ok tt, f2) ∧
    saved_root_hash f2 = saved_root_hash f1 ∧
    fs_heap f2 = fs_heap f1 ∧ fs_maps f2 = fs_maps f1 ∧
    fs_bs f2 = fs_bs f1 ∧
    ∃ kv kv',
      last (history (fs_lkv f1) (localRootKeyFmt (fs_name f1))) = Some kv ∧
      history (fs_lkv f2) (localRootKeyFmt (fs_name f1))
      = history (fs_lkv f1) (localRootKeyFmt (fs_name f1)) ++ [kv'] ∧
      kv_Data kv' = kv_Data kv ∧ kv_Version kv' = (kv_Version kv + 1)%Z.
Proof.
  intros Hrg Hnow Hrk Hroot Hrun.
  destruct (Dir_Save_again rank rg now1 now2 fuel Hrg Hnow d f f1 Hrk Hroot Hrun)
    as [_ (f2 & Hrun2 & Hh & Hm & Hb & _ & Hs & Hv)].
  exists f2. by repeat split.
Qed.
End SaveTwice.

Lemma two_children_ranked : ranked two_children_rank two_children_FS.
Proof.
  intros a dir Ha. cbn in Ha.
  apply lookup_insert_Some in Ha as [[_ Ha]|[_ Ha]]; [discriminate Ha|].
  apply lookup_insert_Some in Ha as [[<- Ha]|[_ Ha]];
    [|by apply lookup_singleton_Some in Ha as [_ Ha]].
  injection Ha as <-. split; [done|].
  intros n c. unfold children_of. simpl.
  change (({[ "a" := 0; "b" := 2 ]} : gmap string addr) !! n = Some c →
          two_children_rank 1 < two_children_rank c).
  intros [[_ <-]|[_ [_ <-]%lookup_singleton_Some]]%lookup_insert_Some;
    vm_compute; lia.
Qed.

Lemma two_children_top r :
  fs_root two_children_FS = Some r → is_top two_children_FS 1 r.
Proof. intros [= <-]. by eapply top_here. Qed.

(** C2 (witness): the root holding [a] and [b], saved at [t1] and again at
    [t2] with the children iterated in key order. *)
Lemma Dir_Save_twice_witness :
  ∃ f2,
    Dir_Save (ext := reference ∅) 3 range_sorted "t2" 1 saved_once = (Ok tt, f2) ∧
    saved_root_hash f2 = saved_root_hash saved_once ∧
    fs_heap f2 = fs_heap saved_once ∧ fs_maps f2 = fs_maps saved_once ∧
    fs_bs f2 = fs_bs saved_once ∧
    ∃ kv kv',
      last (history (fs_lkv saved_once) (localRootKeyFmt (fs_name saved_once))) = Some kv ∧
      history (fs_lkv f2) (localRootKeyFmt (fs_name saved_once))
      = history (fs_lkv saved_once) (localRootKeyFmt (fs_name saved_once)) ++ [kv'] ∧
      kv_Data kv' = kv_Data kv ∧ kv_Version kv' = (kv_Version kv + 1)%Z.
Proof.
  apply (Dir_Save_twice (ext := reference ∅) two_children_rank 3 range_sorted
           "t1" "t2" 1 two_children_FS saved_once).
  - exact range_sorted_ok.
  - discriminate.
  - exact two_children_ranked.
  - exact two_children_top.
  - vm_compute. reflexivity.
Defined.

(** C2 (counterexample): the claim has the second [Save] append no second
    version entry.  After one [Save] the local track holds one entry, after
    the second it holds two, for the same root hash. *)
Lemma Dir_Save_twice_appends_a_version :
  let key := localRootKeyFmt "demo" in
  let r1 := Dir_Save (ext := reference ∅) 3 range_sorted "t1" 1 two_children_FS in
  let r2 := Dir_Save (ext := reference ∅) 3 range_sorted "t2" 1 r1.2 in
  r1.1 = Ok tt ∧ r2.1 = Ok tt ∧
  saved_root_hash r2.2 = saved_root_hash r1.2 ∧
  length (history (fs_lkv r1.2) key) = 1 ∧
  length (history (fs_lkv r2.2) key) = 2.
Proof. vm_compute. done. Qed.

(** * Properties of the other operations *)

(** ** What a call leaves alone *)

Lemma keeps_ret (P : relation FS) `{!PreOrder P} {A} (a : A) : keeps P (ret a).
Proof. intros f. reflexivity. Qed.
Lemma keeps_fail (P : relation FS) `{!PreOrder P} {A} e : keeps P (fail (A:=A) e).
Proof. intros f. reflexivity. Qed.
Lemma keeps_panic (P : relation FS) `{!PreOrder P} {A} w : keeps P (panic (A:=A) w).
Proof. intros f. reflexivity. Qed.
Lemma keeps_lift (P : relation FS) `{!PreOrder P} {A} (r : result A) : keeps P (lift r).
Proof. intros f. reflexivity. Qed.
Lemma keeps_gets (P : relation FS) `{!PreOrder P} {A} (p : FS → A) : keeps P (gets p).
Proof. intros f. reflexivity. Qed.
Lemma keeps_out_of_fuel (P : relation FS) `{!PreOrder P} {A} :
  keeps P (λ f, (OutOfFuel (A:=A), f)).
Proof. intros f. reflexivity. Qed.
Lemma keeps_get_dir (P : relation FS) `{!PreOrder P} a : keeps P (get_dir a).
Proof. intros f. unfold get_dir. repeat case_match; reflexivity. Qed.
Lemma keeps_get_file (P : relation FS) `{!PreOrder P} a : keeps P (get_file a).
Proof. intros f. unfold get_file. repeat case_match; reflexivity. Qed.
Lemma keeps_get_obj (P : relation FS) `{!PreOrder P} a : keeps P (get_obj a).
Proof. intros f. unfold get_obj. repeat case_match; reflexivity. Qed.
Lemma keeps_deref_opt (P : relation FS) `{!PreOrder P} {A} (o : option A) :
  keeps P (deref_opt o).
Proof. intros f. destruct o; reflexivity. Qed.

Lemma keeps_bind (P : relation FS) `{!PreOrder P} {A B} (m : M A) (k : A → M B) :
  keeps P m → (∀ a, keeps P (k a)) → keeps P (bind m k).
Proof.
  intros Hm Hk f. unfold bind. specialize (Hm f).
  destruct (m f) as [[a| | |] f1]; simpl in *; try done.
  etrans; [exact Hm|]. apply Hk.
Qed.

Lemma keeps_forM_ (P : relation FS) `{!PreOrder P} {A} (l : list A)
    (body : A → M unit) :
  (∀ x, keeps P (body x)) → keeps P (forM_ l body).
Proof.
  intros Hb. induction l as [|x l IH]; simpl; [by apply keeps_ret|].
  apply keeps_bind; [done|apply Hb|]. intros _. exact IH.
Qed.

Lemma keeps_ignoring_err (P : relation FS) `{!PreOrder P} {A} (m : M A) :
  keeps P m → keeps P (ignoring_err m).
Proof.
  intros Hm f. specialize (Hm f). unfold ignoring_err.
  by destruct (m f) as [[a| | |] f1].
Qed.

Lemma keeps_get_opt (P : relation FS) `{!PreOrder P} nf m :
  keeps P m → keeps P (get_opt nf m).
Proof.
  intros Hm f. specialize (Hm f). unfold get_opt.
  destruct (m f) as [[a| | |] f1]; try done. by case_decide.
Qed.

Global Instance remote_side_po : PreOrder remote_side.
Proof.
  split.
  - by intros f.
  - intros f g h (?&?&?) (?&?&?). repeat split; congruence.
Qed.

Lemma Get_bs {B R} `{!cache.BlobTier B, !cache.BlobTier R} (c : cache.Cache B R) h :
  cache.bs (cache.Get c h).2 = cache.bs c.
Proof.
  unfold cache.Get.
  destruct (cache.tier_Get (cache.backend c) h) as [b|e| |]; try done.
  destruct e; try done.
  destruct (cache.tier_Get (cache.bs c) h) as [b|e| |]; try done.
  destruct (cache.tier_Put (cache.backend c) h b) as [[[]| | |] b']; done.
Qed.

Lemma Get_unless_miss {B R} `{!cache.BlobTier B, !cache.BlobTier R} (c : cache.Cache B R) h :
  cache.tier_Get (cache.backend c) h ≠ Err ErrBlobNotFound → (cache.Get c h).2 = c.
Proof.
  unfold cache.Get. intros Hne.
  destruct (cache.tier_Get (cache.backend c) h) as [b|e| |]; try done.
  destruct e; done.
Qed.

Ltac prim :=
  intros f;
  unfold set_obj, alloc, alloc_map, modify, updateLastOP, bs_Stat, bs_StatRemote,
    bs_Put, lkv_Put, lkv_Get, rkv_Get, rkv_Versions, gets, ret, fail, panic,
    FS_InvalidateCache, NewDir, NewFile, alloc, cache.Put;
  destruct f; simpl; repeat case_match; simplify_eq/=; done.

Ltac keep_step prims :=
  first
    [ apply keeps_ret; apply _ | apply keeps_fail; apply _ | apply keeps_panic; apply _
    | apply keeps_lift; apply _ | apply keeps_gets; apply _
    | apply keeps_get_dir; apply _ | apply keeps_get_file; apply _
    | apply keeps_get_obj; apply _ | apply keeps_deref_opt; apply _
    | apply keeps_out_of_fuel; apply _
    | prims
    | assumption
    | match goal with H : context [keeps] |- keeps _ _ => apply H end
    | apply keeps_forM_; [apply _|intros ?]
    | apply keeps_ignoring_err; [apply _|]
    | apply keeps_get_opt; [apply _|]
    | apply keeps_bind; [apply _| |intros ?]
    | match goal with
      | |- keeps _ (match ?x with _ => _ end) => destruct x
      end ].

Section RemoteSide.
Context {ext : Externals}.

Lemma rs_modify_heap g :
  keeps remote_side (modify (λ f, set_fs_heap (g f) f)).
Proof. prim. Qed.
Lemma rs_set_obj a o : keeps remote_side (set_obj a o).
Proof. prim. Qed.
Lemma rs_alloc o : keeps remote_side (alloc o).
Proof. prim. Qed.
Lemma rs_alloc_map : keeps remote_side alloc_map.
Proof. prim. Qed.
Lemma rs_updateLastOP now : keeps remote_side (updateLastOP now).
Proof. prim. Qed.
Lemma rs_bs_Stat h : keeps remote_side (bs_Stat h).
Proof. prim. Qed.
Lemma rs_bs_Put h b : keeps remote_side (bs_Put h b).
Proof. prim. Qed.
Lemma rs_lkv_Put k r d v : keeps remote_side (lkv_Put k r d v).
Proof. prim. Qed.
Lemma rs_bs_Get h : keeps remote_side (bs_Get h).
Proof.
  intros f. unfold bs_Get. pose proof (Get_bs (fs_bs f) h) as H.
  destruct (cache.Get (fs_bs f) h) as [r c]. simpl in *. by destruct f.
Qed.
Lemma rs_set_local l : keeps remote_side (modify (set_fs_local l)).
Proof. prim. Qed.
Lemma rs_set_sync : keeps remote_side (modify (λ f, set_fs_sync (S (fs_sync f)) f)).
Proof. prim. Qed.
Lemma rs_set_openFds : keeps remote_side (modify (λ f, set_fs_openFds (fs_openFds f + 1) f)).
Proof. prim. Qed.
Lemma rs_set_maps g : keeps remote_side (modify (λ f, set_fs_maps (g f) f)).
Proof. prim. Qed.

Ltac rs_prims :=
  first [ apply rs_set_obj | apply rs_alloc | apply rs_alloc_map | apply rs_updateLastOP
    | apply rs_bs_Stat | apply rs_bs_Put | apply rs_lkv_Put | apply rs_bs_Get
    | apply rs_set_local | apply rs_set_sync | apply rs_set_openFds | apply rs_set_maps
    | apply rs_modify_heap ].

Ltac keep := repeat keep_step rs_prims.

Lemma rs_children_insert d n c : keeps remote_side (children_insert d n c).
Proof. unfold children_insert. keep. Qed.
Lemma rs_children_delete d n : keeps remote_side (children_delete d n).
Proof. unfold children_delete. keep. Qed.
Lemma rs_children_lookup d n : keeps remote_side (children_lookup d n).
Proof. unfold children_lookup. keep. Qed.

Lemma rs_add_child_refs m cs : keeps remote_side (add_child_refs m cs).
Proof. revert m. induction cs as [|[n c] cs IH]; intros m; simpl; keep. Qed.

Lemma rs_Dir_Save fuel rg now d : keeps remote_side (Dir_Save fuel rg now d).
Proof.
  revert d. induction fuel as [|fuel IH]; intros d; simpl.
  { apply keeps_out_of_fuel; apply _. }
  pose proof rs_add_child_refs.
  keep.
Qed.

Lemma rs_File_Save fuel rg now a : keeps remote_side (File_Save fuel rg now a).
Proof. unfold File_Save. pose proof rs_Dir_Save. keep. Qed.

Lemma rs_Dir_reload d : keeps remote_side (Dir_reload d).
Proof.
  unfold Dir_reload, NewDir, NewFile. pose proof rs_children_insert. keep.
Qed.

Lemma rs_reload_if_nil d : keeps remote_side (reload_if_nil d).
Proof. unfold reload_if_nil. pose proof rs_Dir_reload. keep. Qed.

Lemma rs_makePublic fuel rg now node value :
  keeps remote_side (makePublic fuel rg now node value).
Proof.
  revert node. induction fuel as [|fuel IH]; intros node.
  { apply keeps_out_of_fuel; apply _. }
  cbn [makePublic]. pose proof rs_Dir_Save. pose proof rs_File_Save. keep.
Qed.

(** X1: Save and the kernel-facing operations that change the tree work on the
    local side only: none of them changes the remote blob tier, the remote
    version track or the remote mount. *)
Theorem mutations_stay_local (fuel : nat) (rg : MapRange) (now : string) :
  (∀ d, keeps remote_side (Dir_Save fuel rg now d)) ∧
  (∀ a, keeps remote_side (File_Save fuel rg now a)) ∧
  (∀ d name, keeps remote_side (Dir_Mkdir fuel rg now d name)) ∧
  (∀ d name mode, keeps remote_side (Dir_Create fuel rg now d name mode)) ∧
  (∀ d name, keeps remote_side (Dir_Remove fuel rg now d name)) ∧
  (∀ d name xattr, keeps remote_side (Dir_Setxattr fuel rg now d name xattr)) ∧
  (∀ a name xattr, keeps remote_side (File_Setxattr fuel rg now a name xattr)) ∧
  (∀ d name, keeps remote_side (Dir_Removexattr fuel rg now d name)) ∧
  (∀ a name, keeps remote_side (File_Removexattr fuel rg now a name)) ∧
  (∀ w a off data, keeps remote_side (File_Write w now a off data)).
Proof.
  pose proof rs_Dir_Save. pose proof rs_File_Save. pose proof rs_reload_if_nil.
  pose proof rs_children_insert. pose proof rs_children_delete.
  pose proof rs_children_lookup. pose proof rs_makePublic.
  split_and!; intros;
    unfold Dir_Mkdir, Dir_Create, Dir_Remove, Dir_Setxattr, File_Setxattr,
      Dir_Removexattr, File_Removexattr, File_Write, NewFile; keep.
Qed.
End RemoteSide.

Global Instance same_session_po : PreOrder same_session.
Proof.
  split.
  - by intros f.
  - intros f g h H1 H2. unfold same_session in *. destruct_and!.
    split_and!; congruence.
Qed.

Section SameSession.
Context {ext : Externals}.

Lemma ss_set_obj a o : keeps same_session (set_obj a o).
Proof. prim. Qed.
Lemma ss_alloc o : keeps same_session (alloc o).
Proof. prim. Qed.
Lemma ss_alloc_map : keeps same_session alloc_map.
Proof. prim. Qed.
Lemma ss_bs_Get h : keeps same_session (bs_Get h).
Proof.
  intros f. unfold bs_Get. destruct (cache.Get (fs_bs f) h) as [r c]. by destruct f.
Qed.
Lemma ss_set_maps g : keeps same_session (modify (λ f, set_fs_maps (g f) f)).
Proof. prim. Qed.

Ltac ss_prims :=
  first [ apply ss_set_obj | apply ss_alloc | apply ss_alloc_map | apply ss_bs_Get
        | apply ss_set_maps ].

Lemma ss_reload_if_nil d : keeps same_session (reload_if_nil d).
Proof.
  unfold reload_if_nil, Dir_reload, NewDir, NewFile, children_insert.
  repeat keep_step ss_prims.
Qed.
End SameSession.

(** ** The shape of the tree across a Save *)

Global Instance same_tree_po : PreOrder same_tree.
Proof.
  split.
  - by intros f.
  - intros f g h (Hs1&?&?&?&?&?&?&?&?) (Hs2&?&?&?&?&?&?&?&?).
    split; [|repeat split; congruence]. intros a. by rewrite Hs2, Hs1.
Qed.

Lemma node_sig_shape o o' : node_sig o' = node_sig o → shape o' = shape o.
Proof.
  destruct o as [[d|fl]|], o' as [[d'|fl']|]; simpl; try done.
  - by intros [= _ -> ->].
  - by intros [= ->].
Qed.

Lemma is_top_same_tree f f' d r : same_tree f f' → is_top f d r → is_top f' d r.
Proof.
  intros [Hs _] Ht. apply (is_top_shape f f' d r Ht).
  intros a. apply node_sig_shape, Hs.
Qed.

Section Tree.
Context {ext : Externals}.

Lemma same_tree_bs f c : same_tree f (set_fs_bs c f).
Proof. by destruct f. Qed.

Lemma same_tree_lkv f db : same_tree f (set_fs_lkv db f).
Proof. by destruct f. Qed.

Lemma same_tree_local f l : same_tree f (set_fs_local l f).
Proof. by destruct f. Qed.

Lemma same_tree_insert f d dir dir' :
  fs_heap f !! d = Some (ODir dir) →
  Name (d_meta dir') = Name (d_meta dir) → d_parent dir' = d_parent dir →
  d_Children dir' = d_Children dir →
  same_tree f (set_fs_heap (<[d := ODir dir']> (fs_heap f)) f).
Proof.
  intros Hd Hn Hp Hc. split; [|by destruct f].
  intros a. destruct f; simpl in *. destruct (decide (a = d)) as [->|Hne].
  - rewrite lookup_insert_eq, Hd. simpl. by rewrite Hn, Hp, Hc.
  - by rewrite lookup_insert_ne.
Qed.

Lemma Save_meta_Name dir now hs : Name (Save_meta dir now hs) = Name (d_meta dir).
Proof.
  unfold Save_meta. cbn. by rewrite (proj1 (foldl_AddRef_fields _ _)).
Qed.

Lemma commit_root_same_tree d mhash g dv :
  fs_heap g !! d = Some (ODir dv) →
  (fs_root g = None ∨ fs_root g = Some d) →
  same_tree g (commit_root d mhash g).2.
Proof.
  intros Hd Hr. rewrite (commit_root_run d mhash g dv Hd Hr).
  destruct (json_Marshal_Root _) as [js| | |]; try reflexivity.
  destruct (vkv_Put _ _ _ _ _) as [[kv| | |] db]; simpl;
    first [apply same_tree_lkv | etrans; [apply same_tree_lkv|apply same_tree_local]].
Qed.

(** Any preorder on states that holds across the store writes of a Save
    and across the replacement of a directory by its saved form holds across
    [Dir.Save], whatever it returns, provided the working root is the top of
    the saved directory. *)
Lemma Dir_Save_rel (R : relation FS) `{!PreOrder R} (rg : MapRange) now :
  (∀ f c, R f (set_fs_bs c f)) →
  (∀ f db, R f (set_fs_lkv db f)) →
  (∀ f l, R f (set_fs_local l f)) →
  (∀ f d dir hs, fs_heap f !! d = Some (ODir dir) →
     R f (set_fs_heap (<[d := saved_dir dir now hs]> (fs_heap f)) f)) →
  ∀ fuel d f, (∀ r, fs_root f = Some r → is_top f d r) →
              R f (Dir_Save fuel rg now d f).2.
Proof.
  intros Rbs Rlkv Rlocal Rsaved.
  induction fuel as [|fuel IH]; intros d f Hroot; [reflexivity|].
  destruct (fs_heap f !! d) as [[dir|fl]|] eqn:Hd;
    try (cbn [Dir_Save]; unfold bind at 1; unfold get_dir; rewrite Hd; reflexivity).
  destruct (child_hashes f (rg addr (children_of f dir))) as [hs|] eqn:Hhs.
  2:{ cbn [Dir_Save]. unfold bind at 1. unfold get_dir. rewrite Hd.
      unfold bind at 1. unfold gets at 1. unfold bind at 1.
      rewrite add_child_refs_run, Hhs. reflexivity. }
  rewrite (Dir_Save_round fuel rg now d f dir hs Hd Hhs). cbv zeta.
  set (g := set_fs_heap (<[d := saved_dir dir now hs]> (fs_heap f)) f).
  assert (Hg : R f g) by (by apply Rsaved).
  assert (Tg : same_tree f g).
  { apply (same_tree_insert f d dir); try done. apply Save_meta_Name. }
  assert (Hnext : ∀ c, R f
            (Save_next fuel rg now d dir (Hash (Save_meta dir now hs)) (set_fs_bs c g)).2).
  { intros c. assert (Tgc : same_tree f (set_fs_bs c g)).
    { etrans; [exact Tg|apply same_tree_bs]. }
    etrans; [exact Hg|]. etrans; [apply (Rbs g c)|]. unfold Save_next.
    destruct (d_parent dir) as [p|] eqn:Hp.
    - apply IH. intros r Hr. apply (is_top_same_tree f); [done|].
      apply (is_top_parent f d dir p r); [|done|done].
      apply Hroot. destruct Tgc as (_&_&_&Hroot'&_). congruence.
    - erewrite (commit_root_run d _ _ _).
      + destruct (json_Marshal_Root _) as [js| | |]; try reflexivity.
        destruct (vkv_Put _ _ _ _ _) as [[kv| | |] db]; simpl; try apply Rlkv.
        etrans; [apply Rlkv|apply Rlocal].
      + destruct f; simpl. apply lookup_insert_eq.
      + destruct (fs_root f) as [r|] eqn:Hr.
        * right. rewrite (is_top_root f d dir r (Hroot r eq_refl) Hd Hp) in Hr.
          destruct f; simpl in *. done.
        * left. destruct f; simpl in *. done. }
  destruct (cache.Stat (fs_bs f) _) as [[|]| | |]; try exact Hg.
  - specialize (Hnext (fs_bs g)). by rewrite set_fs_bs_id in Hnext.
  - destruct (cache.Put (fs_bs f) _ _) as [[[]| | |] c]; simpl;
      try (etrans; [exact Hg|apply Rbs]).
    apply Hnext.
Qed.

Lemma Save_next_rel (R : relation FS) `{!PreOrder R} (rg : MapRange) now :
  (∀ f c, R f (set_fs_bs c f)) →
  (∀ f db, R f (set_fs_lkv db f)) →
  (∀ f l, R f (set_fs_local l f)) →
  (∀ f d dir hs, fs_heap f !! d = Some (ODir dir) →
     R f (set_fs_heap (<[d := saved_dir dir now hs]> (fs_heap f)) f)) →
  ∀ fuel d dir mhash g dv,
    fs_heap g !! d = Some (ODir dv) → d_parent dv = d_parent dir →
    (∀ r, fs_root g = Some r → is_top g d r) →
    R g (Save_next fuel rg now d dir mhash g).2.
Proof.
  intros Rbs Rlkv Rlocal Rsaved fuel d dir mhash g dv Hd Hpar Hroot.
  unfold Save_next. destruct (d_parent dir) as [p|] eqn:Hp.
  - apply (Dir_Save_rel R); [done..|].
    intros r Hr. apply (is_top_parent g d dv p r); [by apply Hroot|done|congruence].
  - rewrite (commit_root_run d mhash g dv Hd).
    + destruct (json_Marshal_Root _) as [js| | |]; try reflexivity.
      destruct (vkv_Put _ _ _ _ _) as [[kv| | |] db]; simpl; try apply Rlkv.
      etrans; [apply Rlkv|apply Rlocal].
    + destruct (fs_root g) as [r|] eqn:Hr; [right|by left].
      by rewrite (is_top_root g d dv r (Hroot r eq_refl) Hd Hpar).
Qed.

(** A successful [Dir.Save] is the replacement of the directory by its saved
    form, a possible put into the content store, and the rest of the way up. *)
Lemma Dir_Save_Ok_split fuel (rg : MapRange) now d f f1 :
  Dir_Save (S fuel) rg now d f = (Ok tt, f1) →
  ∃ dir hs c,
    fs_heap f !! d = Some (ODir dir) ∧
    Save_next fuel rg now d dir (Hash (Save_meta dir now hs))
      (set_fs_bs c (set_fs_heap (<[d := saved_dir dir now hs]> (fs_heap f)) f))
    = (Ok tt, f1).
Proof.
  intros Hrun. destruct (Dir_Save_Ok_dir _ _ _ _ _ _ Hrun) as (dir & hs & Hd & Hhs).
  exists dir, hs. rewrite (Dir_Save_round fuel rg now d f dir hs Hd Hhs) in Hrun.
  cbv zeta in Hrun.
  destruct (cache.Stat (fs_bs f) _) as [[|]| | |]; try discriminate.
  - exists (fs_bs f). split; [done|]. rewrite <- Hrun. by destruct f.
  - destruct (cache.Put (fs_bs f) _ _) as [[[]| | |] c]; try discriminate.
    by exists c.
Qed.

(** [Dir.Save] keeps the shape of the tree. *)
Lemma Dir_Save_same_tree (rg : MapRange) now fuel d f :
  (∀ r, fs_root f = Some r → is_top f d r) →
  same_tree f (Dir_Save fuel rg now d f).2.
Proof.
  apply (Dir_Save_rel same_tree).
  - apply same_tree_bs.
  - apply same_tree_lkv.
  - apply same_tree_local.
  - intros g e dir hs Hd. apply (same_tree_insert g e dir); try done.
    apply Save_meta_Name.
Qed.
End Tree.

(** ** The Meta a Save builds *)

Global Instance keeps_rebuilt_po : PreOrder keeps_rebuilt.
Proof. split; [by intros f a|]. intros f g h H1 H2 a Ha. by apply H2, H1. Qed.

Section Rebuilt.
Context {ext : Externals} {io : FileIO}.

Lemma foldl_AddRef_rest m hs :
  XAttrs (foldl AddRef m hs) = XAttrs m ∧ Type_ (foldl AddRef m hs) = Type_ m ∧
  Mode (foldl AddRef m hs) = Mode m ∧ Size (foldl AddRef m hs) = Size m.
Proof.
  revert m. induction hs as [|h hs IH]; intros m; simpl; [done|].
  by destruct (IH (AddRef m h)) as (-> & -> & -> & ->).
Qed.

Lemma rebuilt_saved_dir dir now hs : rebuilt (Some (saved_dir dir now hs)).
Proof.
  eexists. split; [reflexivity|]. unfold Save_meta. cbn.
  by destruct (foldl_AddRef_rest
    (mkMeta (Name (d_meta dir)) "dir" 0 dir_mode
       (if nonempty (ModTime (d_meta dir)) then ModTime (d_meta dir) else now)
       [] None "") hs) as (-> & -> & -> & ->).
Qed.

Lemma Dir_Save_keeps_rebuilt (rg : MapRange) now fuel d f :
  (∀ r, fs_root f = Some r → is_top f d r) →
  keeps_rebuilt f (Dir_Save fuel rg now d f).2.
Proof.
  apply (Dir_Save_rel keeps_rebuilt).
  - intros g c a. by destruct g.
  - intros g db a. by destruct g.
  - intros g l a. by destruct g.
  - intros g e dir hs Hd a. destruct g; simpl in *.
    destruct (decide (a = e)) as [->|Hne].
    + rewrite lookup_insert_eq. intros _. apply rebuilt_saved_dir.
    + by rewrite lookup_insert_ne.
Qed.

Lemma Dir_Save_Ok_rebuilt (rg : MapRange) (now : string) (fuel : nat)
    (d : addr) (f f' : FS) (dir : Dir) :
  (∀ r, fs_root f = Some r → is_top f d r) →
  fs_heap f !! d = Some (ODir dir) →
  Dir_Save fuel rg now d f = (Ok tt, f') →
  ∃ dir', fs_heap f' !! d = Some (ODir dir') ∧
          Name (d_meta dir') = Name (d_meta dir) ∧
          Type_ (d_meta dir') = "dir" ∧ Mode (d_meta dir') = dir_mode ∧
          XAttrs (d_meta dir') = None.
Proof.
  intros Hroot Hd Hrun. destruct fuel as [|fuel]; [done|].
  pose proof (Dir_Save_same_tree rg now (S fuel) d f Hroot) as [Hsig _].
  rewrite Hrun in Hsig. simpl in Hsig. specialize (Hsig d). rewrite Hd in Hsig.
  destruct (Dir_Save_Ok_split _ _ _ _ _ _ Hrun) as (dir0 & hs & c & Hd0 & Hnext).
  assert (dir0 = dir) as -> by congruence.
  set (g := set_fs_bs c (set_fs_heap (<[d := saved_dir dir now hs]> (fs_heap f)) f)) in *.
  assert (Tg : same_tree f g).
  { etrans; [|apply same_tree_bs].
    apply (same_tree_insert f d dir); try done. apply Save_meta_Name. }
  assert (Hgd : fs_heap g !! d = Some (saved_dir dir now hs)).
  { destruct f; simpl. apply lookup_insert_eq. }
  assert (Hreb : rebuilt (fs_heap f' !! d)).
  { assert (Hk : keeps_rebuilt g (Save_next fuel rg now d dir
                                    (Hash (Save_meta dir now hs)) g).2).
    { eapply (Save_next_rel keeps_rebuilt rg now); try exact Hgd; try done.
      - intros h c' a. by destruct h.
      - intros h db a. by destruct h.
      - intros h l a. by destruct h.
      - intros h e dir1 hs1 Hd1 a. destruct h; simpl in *.
        destruct (decide (a = e)) as [->|Hne].
        + rewrite lookup_insert_eq. intros _. apply rebuilt_saved_dir.
        + by rewrite lookup_insert_ne.
      - intros r Hr. apply (is_top_same_tree f); [done|]. apply Hroot.
        destruct Tg as (_&_&_&Hroot'&_). congruence. }
    rewrite Hnext in Hk. apply Hk. rewrite Hgd. apply rebuilt_saved_dir. }
  destruct Hreb as (dir' & Hd' & Hx & Ht & Hm & _).
  exists dir'. rewrite Hd' in Hsig. simpl in Hsig. injection Hsig as Hn _ _.
  by repeat split.
Qed.

(** X2: [Dir.Save] builds the Meta of the directory anew: after a successful
    Save the directory has the type and the mode of a directory, its name,
    and no extended attribute. *)
Theorem Dir_Save_rebuilds_Meta (rg : MapRange) (now : string) (fuel : nat)
    (d : addr) (f f' : FS) (dir : Dir) :
  (∀ r, fs_root f = Some r → is_top f d r) →
  fs_heap f !! d = Some (ODir dir) →
  Dir_Save fuel rg now d f = (Ok tt, f') →
  ∃ dir', fs_heap f' !! d = Some (ODir dir') ∧
          Name (d_meta dir') = Name (d_meta dir) ∧
          Type_ (d_meta dir') = "dir" ∧ Mode (d_meta dir') = dir_mode ∧
          XAttrs (d_meta dir') = None.
Proof. apply Dir_Save_Ok_rebuilt. Qed.

Lemma is_top_heap f f' d r : fs_heap f' = fs_heap f → is_top f d r → is_top f' d r.
Proof. intros Hh Ht. apply (is_top_shape f f' d r Ht). intros a. by rewrite Hh. Qed.

Lemma is_top_meta f d r a dir dir' :
  fs_heap f !! a = Some (ODir dir) →
  d_parent dir' = d_parent dir → d_Children dir' = d_Children dir →
  is_top f d r →
  is_top (set_fs_heap (<[a := ODir dir']> (fs_heap f)) f) d r.
Proof.
  intros Ha Hp Hc Ht. apply (is_top_shape f _ d r Ht). intros b.
  destruct f; simpl in *. destruct (decide (b = a)) as [->|Hne].
  - rewrite lookup_insert_eq, Ha. simpl. by rewrite Hp, Hc.
  - by rewrite lookup_insert_ne.
Qed.

(** X3: An attribute set on a directory does not stay: [Dir.Setxattr] stores it
    in the Meta and then saves the directory, and the Save replaces the Meta
    by a new one without attributes.  Reading the attribute back fails with
    [ErrNoXattr]. *)
Theorem Dir_Setxattr_is_lost (fuel : nat) (rg : MapRange) (now : string)
    (d : addr) (name value : string) (f f' : FS) :
  (∀ r, fs_root f = Some r → is_top f d r) →
  is_virtualXAttr name = false → name ≠ "public" → name ≠ "url.semiprivate" →
  Dir_Setxattr fuel rg now d name value f = (Ok tt, f') →
  ∀ host now', (Dir_Getxattr host now' d name f').1 = Err ErrNoXattr.
Proof.
  intros Hroot Hvirt Hpub Hsemi Hrun host now'.
  unfold Dir_Setxattr in Hrun.
  apply bind_Ok in Hrun as ([] & f0 & Hop & Hrun). injection Hop as <-.
  rewrite bool_decide_eq_false_2 in Hrun by done. rewrite Hvirt in Hrun.
  apply bind_Ok in Hrun as (dir & f1 & Hdir & Hrun).
  unfold get_dir in Hdir.
  destruct (fs_heap (set_fs_lastOP now f) !! d) as [[dir0|]|] eqn:Hd; try done.
  injection Hdir as -> <-.
  apply bind_Ok in Hrun as ([] & g & Hset & Hrun). injection Hset as <-.
  set (dirx := set_d_meta dir (xattrs_set (d_meta dir) name value)) in *.
  set (g := set_fs_heap (<[d := ODir dirx]> (fs_heap f)) (set_fs_lastOP now f)) in *.
  assert (Hroot' : ∀ r, fs_root g = Some r → is_top g d r).
  { intros r Hr.
    assert (Ht : is_top (set_fs_lastOP now f) d r).
    { apply (is_top_heap f); [by destruct f|]. apply Hroot. by destruct f. }
    apply (is_top_meta _ d r d dir dirx Hd eq_refl eq_refl) in Ht.
    apply (is_top_heap _ g) in Ht; [done|]. by destruct f. }
  assert (Hgd : fs_heap g !! d = Some (ODir dirx)).
  { destruct f; simpl. apply lookup_insert_eq. }
  destruct (Dir_Save_Ok_rebuilt rg now fuel d g f' dirx Hroot' Hgd Hrun)
    as (dir' & Hd' & _ & _ & _ & Hx).
  unfold Dir_Getxattr, bind, updateLastOP, modify, get_dir, lift. simpl.
  rewrite Hd'. simpl. unfold handleGetxattr. rewrite Hx.
  unfold is_virtualXAttr in Hvirt. apply orb_false_iff in Hvirt as [Hr Hu].
  rewrite Hr. rewrite bool_decide_eq_false_2 by done. rewrite Hu. done.
Qed.
End Rebuilt.

(** ** Child maps *)

Section RoundTrips.
Context {ext : Externals} {io : FileIO}.

Lemma reload_if_nil_loaded d f dir ma :
  fs_heap f !! d = Some (ODir dir) → d_Children dir = Some ma →
  reload_if_nil d f = (Ok tt, f).
Proof.
  intros Hd Hc. unfold reload_if_nil, bind, get_dir. by rewrite Hd, Hc.
Qed.

Lemma children_lookup_run d f dir name :
  fs_heap f !! d = Some (ODir dir) →
  children_lookup d name f = (Ok (children_of f dir !! name), f).
Proof. intros Hd. unfold children_lookup, bind, get_dir, gets. by rewrite Hd. Qed.

Lemma children_insert_run d f dir ma name c :
  fs_heap f !! d = Some (ODir dir) → d_Children dir = Some ma →
  children_insert d name c f
  = (Ok tt, set_fs_maps (<[ma := <[name := c]> (default ∅ (fs_maps f !! ma))]>
                           (fs_maps f)) f).
Proof.
  intros Hd Hc. unfold children_insert, bind, get_dir, modify. by rewrite Hd, Hc.
Qed.

Lemma children_delete_run d f dir ma name :
  fs_heap f !! d = Some (ODir dir) → d_Children dir = Some ma →
  children_delete d name f
  = (Ok tt, set_fs_maps (<[ma := delete name (default ∅ (fs_maps f !! ma))]>
                           (fs_maps f)) f).
Proof.
  intros Hd Hc. unfold children_delete, bind, get_dir, modify. by rewrite Hd, Hc.
Qed.

(** What a lookup finds in a directory whose children are loaded. *)
Lemma Dir_Lookup_loaded sock now d name f dir ma :
  fs_heap f !! d = Some (ODir dir) → d_Children dir = Some ma →
  name ≠ ".blobfs_socket" → strings_HasSuffix name debugSuffix = false →
  Dir_Lookup sock now d name f
  = (match default ∅ (fs_maps f !! ma) !! name with
     | Some c => Ok (LNode c)
     | None => Err ENOENT
     end, set_fs_lastOP now f).
Proof.
  intros Hd Hc Hsock Hsuf. unfold Dir_Lookup.
  rewrite bool_decide_eq_false_2 by done. rewrite Hsuf.
  unfold bind at 1. unfold updateLastOP, modify.
  assert (Hd' : fs_heap (set_fs_lastOP now f) !! d = Some (ODir dir)) by (by destruct f).
  unfold bind at 1. rewrite (reload_if_nil_loaded d _ dir ma Hd' Hc).
  unfold bind. rewrite (children_lookup_run d _ dir name Hd').
  unfold children_of. rewrite Hc.
  assert (fs_maps (set_fs_lastOP now f) = fs_maps f) as -> by (by destruct f).
  by destruct (default ∅ (fs_maps f !! ma) !! name).
Qed.

(** Inserting a child and saving the directory. *)
Lemma insert_then_Save fuel (rg : MapRange) now d name c g f' dir ma :
  fs_heap g !! d = Some (ODir dir) → d_Children dir = Some ma →
  (∀ r, fs_root g = Some r → is_top g d r) →
  (children_insert d name c ;;; Dir_Save fuel rg now d) g = (Ok tt, f') →
  same_tree (set_fs_maps (<[ma := <[name := c]> (default ∅ (fs_maps g !! ma))]>
                            (fs_maps g)) g) f'.
Proof.
  intros Hd Hc Hroot Hrun. unfold bind in Hrun.
  rewrite (children_insert_run d g dir ma name c Hd Hc) in Hrun.
  match type of Hrun with Dir_Save _ _ _ _ ?g1 = _ =>
    pose proof (Dir_Save_same_tree rg now fuel d g1) as Hs end.
  rewrite Hrun in Hs. apply Hs. intros r Hr.
  apply (is_top_heap g); [by destruct g|]. apply Hroot. by destruct g.
Qed.

Lemma is_top_alloc f d r a o :
  fs_heap f !! a = None → is_top f d r →
  is_top (set_fs_heap (<[a := o]> (fs_heap f)) f) d r.
Proof.
  intros Ha Ht. induction Ht as [d dir Hd Hp|d dir p r Hd Hp Ht IH].
  - eapply top_here; [|done]. destruct f; simpl in *.
    rewrite lookup_insert_ne; [done|congruence].
  - eapply top_up; [|done|done]. destruct f; simpl in *.
    rewrite lookup_insert_ne; [done|congruence].
Qed.

Lemma node_sig_dir o dir :
  node_sig o = node_sig (Some (ODir dir)) →
  ∃ dir', o = Some (ODir dir') ∧ Name (d_meta dir') = Name (d_meta dir) ∧
          d_parent dir' = d_parent dir ∧ d_Children dir' = d_Children dir.
Proof.
  destruct o as [[dir'|fl]|]; simpl; try done. intros [= Hn Hp Hc]. by exists dir'.
Qed.

Lemma same_tree_dir f f' a dir :
  same_tree f f' → fs_heap f !! a = Some (ODir dir) →
  ∃ dir', fs_heap f' !! a = Some (ODir dir') ∧
          Name (d_meta dir') = Name (d_meta dir) ∧
          d_parent dir' = d_parent dir ∧ d_Children dir' = d_Children dir.
Proof.
  intros [Hs _] Ha. apply node_sig_dir. by rewrite Hs, Ha.
Qed.

Lemma same_tree_file f f' a fl :
  same_tree f f' → fs_heap f !! a = Some (OFile fl) →
  fs_heap f' !! a = Some (OFile fl).
Proof.
  intros [Hs _] Ha. specialize (Hs a). rewrite Ha in Hs.
  destruct (fs_heap f' !! a) as [[dir'|fl']|]; simpl in Hs; try done. by injection Hs as ->.
Qed.

End RoundTrips.

(** ** Reloading a directory *)

Section Reload.
Context {ext : Externals}.

Lemma is_top_ext f g d r :
  (∀ a dir, fs_heap f !! a = Some (ODir dir) →
     ∃ dir', fs_heap g !! a = Some (ODir dir') ∧ d_parent dir' = d_parent dir) →
  is_top f d r → is_top g d r.
Proof.
  intros Hext Ht. induction Ht as [d dir Hd Hp|d dir p r Hd Hp Ht IH].
  - destruct (Hext d dir Hd) as (dir' & Hd' & Hp'). eapply top_here; [done|congruence].
  - destruct (Hext d dir Hd) as (dir' & Hd' & Hp'). eapply top_up; [done| |done].
    congruence.
Qed.

Lemma well_formed_lt f (a : addr) o : well_formed f → fs_heap f !! a = Some o → a < fs_next f.
Proof.
  intros [Hal _] Ha. destruct (decide (a < fs_next f)) as [|Hge]; [done|].
  destruct (Hal a) as [Hn _]; [lia|]. by rewrite Hn in Ha.
Qed.

Lemma well_formed_map_lt f (ma : addr) : well_formed f → is_Some (fs_maps f !! ma) → ma < fs_next f.
Proof.
  intros [Hal _] [m Hm]. destruct (decide (ma < fs_next f)) as [|Hge]; [done|].
  destruct (Hal ma) as [_ Hn]; [lia|]. by rewrite Hn in Hm.
Qed.

(** Allocating a node whose child map is nil. *)
Lemma well_formed_alloc f o :
  well_formed f → (∀ dir, o = ODir dir → d_Children dir = None) →
  well_formed (set_fs_next (S (fs_next f))
                 (set_fs_heap (<[fs_next f := o]> (fs_heap f)) f)).
Proof.
  intros [Hal Hch] Ho. destruct f as [? ? ? ? ? ? ? ? ? ? ? ? hp mp nx]; simpl in *.
  split; simpl.
  - intros a Ha. rewrite lookup_insert_ne by lia. apply Hal. lia.
  - intros a dir ma Ha Hc. destruct (decide (a = nx)) as [->|Hne].
    + rewrite lookup_insert_eq in Ha. injection Ha as ->.
      rewrite (Ho dir eq_refl) in Hc. done.
    + rewrite lookup_insert_ne in Ha by done. by eapply Hch.
Qed.

(** Changing the entries of a map that is there. *)
Lemma well_formed_maps f (ma : addr) m :
  well_formed f → is_Some (fs_maps f !! ma) →
  well_formed (set_fs_maps (<[ma := m]> (fs_maps f)) f).
Proof.
  intros Hwf Hma. pose proof (well_formed_map_lt f ma Hwf Hma) as Hlt.
  destruct Hwf as [Hal Hch]. destruct f; simpl in *. split; simpl.
  - intros a Ha. rewrite lookup_insert_ne by lia. by apply Hal.
  - intros a dir ma' Ha Hc. destruct (decide (ma' = ma)) as [->|Hne].
    + rewrite lookup_insert_eq. by eexists.
    + rewrite lookup_insert_ne by done. by eapply Hch.
Qed.

Lemma well_formed_bs f c : well_formed f → well_formed (set_fs_bs c f).
Proof. by destruct f. Qed.

Lemma reload_body_inv f d dir ma ref g g' :
  reloading f d dir ma g →
  (match ref with
   | RefPair _ _ => panic "interface conversion: not a string"
   | RefStr h =>
       blob <~ bs_Get h ;;
       m <~ lift (NewMetaFromBlob h blob) ;;
       c <~ (if IsDir m then NewDir m (Some d) else NewFile m (Some d)) ;;
       children_insert d (Name m) c
   end) g = (Ok tt, g') →
  reloading f d dir ma g'.
Proof.
  intros (Hwf & Hle & Hd & Hr & Hi & Hold) Hrun.
  destruct ref as [h|]; [|done].
  apply bind_Ok in Hrun as (blob & g1 & Hget & Hrun).
  apply bind_Ok in Hrun as (m & ? & Hm' & Hrun). injection Hm' as _ <-.
  apply bind_Ok in Hrun as (c & g2 & Hnew & Hrun).
  assert (Hg1 : g1 = set_fs_bs (fs_bs g1) g).
  { unfold bs_Get in Hget. destruct (cache.Get (fs_bs g) h) as [rr cc].
    injection Hget as _ <-. by destruct g. }
  assert (Hwf1 : well_formed g1) by (rewrite Hg1; by apply well_formed_bs).
  assert (Hd1 : fs_heap g1 !! d
                = Some (ODir (mkDir (d_meta dir) (d_parent dir) (Some ma)))).
  { rewrite Hg1. by destruct g. }
  assert (Hg2 : ∃ o, (∀ dir', o = ODir dir' → d_Children dir' = None) ∧
            c = fs_next g1 ∧
            g2 = set_fs_next (S (fs_next g1))
                   (set_fs_heap (<[fs_next g1 := o]> (fs_heap g1)) g1)).
  { destruct (IsDir m); unfold NewDir, NewFile, alloc in Hnew;
      injection Hnew as <- <-; eexists; (split; [|done]); by intros ? [= <-]. }
  destruct Hg2 as (o & Ho & -> & ->).
  pose proof (well_formed_alloc g1 o Hwf1 Ho) as Hwf2.
  pose proof (well_formed_lt g1 d _ Hwf1 Hd1) as Hdlt.
  match type of Hrun with children_insert _ _ _ ?g = _ => set (g2 := g) in * end.
  assert (Hd2 : fs_heap g2 !! d
                = Some (ODir (mkDir (d_meta dir) (d_parent dir) (Some ma)))).
  { unfold g2. destruct g1; simpl in *. rewrite lookup_insert_ne by lia. done. }
  rewrite (children_insert_run d g2 _ ma (Name m) (fs_next g1) Hd2 eq_refl) in Hrun.
  injection Hrun as <-.
  assert (Hma2 : is_Some (fs_maps g2 !! ma)).
  { destruct Hwf2 as [_ Hch]. by eapply (Hch d). }
  split_and!.
  - exact (well_formed_maps g2 ma _ Hwf2 Hma2).
  - unfold g2. rewrite Hg1. destruct g; simpl in *. lia.
  - by destruct g2.
  - unfold g2. rewrite Hg1. by destruct g.
  - unfold g2. rewrite Hg1. by destruct g.
  - intros a o' Hne Ha. specialize (Hold a o' Hne Ha).
    assert (a < fs_next g1).
    { apply (well_formed_lt g1 a o'); [done|]. rewrite Hg1. by destruct g. }
    unfold g2. rewrite Hg1 in *. destruct g; simpl in *.
    rewrite lookup_insert_ne by lia. done.
Qed.

Lemma reload_loop_inv f d dir ma refs g g' :
  reloading f d dir ma g →
  forM_ refs (λ ref,
    match ref with
    | RefPair _ _ => panic "interface conversion: not a string"
    | RefStr h =>
        blob <~ bs_Get h ;;
        m <~ lift (NewMetaFromBlob h blob) ;;
        c <~ (if IsDir m then NewDir m (Some d) else NewFile m (Some d)) ;;
        children_insert d (Name m) c
    end) g = (Ok tt, g') →
  reloading f d dir ma g'.
Proof.
  revert g. induction refs as [|ref refs IH]; intros g Hinv Hrun; simpl in Hrun.
  - by injection Hrun as <-.
  - apply bind_Ok in Hrun as ([] & g1 & Hbody & Hrun).
    apply (IH g1); [|done]. by eapply reload_body_inv.
Qed.

(** After [reload_if_nil] the children of the directory are loaded, the state
    is well formed and the working root is still the top. *)
Lemma reload_if_nil_Ok d f g :
  well_formed f → (∀ r, fs_root f = Some r → is_top f d r) →
  reload_if_nil d f = (Ok tt, g) →
  well_formed g ∧ (∀ r, fs_root g = Some r → is_top g d r) ∧
  fs_immutable g = fs_immutable f ∧
  ∃ dir ma, fs_heap g !! d = Some (ODir dir) ∧ d_Children dir = Some ma.
Proof.
  intros Hwf Hroot Hrun. unfold reload_if_nil in Hrun.
  apply bind_Ok in Hrun as (dir & ? & Hdir & Hrun).
  unfold get_dir in Hdir. destruct (fs_heap f !! d) as [[dir0|]|] eqn:Hd; try done.
  injection Hdir as -> <-.
  destruct (d_Children dir) as [ma|] eqn:Hc.
  { injection Hrun as <-. split_and!; try done. by exists dir, ma. }
  unfold Dir_reload in Hrun.
  apply bind_Ok in Hrun as (dir1 & ? & Hdir & Hrun).
  unfold get_dir in Hdir. rewrite Hd in Hdir. injection Hdir as <- <-.
  apply bind_Ok in Hrun as (ma & g1 & Hal & Hrun). injection Hal as <- <-.
  apply bind_Ok in Hrun as ([] & g2 & Hset & Hrun). injection Hset as <-.
  match type of Hrun with forM_ _ _ ?g0 = _ => set (g2 := g0) in * end.
  assert (Hinv : reloading f d dir (fs_next f) g2).
  { pose proof (well_formed_lt f d _ Hwf Hd) as Hdlt.
    destruct Hwf as [Hal Hch]. unfold g2. split_and!.
    - destruct f as [? ? ? ? ? ? ? ? ? ? ? ? hp mp nx]; simpl in *. split; simpl.
      + intros a Ha. rewrite !lookup_insert_ne by lia. apply Hal. lia.
      + intros a dir' ma' Ha Hc'. destruct (decide (a = d)) as [->|Hne].
        * rewrite lookup_insert_eq in Ha. injection Ha as <-. simpl in Hc'.
          injection Hc' as <-. rewrite lookup_insert_eq. by eexists.
        * rewrite lookup_insert_ne in Ha by done.
          destruct (Hch a dir' ma' Ha Hc') as [m Hm].
          rewrite lookup_insert_ne; [by eexists|].
          intros <-. destruct (Hal nx) as [_ Hn]; [lia|]. by rewrite Hn in Hm.
    - destruct f; simpl. lia.
    - destruct f; simpl. by rewrite lookup_insert_eq.
    - by destruct f.
    - by destruct f.
    - intros a o Hne Ha. destruct f; simpl in *. by rewrite lookup_insert_ne. }
  apply (reload_loop_inv f d dir _ _ g2 g Hinv) in Hrun.
  destruct Hrun as (Hwf' & _ & Hd' & Hr' & Hi' & Hold).
  split_and!; try done.
  - intros r Hr. rewrite Hr' in Hr. apply (is_top_ext f g d r); [|by apply Hroot].
    intros a dir' Ha. destruct (decide (a = d)) as [->|Hne].
    + eexists. split; [exact Hd'|]. simpl. congruence.
    + exists dir'. split; [|done]. by apply Hold.
  - eexists _, _. split; [exact Hd'|done].
Qed.
End Reload.

(** ** Mkdir, Create and Remove, then Lookup *)

Section RoundTrips2.
Context {ext : Externals} {io : FileIO}.

Lemma well_formed_lastOP f now : well_formed f → well_formed (set_fs_lastOP now f).
Proof. by destruct f. Qed.

Lemma well_formed_same_tree f f' : same_tree f f' → well_formed f → well_formed f'.
Proof.
  intros (Hs & Hm & Hn & _) [Hal Hch]. split.
  - intros a Ha. rewrite Hn in Ha. destruct (Hal a Ha) as [Hh Hmm].
    rewrite Hm. split; [|done]. specialize (Hs a). rewrite Hh in Hs.
    by destruct (fs_heap f' !! a) as [[?|?]|].
  - intros a dir ma Ha Hc. rewrite Hm. specialize (Hs a). rewrite Ha in Hs.
    destruct (fs_heap f !! a) as [[dir0|?]|] eqn:Ha0; simpl in Hs; try done.
    injection Hs as _ _ Hc0. apply (Hch a dir0 ma Ha0). congruence.
Qed.

(** The first steps of the operations on a directory: the time stamp, the
    guard and the reload. *)
Lemma enter_dir now d f g :
  well_formed f → (∀ r, fs_root f = Some r → is_top f d r) →
  reload_if_nil d (set_fs_lastOP now f) = (Ok tt, g) →
  well_formed g ∧ (∀ r, fs_root g = Some r → is_top g d r) ∧
  fs_immutable g = fs_immutable f ∧
  ∃ dir ma, fs_heap g !! d = Some (ODir dir) ∧ d_Children dir = Some ma ∧
            is_Some (fs_maps g !! ma).
Proof.
  intros Hwf Hroot Hrun.
  destruct (reload_if_nil_Ok d (set_fs_lastOP now f) g) as (Hwf' & Ht & Hi & dir & ma & Hd & Hc);
    [by apply well_formed_lastOP| |done|].
  { intros r Hr. apply (is_top_heap f); [by destruct f|]. apply Hroot. by destruct f. }
  split_and!; try done; try (rewrite Hi; by destruct f).
  exists dir, ma. split_and!; try done. destruct Hwf' as [_ Hch]. by eapply Hch.
Qed.

(** X4: A directory made by [Mkdir] is found by [Lookup] under its name: it is
    an empty directory of that name whose parent is the directory it was
    made in. *)
Theorem Dir_Mkdir_then_Lookup (fuel : nat) (rg : MapRange) (now : string)
    (d : addr) (name : string) (f f' : FS) (nd : addr) :
  well_formed f → (∀ r, fs_root f = Some r → is_top f d r) →
  name ≠ ".blobfs_socket" → strings_HasSuffix name debugSuffix = false →
  Dir_Mkdir fuel rg now d name f = (Ok nd, f') →
  (∀ sock now',
     Dir_Lookup sock now' d name f' = (Ok (LNode nd), set_fs_lastOP now' f')) ∧
  ∃ ndir, fs_heap f' !! nd = Some (ODir ndir) ∧
          Name (d_meta ndir) = name ∧ d_parent ndir = Some d ∧
          children_of f' ndir = ∅.
Proof.
  intros Hwf0 Hroot0 Hsock Hsuf Hrun. unfold Dir_Mkdir in Hrun.
  apply bind_Ok in Hrun as ([] & f0 & Hop & Hrun). injection Hop as <-.
  apply bind_Ok in Hrun as (imm & ? & Himm & Hrun). injection Himm as <- <-.
  destruct (fs_immutable f); [discriminate Hrun|].
  apply bind_Ok in Hrun as ([] & g1 & Hrel & Hrun).
  destruct (enter_dir now d f g1 Hwf0 Hroot0 Hrel)
    as (Hwf & Hroot & _ & dir & ma & Hd & Hc & Hma).
  clear Hrel Hwf0 Hroot0. 
  apply bind_Ok in Hrun as (c & ? & Hlk & Hrun).
  rewrite (children_lookup_run d _ dir name Hd) in Hlk. injection Hlk as <- <-.
  destruct (children_of g1 dir !! name) eqn:Hfree; [discriminate Hrun|].
  apply bind_Ok in Hrun as (ma' & g2a & Ham & Hrun). injection Ham as <- <-.
  apply bind_Ok in Hrun as (n1 & g2 & Han & Hrun). injection Han as <- <-.
  apply bind_Ok in Hrun as ([] & g3 & Hsave1 & Hrun).
  apply bind_Ok in Hrun as (nd0 & ? & Hnd & Hrun).
  apply bind_Ok in Hrun as ([] & g4 & Hins & Hrun).
  apply bind_Ok in Hrun as ([] & g5 & Hsave2 & Hrun).
  injection Hrun as <- <-.
  destruct Hwf as [Hal Hch].
  set (n0 := fs_next g1) in *. set (n1 := S n0) in *.
  set (newdir := mkDir (set_Name NewMeta name) (Some d) (Some n0)) in *.
  match type of Hsave1 with Dir_Save _ _ _ _ ?g = _ => set (g2 := g) in * end.
  assert (Hdn1 : d ≠ n1).
  { intros Heq. destruct (Hal n1) as [Hn _]; [unfold n1, n0; lia|].
    rewrite Heq in Hd. by rewrite Hn in Hd. }
  assert (Hman0 : ma ≠ n0).
  { intros Heq. destruct (Hal n0) as [_ Hn]; [done|]. rewrite Heq, Hn in Hma.
    by destruct Hma. }
  assert (Hg2d : fs_heap g2 !! d = Some (ODir dir)).
  { unfold g2. destruct g1; simpl in *. by rewrite lookup_insert_ne. }
  assert (Hg2n : fs_heap g2 !! n1 = Some (ODir newdir)).
  { unfold g2. destruct g1; simpl in *. by rewrite lookup_insert_eq. }
  assert (Hg2m : fs_maps g2 = <[n0 := ∅]> (fs_maps g1)).
  { unfold g2. by destruct g1. }
  assert (Hg2r : fs_root g2 = fs_root g1) by (unfold g2; by destruct g1).
  assert (Htop2 : ∀ r, fs_root g2 = Some r → is_top g2 d r).
  { intros r Hr. rewrite Hg2r in Hr. specialize (Hroot r Hr).
    apply (is_top_alloc g1 d r n1 (ODir newdir)) in Hroot.
    - apply (is_top_heap _ g2) in Hroot; [done|]. unfold g2. by destruct g1.
    - destruct (Hal n1) as [Hn _]; [unfold n1, n0; lia|done]. }
  assert (T23 : same_tree g2 g3).
  { pose proof (Dir_Save_same_tree rg now fuel n1 g2) as Hs. rewrite Hsave1 in Hs.
    apply Hs. intros r Hr. eapply top_up; [exact Hg2n|done|]. by apply Htop2. }
  destruct (same_tree_dir g2 g3 d dir T23 Hg2d) as (dir3 & Hg3d & _ & _ & Hc3).
  destruct (same_tree_dir g2 g3 n1 newdir T23 Hg2n) as (nd3 & Hg3n & Hn3 & Hp3 & Hc33).
  unfold get_dir in Hnd. rewrite Hg3n in Hnd. injection Hnd as <- <-.
  rewrite Hc in Hc3.
  assert (Htop3 : ∀ r, fs_root g3 = Some r → is_top g3 d r).
  { intros r Hr. apply (is_top_same_tree g2); [done|]. apply Htop2.
    destruct T23 as (_&_&_&Hr3&_). congruence. }
  assert (T45 : same_tree
            (set_fs_maps (<[ma := <[Name (d_meta nd3) := n1]>
                                    (default ∅ (fs_maps g3 !! ma))]> (fs_maps g3)) g3) g5).
  { apply (insert_then_Save fuel rg now d _ n1 g3 g5 dir3 ma Hg3d Hc3 Htop3).
    unfold bind. by rewrite Hins. }
  simpl in Hn3. rewrite Hn3 in T45.
  match type of T45 with same_tree ?g _ => set (g4' := g) in * end.
  assert (Hg4d : fs_heap g4' !! d = Some (ODir dir3)) by (unfold g4'; by destruct g3).
  assert (Hg4n : fs_heap g4' !! n1 = Some (ODir nd3)) by (unfold g4'; by destruct g3).
  destruct (same_tree_dir g4' g5 d dir3 T45 Hg4d) as (dir5 & Hg5d & _ & _ & Hc5).
  destruct (same_tree_dir g4' g5 n1 nd3 T45 Hg4n) as (nd5 & Hg5n & Hn5 & Hp5 & Hc55).
  assert (Hm5 : fs_maps g5 = <[ma := <[name := n1]> (default ∅ (fs_maps g3 !! ma))]>
                               (fs_maps g3)).
  { destruct T45 as (_&Hm&_). rewrite Hm. unfold g4'. by destruct g3. }
  split.
  - intros sock now'.
    rewrite (Dir_Lookup_loaded sock now' d name g5 dir5 ma Hg5d); try done; [|congruence].
    rewrite Hm5, lookup_insert_eq. simpl. by rewrite lookup_insert_eq.
  - exists nd5. split; [done|]. split; [congruence|]. split; [by rewrite Hp5, Hp3|].
    unfold children_of. rewrite Hc55, Hc33. simpl. rewrite Hm5.
    rewrite lookup_insert_ne by done.
    destruct T23 as (_&Hm3&_). rewrite Hm3, Hg2m. by rewrite lookup_insert_eq.
Qed.






(** X7: [Remove] does not look whether the name is there: on a directory whose
    children are loaded and have no such name it does what a Save of the
    directory does. *)
Theorem Dir_Remove_missing_is_Save (fuel : nat) (rg : MapRange) (now : string)
    (d : addr) (name : string) (f : FS) (dir : Dir) (ma : addr) :
  Immutable f = false →
  fs_heap f !! d = Some (ODir dir) → d_Children dir = Some ma →
  is_Some (fs_maps f !! ma) → children_of f dir !! name = None →
  Dir_Remove fuel rg now d name f = Dir_Save fuel rg now d (set_fs_lastOP now f).
Proof.
  intros Him Hd Hc [m Hm] Hfree. unfold Dir_Remove.
  unfold bind at 1. unfold updateLastOP, modify.
  unfold bind at 1. unfold gets.
  assert (Immutable (set_fs_lastOP now f) = false) as -> by (by destruct f).
  assert (Hd0 : fs_heap (set_fs_lastOP now f) !! d = Some (ODir dir)) by (by destruct f).
  unfold bind at 1. rewrite (reload_if_nil_loaded d _ dir ma Hd0 Hc).
  unfold bind. rewrite (children_delete_run d _ dir ma name Hd0 Hc).
  f_equal. unfold children_of in Hfree. rewrite Hc, Hm in Hfree. simpl in Hfree.
  destruct f; simpl in *. unfold set_fs_maps, set_fs_lastOP. simpl. f_equal.
  rewrite Hm. simpl. rewrite delete_id by done. by apply insert_id.
Qed.
End RoundTrips2.

(** ** Extended attributes *)

Section FileXattr.
Context {ext : Externals} {io : FileIO}.

Lemma handleGetxattr_plain host m name xs :
  is_virtualXAttr name = false → name ≠ "url.semiprivate" →
  XAttrs m = Some xs →
  handleGetxattr host m name
  = match xs !! name with
    | Some v => Ok (list_byte_of_string v)
    | None => Err ErrNoXattr
    end.
Proof.
  intros Hvirt Hsemi Hx. unfold handleGetxattr.
  unfold is_virtualXAttr in Hvirt. apply orb_false_iff in Hvirt as [Hr Hu].
  rewrite Hr. rewrite bool_decide_eq_false_2 by done. rewrite Hu. simpl.
  by rewrite Hx.
Qed.

Lemma File_Getxattr_run host now a name f fl p :
  fs_heap f !! a = Some (OFile fl) → f_parent fl = Some p →
  File_Getxattr host now a name f
  = (handleGetxattr host (f_meta fl) name, set_fs_lastOP now f).
Proof.
  intros Ha Hp. unfold File_Getxattr.
  assert (Ha0 : fs_heap (set_fs_lastOP now f) !! a = Some (OFile fl)) by (by destruct f).
  unfold bind at 1. unfold updateLastOP, modify.
  unfold bind at 1. unfold get_file. rewrite Ha0.
  unfold bind. rewrite Hp. unfold deref_opt, ret, lift.
  by destruct (handleGetxattr host (f_meta fl) name).
Qed.

Lemma File_Listxattr_run (rg : MapRange) now a f fl :
  fs_heap f !! a = Some (OFile fl) →
  File_Listxattr rg now a f
  = (Ok (handleListxattr rg (f_meta fl)), set_fs_lastOP now f).
Proof.
  intros Ha. unfold File_Listxattr.
  assert (Ha0 : fs_heap (set_fs_lastOP now f) !! a = Some (OFile fl)) by (by destruct f).
  unfold bind at 1. unfold updateLastOP, modify.
  unfold bind. unfold get_file. by rewrite Ha0.
Qed.

(** The state after a file changed its Meta and was saved. *)
Lemma File_Save_after_set fuel (rg : MapRange) now a f fl fl' p f' :
  Immutable f = false →
  fs_heap f !! a = Some (OFile fl) → f_parent fl = Some p → f_parent fl' = Some p →
  (∀ r, fs_root f = Some r → is_top f p r) →
  (set_obj a (OFile fl') ;;; File_Save fuel rg now a) f = (Ok tt, f') →
  fs_heap f' !! a = Some (OFile fl').
Proof.
  intros Him Ha Hp Hp' Hroot Hrun.
  apply bind_Ok in Hrun as ([] & g & Hset & Hrun). injection Hset as <-.
  match type of Hrun with File_Save _ _ _ _ ?g0 = _ => set (g := g0) in * end.
  assert (Hga : fs_heap g !! a = Some (OFile fl')).
  { unfold g. destruct f; simpl. apply lookup_insert_eq. }
  unfold File_Save in Hrun.
  apply bind_Ok in Hrun as (fl0 & ? & Hfl & Hrun).
  unfold get_file in Hfl. rewrite Hga in Hfl. injection Hfl as <- <-.
  apply bind_Ok in Hrun as (imm & ? & Himm & Hrun). injection Himm as <- <-.
  unfold Immutable in Him. rewrite Him, Hp' in Hrun.
  apply bind_Ok in Hrun as (p0 & ? & Hp0 & Hrun). injection Hp0 as <- <-.
  pose proof (Dir_Save_same_tree rg now fuel p g) as Hs. rewrite Hrun in Hs.
  apply (same_tree_file g f' a fl'); [|done]. apply Hs.
  intros r Hr.
  assert (Hr0 : fs_root f = Some r) by (unfold g in Hr; by destruct f).
  specialize (Hroot r Hr0).
  apply (is_top_ext f g p r); [|done].
  intros b dir Hb. exists dir. split; [|done]. unfold g. destruct f; simpl in *.
  rewrite lookup_insert_ne; [done|]. intros <-. congruence.
Qed.

(** X8: An attribute set on a file is read back by [Getxattr] and listed by
    [Listxattr]. *)
Theorem File_Setxattr_then_Getxattr (fuel : nat) (rg : MapRange) (now : string)
    (a : addr) (name value : string) (f f' : FS) (fl : File) (p : addr) :
  Immutable f = false →
  fs_heap f !! a = Some (OFile fl) → f_parent fl = Some p →
  (∀ r, fs_root f = Some r → is_top f p r) →
  is_virtualXAttr name = false → name ≠ "url.semiprivate" →
  File_Setxattr fuel rg now a name value f = (Ok tt, f') →
  (∀ host now',
     File_Getxattr host now' a name f'
     = (Ok (list_byte_of_string value), set_fs_lastOP now' f')) ∧
  (∀ (rg' : MapRange) now', range_ok rg' →
     ∃ names, File_Listxattr rg' now' a f' = (Ok names, set_fs_lastOP now' f') ∧
              name ∈ names).
Proof.
  intros Him Ha Hp Hroot Hvirt Hsemi Hrun. unfold File_Setxattr in Hrun.
  apply bind_Ok in Hrun as ([] & f0 & Hop & Hrun). injection Hop as <-.
  apply bind_Ok in Hrun as (imm & ? & Himm & Hrun). injection Himm as <- <-.
  unfold Immutable in Him. rewrite Him, Hvirt in Hrun.
  apply bind_Ok in Hrun as (fl0 & ? & Hfl & Hrun).
  assert (Ha0 : fs_heap (set_fs_lastOP now f) !! a = Some (OFile fl)) by (by destruct f).
  unfold get_file in Hfl. rewrite Ha0 in Hfl. injection Hfl as <- <-.
  set (fl' := set_f_meta fl (xattrs_set (f_meta fl) name value)) in *.
  assert (Hsaved : ∃ g, (set_obj a (OFile fl') ;;; File_Save fuel rg now a)
                          (set_fs_lastOP now f) = (Ok tt, g) ∧
                        fs_heap f' = fs_heap g).
  { unfold bind in Hrun |- *.
    destruct (set_obj a (OFile fl') (set_fs_lastOP now f)) as [[[]| | |] g0]; try done.
    destruct (File_Save fuel rg now a g0) as [[[]| | |] g]; try done.
    exists g. split; [reflexivity|]. case_bool_decide; injection Hrun as <-; by destruct g. }
  destruct Hsaved as (g & Hsave & Hheap).
  assert (Hroot0 : ∀ r, fs_root (set_fs_lastOP now f) = Some r
                        → is_top (set_fs_lastOP now f) p r).
  { intros r Hr. apply (is_top_heap f); [by destruct f|]. apply Hroot. by destruct f. }
  assert (Him0 : Immutable (set_fs_lastOP now f) = false) by (by destruct f).
  pose proof (File_Save_after_set fuel rg now a _ fl fl' p g Him0 Ha0 Hp Hp Hroot0 Hsave)
    as Hsaved.
  clear Hsave. rename Hsaved into Hsave.
  rewrite <- Hheap in Hsave.
  assert (Hx : XAttrs (f_meta fl')
               = Some (<[name := value]> (default ∅ (XAttrs (f_meta fl))))) by done.
  split.
  - intros host now'. rewrite (File_Getxattr_run host now' a name f' fl' p Hsave Hp).
    rewrite (handleGetxattr_plain host _ name _ Hvirt Hsemi Hx).
    by rewrite lookup_insert_eq.
  - intros rg' now' Hrg. eexists. split.
    + apply (File_Listxattr_run rg' now' a f' fl' Hsave).
    + unfold handleListxattr. rewrite Hx. apply elem_of_app. right.
      apply elem_of_app. left. apply list_elem_of_fmap.
      exists (name, value). split; [done|]. rewrite (Hrg _ _).
      apply elem_of_map_to_list. apply lookup_insert_eq.
Qed.

(** X9: [File.Removexattr] has no immutability guard: on an immutable filesystem
    it deletes the attribute from the Meta held in memory and returns success;
    [File.Save] then returns without saving, so no store changes. *)
Theorem File_Removexattr_ignores_immutable (fuel : nat) (rg : MapRange)
    (now : string) (a : addr) (name v : string) (f : FS) (fl : File)
    (xs : gmap string string) :
  Immutable f = true →
  fs_heap f !! a = Some (OFile fl) →
  XAttrs (f_meta fl) = Some xs → xs !! name = Some v →
  is_virtualXAttr name = false →
  let fl' := set_f_meta fl (set_XAttrs (f_meta fl) (Some (delete name xs))) in
  let g := set_fs_heap (<[a := OFile fl']> (fs_heap f)) (set_fs_lastOP now f) in
  File_Removexattr fuel rg now a name f
  = (Ok tt, if bool_decide (name = "public") then set_fs_sync (S (fs_sync f)) g else g).
Proof.
  intros Him Ha Hx Hv Hvirt fl' g. unfold g, fl', File_Removexattr. rewrite Hvirt.
  assert (Ha0 : fs_heap (set_fs_lastOP now f) !! a = Some (OFile fl)) by (by destruct f).
  unfold bind at 1. unfold updateLastOP, modify.
  unfold bind at 1. unfold get_file. rewrite Ha0, Hx, Hv.
  unfold Immutable in Him. destruct f; simpl in *. subst.
  unfold bind at 1. unfold set_obj, modify. simpl.
  unfold bind at 1. unfold File_Save.
  unfold bind at 1. unfold get_file. simpl. rewrite lookup_insert_eq.
  unfold bind at 1. unfold gets, Immutable. simpl.
  unfold ret. case_bool_decide; unfold modify; simpl; done.
Qed.


(** X11: Making a directory public goes through [makePublic], which writes into
    the attribute map without making one: on a directory whose Meta has a nil
    attribute map the request panics. *)
Theorem Dir_Setxattr_public_nil_map (fuel : nat) (rg : MapRange) (now : string)
    (d : addr) (f : FS) (dir : Dir) :
  fs_heap f !! d = Some (ODir dir) → XAttrs (d_meta dir) = None →
  Dir_Setxattr (S fuel) rg now d "public" "1" f
  = (Panic "assignment to entry in nil map", set_fs_lastOP now f).
Proof.
  intros Hd Hx. unfold Dir_Setxattr.
  assert (Hd0 : fs_heap (set_fs_lastOP now f) !! d = Some (ODir dir)) by (by destruct f).
  unfold bind at 1. unfold updateLastOP, modify.
  rewrite bool_decide_eq_true_2 by done. cbn [makePublic].
  unfold bind at 1. unfold get_obj. rewrite Hd0.
  rewrite bool_decide_eq_true_2 by done. cbn [obj_Meta]. rewrite Hx.
  reflexivity.
Qed.
End FileXattr.

(** ** Paths and refs *)

Section PathAndRefs.
Context {ext : Externals} {io : FileIO}.

Lemma get_obj_Ok a f o f1 : get_obj a f = (Ok o, f1) → f1 = f ∧ fs_heap f !! a = Some o.
Proof. unfold get_obj. destruct (fs_heap f !! a); [|done]. by intros [= <- <-]. Qed.

Lemma get_dir_Ok a f dir f1 :
  get_dir a f = (Ok dir, f1) → f1 = f ∧ fs_heap f !! a = Some (ODir dir).
Proof. unfold get_dir. destruct (fs_heap f !! a) as [[]|]; try done. by intros [= <- <-]. Qed.

Lemma get_file_Ok a f fl f1 :
  get_file a f = (Ok fl, f1) → f1 = f ∧ fs_heap f !! a = Some (OFile fl).
Proof. unfold get_file. destruct (fs_heap f !! a) as [[]|]; try done. by intros [= <- <-]. Qed.

(** X12: [FS.path] never answers with a directory: what it returns is a file. *)
Theorem FS_path_returns_a_file (rg : MapRange) (fuel : nat) :
  ∀ (n : addr) (lp p : string) (f f' : FS) (r : addr),
    FS_path fuel rg n lp p f = (Ok (Some r), f') →
    ∃ fl, fs_heap f' !! r = Some (OFile fl).
Proof.
  induction fuel as [|fuel IH]; intros n lp p f f' r Hrun; [done|].
  cbn [FS_path] in Hrun.
  apply bind_Ok in Hrun as (o & ? & Ho & Hrun). apply get_obj_Ok in Ho as [-> Ho].
  destruct (obj_IsDir o); [|done].
  apply bind_Ok in Hrun as ([] & g1 & _ & Hrun).
  apply bind_Ok in Hrun as (dir & ? & Hdir & Hrun). apply get_dir_Ok in Hdir as [-> Hdir].
  apply bind_Ok in Hrun as (cs & ? & Hcs & Hrun). injection Hcs as <- <-.
  remember (rg addr (children_of g1 dir)) as cs eqn:Hcs. clear Hcs Hdir.
  revert g1 Hrun. induction cs as [|[k child] cs IHcs]; intros g1 Hrun; [done|].
  apply bind_Ok in Hrun as (no & ? & Hno & Hrun). apply get_obj_Ok in Hno as [-> Hno].
  apply bind_Ok in Hrun as (co & ? & Hco & Hrun). apply get_obj_Ok in Hco as [-> Hco].
  destruct (obj_IsDir co) eqn:Hdirco.
  - apply bind_Ok in Hrun as (rnode & g2 & Hrec & Hrun).
    destruct rnode as [r'|]; [|by apply (IHcs g2)].
    case_bool_decide; [|by apply (IHcs g2)].
    injection Hrun as <- <-. by apply (IH _ _ _ _ _ _ Hrec).
  - case_bool_decide; [|by apply (IHcs g1)].
    injection Hrun as <- <-. destruct co as [|fl]; [done|]. by exists fl.
Qed.

(** X13: [FS.Refs] walks the tree children first: the hash of the root directory
    is the last of the refs, after everything below it. *)
Theorem FS_Refs_root_last (fuel : nat) (rg : MapRange) (r : addr)
    (f f' : FS) (refs : list string) :
  FS_Refs fuel rg (Some r) f = (Ok refs, f') →
  ∃ o, fs_heap f' !! r = Some o ∧
       (obj_IsDir o = true → last refs = Some (Hash (obj_Meta o))).
Proof.
  intros Hrun. unfold FS_Refs in Hrun.
  apply bind_Ok in Hrun as (r0 & ? & Hr & Hrun). injection Hr as <- <-.
  destruct fuel as [|fuel]; [done|]. cbn [iterDir] in Hrun.
  apply bind_Ok in Hrun as ([] & g1 & _ & Hrun).
  apply bind_Ok in Hrun as (d & ? & _ & Hrun).
  apply bind_Ok in Hrun as (cs & ? & _ & Hrun).
  apply bind_Ok in Hrun as (acc & g2 & _ & Hrun).
  unfold Refs_cb in Hrun.
  apply bind_Ok in Hrun as (o & ? & Ho & Hrun). apply get_obj_Ok in Ho as [-> Ho].
  exists o. destruct (obj_IsDir o).
  - injection Hrun as <- <-. split; [done|]. intros _. apply last_snoc.
  - assert (f' = g2) as ->; [|by split].
    revert Hrun. generalize (acc ++ [Hash (obj_Meta o)]) as acc0.
    induction (Refs (obj_Meta o)) as [|[h|i h] l IHl]; intros acc0 Hrun; simpl in Hrun.
    + by injection Hrun as _ <-.
    + done.
    + by apply (IHl _ Hrun).
Qed.
End PathAndRefs.

(** ** What a Push commits *)

Section PushFacts.
Context {ext : Externals}.

(** X14: [Push] reads the root of the local mount before anything else: on a
    filesystem that has no local mount, as after a start from the remote
    track alone, it panics on the nil pointer and changes nothing. *)
Theorem FS_Push_without_local_mount (fuel : nat) (rg : MapRange)
    (comment : option string) (f : FS) :
  fs_local f = None →
  FS_Push fuel rg comment f = (Panic nil_deref, f).
Proof.
  intros Hl. unfold FS_Push, bind, FS_Mount, deref_opt, gets, ret, panic.
  rewrite Hl. destruct (fs_remote f) as [m|]; [|done].
  destruct (m_root m); [|done]. by rewrite Hl.
Qed.

Lemma vkv_Put_Ok db key ref data v kv db' :
  vkv_Put db key ref data v = (Ok kv, db') →
  history db' key = history db key ++ [kv] ∧
  kv_Hash kv = ref ∧ kv_Data kv = data ∧ (v ≠ (-1)%Z → kv_Version kv = v) ∧
  (∀ key', key' ≠ key → history db' key' = history db key').
Proof.
  unfold vkv_Put. destruct (offline db); [done|].
  case_bool_decide as Hv; [|done]. intros [= <- <-]. unfold history. simpl.
  rewrite lookup_insert_eq. simpl. split_and!; try done.
  - intros Hne. by rewrite bool_decide_eq_false_2.
  - intros key' Hne. by rewrite lookup_insert_ne.
Qed.

Ltac ss_prims :=
  first [ apply ss_set_obj | apply ss_alloc | apply ss_alloc_map | apply ss_bs_Get
        | apply ss_set_maps | apply ss_reload_if_nil ].

Lemma ss_chunk_refs irefs refs : keeps same_session (chunk_refs irefs refs).
Proof.
  revert refs. induction irefs as [|[h|i h] l IH]; intros refs; simpl;
    repeat keep_step ss_prims.
Qed.

Lemma ss_Refs_cb node refs : keeps same_session (Refs_cb node refs).
Proof. unfold Refs_cb. pose proof ss_chunk_refs. repeat keep_step ss_prims. Qed.

Lemma ss_iterDir {A} fuel (rg : MapRange) (cb : addr → A → M A) :
  (∀ a acc, keeps same_session (cb a acc)) →
  ∀ dir acc, keeps same_session (iterDir fuel rg cb dir acc).
Proof.
  intros Hcb. induction fuel as [|fuel IH]; intros dir acc.
  { apply keeps_out_of_fuel; apply _. }
  cbn [iterDir].
  apply keeps_bind; [apply _|apply ss_reload_if_nil|intros _].
  apply keeps_bind; [apply _|apply keeps_get_dir; apply _|intros d].
  apply keeps_bind; [apply _|apply keeps_gets; apply _|intros cs].
  apply keeps_bind; [apply _| |intros acc'; apply Hcb].
  revert acc. induction cs as [|[k node] cs IHcs]; intros acc.
  - apply keeps_ret; apply _.
  - apply keeps_bind; [apply _|apply keeps_get_obj; apply _|intros o].
    apply keeps_bind; [apply _| |intros acc'; apply IHcs].
    destruct (obj_IsDir o); [apply IH|apply Hcb].
Qed.

Lemma ss_FS_Refs fuel rg r : keeps same_session (FS_Refs fuel rg r).
Proof.
  unfold FS_Refs. apply keeps_bind; [apply _|apply keeps_deref_opt; apply _|intros a].
  apply ss_iterDir. apply ss_Refs_cb.
Qed.

Lemma ss_kvDataToDir data v : keeps same_session (FS_kvDataToDir data v).
Proof. unfold FS_kvDataToDir, NewDir. repeat keep_step ss_prims. Qed.

Lemma ss_bs_StatRemote h : keeps same_session (bs_StatRemote h).
Proof. prim. Qed.

Lemma ss_bs_PutRemote h b : keeps same_session (bs_PutRemote h b).
Proof.
  intros f. unfold bs_PutRemote. destruct (cache.PutRemote (fs_bs f) h b) as [r c].
  by destruct f.
Qed.

(** X15: What a [Push] that goes past its guard and succeeds has committed: the
    root of the local mount, with the comment when one is given, is the new
    head of the remote track and of the local mirror track, and it is the root
    of the local mount. *)
Theorem FS_Push_commits (fuel : nat) (rg : MapRange) (comment : option string)
    (f f' : FS) (m l : Mount) (mroot lroot : Root) :
  FS_Mount f = Ok (Some m) → m_root m = Some mroot →
  fs_local f = Some l → m_root l = Some lroot →
  Ref mroot = Ref lroot →
  FS_Push fuel rg comment f = (Ok tt, f') →
  let key := rootKeyFmt (fs_name f) in
  let croot := match comment with Some c => set_Comment lroot c | None => lroot end in
  ∃ js kvr kvl,
    Root_JSON croot = Ok js ∧
    history (fs_rkv f') key = history (fs_rkv f) key ++ [kvr] ∧
    history (fs_lkv f') key = history (fs_lkv f) key ++ [kvl] ∧
    kv_Data kvr = js ∧ kv_Data kvl = js ∧
    (Version croot ≠ (-1)%Z →
       kv_Version kvr = Version croot ∧ kv_Version kvl = Version croot) ∧
    fs_local f' = Some (mkMount (m_immutable l) (m_node l) (Some croot)).
Proof.
  intros Hm Hmr Hl Hlr Href Hrun key croot. unfold FS_Push in Hrun.
  apply bind_Ok in Hrun as (mo & ? & Hmo & Hrun). injection Hmo as Hmo <-.
  rewrite Hm in Hmo. injection Hmo as <-.
  apply bind_Ok in Hrun as (m0 & ? & Hm0 & Hrun). injection Hm0 as <- <-.
  rewrite Hmr in Hrun.
  apply bind_Ok in Hrun as (mr & ? & Hmr0 & Hrun). injection Hmr0 as <- <-.
  apply bind_Ok in Hrun as (lo & ? & Hlo & Hrun). injection Hlo as <- <-.
  rewrite Hl in Hrun.
  apply bind_Ok in Hrun as (l0 & ? & Hl0 & Hrun). injection Hl0 as <- <-.
  rewrite Hlr in Hrun.
  apply bind_Ok in Hrun as (lr & ? & Hlr0 & Hrun). injection Hlr0 as <- <-.
  rewrite bool_decide_eq_false_2 in Hrun by (intros Hne; by apply Hne).
  apply bind_Ok in Hrun as (name & ? & Hname & Hrun). injection Hname as <- <-.
  apply bind_Ok in Hrun as (remoteKv & g0 & Hget & Hrun).
  assert (g0 = f) as ->.
  { unfold get_opt, rkv_Get in Hget.
    destruct (vkv_Get _ _ _ _) as [kv|e| |]; try done; [by injection Hget|].
    case_decide; by injection Hget. }
  apply bind_Ok in Hrun as ([] & g1 & Hdec & Hrun).
  assert (S1 : same_session f g1).
  { destruct remoteKv as [kv|]; [|by injection Hdec as <-].
    apply bind_Ok in Hdec as (rd & g & Hkv & Hdec). injection Hdec as <-.
    pose proof (ss_kvDataToDir (kv_Data kv) (kv_Version kv) f) as Hs.
    by rewrite Hkv in Hs. }
  apply bind_Ok in Hrun as ([] & g2 & Hsetl & Hrun). injection Hsetl as <-.
  apply bind_Ok in Hrun as (r & ? & Hr & Hrun). injection Hr as <- <-.
  apply bind_Ok in Hrun as (refs & g3 & Hrefs & Hrun).
  match type of Hrefs with FS_Refs _ _ ?r0 ?g = _ =>
    set (g2 := g) in *; pose proof (ss_FS_Refs fuel rg r0 g2) as S23 end.
  rewrite Hrefs in S23. simpl in S23.
  apply bind_Ok in Hrun as ([] & g4 & Hup & Hrun).
  assert (S34 : same_session g3 g4).
  { match type of Hup with forM_ ?l ?b _ = _ =>
      assert (Hk : keeps same_session (forM_ l b)) end.
    { repeat keep_step
        ltac:(first [apply ss_bs_StatRemote | apply ss_bs_PutRemote | apply ss_bs_Get]). }
    specialize (Hk g3). by rewrite Hup in Hk. }
  apply bind_Ok in Hrun as (js & ? & Hjs & Hrun). injection Hjs as Hjs <-.
  apply bind_Ok in Hrun as (kvr & g5 & Hputr & Hrun).
  apply bind_Ok in Hrun as (kvl & g6 & Hputl & Hrun).
  injection Hrun as <-.
  unfold rkv_Put in Hputr.
  destruct (vkv_Put (fs_rkv g4) _ _ _ _) as [rr dbr] eqn:Hvr.
  injection Hputr as -> <-.
  unfold lkv_Put in Hputl.
  destruct (vkv_Put (fs_lkv (set_fs_rkv dbr g4)) _ _ _ _) as [rl dbl] eqn:Hvl.
  injection Hputl as -> <-.
  assert (S4 : fs_lkv g4 = fs_lkv f ∧ fs_rkv g4 = fs_rkv f ∧
               fs_local g4 = Some (mkMount (m_immutable l) (m_node l) (Some croot))).
  { destruct S1 as (_&_&_&_&_&_&_&_&_&Hk1&Hr1).
    destruct S23 as (_&_&_&_&_&_&_&Hl2&_&Hk2&Hr2).
    destruct S34 as (_&_&_&_&_&_&_&Hl3&_&Hk3&Hr3).
    rewrite Hk3, Hk2, Hr3, Hr2, Hl3, Hl2. unfold g2.
    destruct g1; simpl in *. by rewrite Hk1, Hr1. }
  destruct S4 as (Hlkv4 & Hrkv4 & Hloc4).
  assert (Hlkv5 : fs_lkv (set_fs_rkv dbr g4) = fs_lkv f) by (by destruct g4).
  rewrite Hlkv5 in Hvl. rewrite Hrkv4 in Hvr.
  apply vkv_Put_Ok in Hvr as (Hhr & _ & Hdr & Hver & _).
  apply vkv_Put_Ok in Hvl as (Hhl & _ & Hdl & Hvel & _).
  assert (Hf' : fs_rkv (set_fs_lkv dbl (set_fs_rkv dbr g4)) = dbr ∧
                fs_lkv (set_fs_lkv dbl (set_fs_rkv dbr g4)) = dbl ∧
                fs_local (set_fs_lkv dbl (set_fs_rkv dbr g4)) = fs_local g4)
    by (by destruct g4).
  destruct Hf' as (-> & -> & ->).
  exists js, kvr, kvl. split; [exact Hjs|]. split; [exact Hhr|]. split; [exact Hhl|].
  split; [exact Hdr|]. split; [exact Hdl|]. split; [|exact Hloc4].
  intros Hne. split; [by apply Hver|by apply Hvel].
Qed.
End PushFacts.

(** ** Pull, the diff, and writes at the end of the buffer *)

Section PullFacts.
Context {ext : Externals}.

Lemma FS_Pull_run_not_ahead fuel (rg : MapRange) srt now f l r :
  vkv_Get ErrKeyNotFound (fs_rkv f) (rootKeyFmt (fs_name f)) (-1) = Ok r →
  vkv_Get ErrNotFound (fs_lkv f) (rootKeyFmt (fs_name f)) (-1) = Ok l →
  (kv_Version r ≤ kv_Version l)%Z →
  FS_Pull fuel rg srt now f
  = match kv_to_dir_unchecked (Some r) f with
    | (Ok _, g) =>
        (if bool_decide (kv_Version r = kv_Version l) then Ok tt
         else Err (Errorf "BlobStash seems out of sync"), g)
    | (Err e, g) => (Err e, g)
    | (Panic w, g) => (Panic w, g)
    | (OutOfFuel, g) => (OutOfFuel, g)
    end.
Proof.
  intros Hr Hl Hle. unfold FS_Pull.
  unfold bind at 1. unfold gets at 1.
  unfold bind at 1. unfold get_opt, rkv_Get. rewrite Hr.
  unfold bind at 1.
  pose proof (kv_to_dir_unchecked_tracks (Some r) f) as T.
  destruct (kv_to_dir_unchecked (Some r) f) as [[x| | |] g] eqn:Hdec; simpl in T;
    try done.
  assert (Hlg : vkv_Get ErrNotFound (fs_lkv g) (rootKeyFmt (fs_name f)) (-1) = Ok l).
  { destruct T as (_ & -> & _). done. }
  unfold bind at 1. unfold lkv_Get. rewrite Hlg.
  unfold bind at 1. unfold gets at 1.
  rewrite (bool_decide_eq_false_2 (kv_Version r > kv_Version l)%Z) by lia.
  destruct (decide (kv_Version r = kv_Version l)) as [Heq|Hne].
  - rewrite (bool_decide_eq_false_2 (kv_Version r < kv_Version l)%Z) by lia.
    by rewrite bool_decide_eq_true_2.
  - rewrite (bool_decide_eq_true_2 (kv_Version r < kv_Version l)%Z) by lia.
    by rewrite bool_decide_eq_false_2.
Qed.

(** X16: When the remote track is not ahead of the local mirror, [Pull] changes
    neither the tracks, nor the mounts, nor the working root; it returns nil
    when the two heads have the same version and an error when the mirror is
    ahead. *)
Theorem FS_Pull_remote_not_ahead (fuel : nat) (rg : MapRange) (srt : Sorter)
    (now : string) (f : FS) (l r : KeyValue) :
  vkv_Get ErrKeyNotFound (fs_rkv f) (rootKeyFmt (fs_name f)) (-1) = Ok r →
  vkv_Get ErrNotFound (fs_lkv f) (rootKeyFmt (fs_name f)) (-1) = Ok l →
  (kv_Version r ≤ kv_Version l)%Z →
  same_tracks f (FS_Pull fuel rg srt now f).2 ∧
  (is_Ok (kv_to_dir_unchecked (Some r) f).1 →
   (FS_Pull fuel rg srt now f).1
   = if bool_decide (kv_Version r = kv_Version l) then Ok tt
     else Err (Errorf "BlobStash seems out of sync")).
Proof.
  intros Hr Hl Hle. rewrite (FS_Pull_run_not_ahead fuel rg srt now f l r Hr Hl Hle).
  pose proof (kv_to_dir_unchecked_tracks (Some r) f) as T.
  destruct (kv_to_dir_unchecked (Some r) f) as [[x| | |] g]; simpl in *;
    (split; [done|]); by intros ?.
Qed.
End PullFacts.

(** X17: The diff of two indexes is empty exactly when they agree on every path
    other than the root. *)
Theorem compareIndex_empty_iff (rg : MapRange) (srt : Sorter)
    (localIndex remoteIndex : gmap string string) :
  range_ok rg → sort_ok srt →
  FS_compareIndex rg srt localIndex remoteIndex = mkDiff [] [] [] ↔
  delete "/" localIndex = delete "/" remoteIndex.
Proof.
  intros Hrg [Hperm _]. unfold FS_compareIndex.
  rewrite fold_diff_remote, fold_diff_local. simpl.
  set (li := delete "/" localIndex). set (ri := delete "/" remoteIndex).
  split.
  - intros [= Ha Hc Hd].
    assert (Hd' : omap (deleted_of ri) (rg string li) = []).
    { apply Permutation_nil_r. by rewrite <- (Hperm _), Hd. }
    apply map_eq. intros p.
    destruct (li !! p) as [lh|] eqn:Hl, (ri !! p) as [rh|] eqn:Hr; try done.
    + destruct (decide (lh = rh)) as [->|Hne]; [done|].
      assert (mkDiffNode p rh ∈ omap (conflicted_of li) (rg string ri)) as Hin.
      { apply (elem_of_conflicted rg); [done|]. split; [done|]. by exists lh. }
      rewrite Hc in Hin. by apply elem_of_nil in Hin.
    + assert (mkDiffNode p lh ∈ omap (deleted_of ri) (rg string li)) as Hin.
      { by apply (elem_of_deleted rg). }
      rewrite Hd' in Hin. by apply elem_of_nil in Hin.
    + assert (mkDiffNode p rh ∈ omap (added_of li) (rg string ri)) as Hin.
      { by apply (elem_of_added rg). }
      rewrite Ha in Hin. by apply elem_of_nil in Hin.
  - intros Heq.
    assert (Ha : omap (added_of li) (rg string ri) = []).
    { apply elem_of_nil_inv. intros [p h] Hin.
      apply (elem_of_added rg) in Hin as [Hr Hl]; [|done]. rewrite Heq in Hl. congruence. }
    assert (Hc : omap (conflicted_of li) (rg string ri) = []).
    { apply elem_of_nil_inv. intros [p h] Hin.
      apply (elem_of_conflicted rg) in Hin as [Hr (lh & Hl & Hne)]; [|done].
      rewrite Heq in Hl. congruence. }
    assert (Hd : omap (deleted_of ri) (rg string li) = []).
    { apply elem_of_nil_inv. intros [p h] Hin.
      apply (elem_of_deleted rg) in Hin as [Hl Hr]; [|done]. rewrite Heq in Hl. congruence. }
    rewrite Ha, Hc, Hd. f_equal. apply Permutation_nil_r. by rewrite (Hperm _).
Qed.

Lemma copy_append_end (buf : option (list byte)) (data : list byte) :
  data ≠ [] ∨ is_Some buf →
  copy_append buf (length (default [] buf)) data = Some (default [] buf ++ data).
Proof.
  intros Hd. unfold copy_append. cbv zeta.
  set (old := default [] buf).
  rewrite Nat.sub_diag. simpl.
  rewrite firstn_all, drop_ge, !app_nil_r by lia.
  case_bool_decide as Hn; [done|].
  assert (data = []) as -> by (apply nil_length_inv; lia).
  rewrite app_nil_r. destruct Hd as [?|[b ->]]; done.
Qed.

(** X18: Writes at the running end of the buffer concatenate: two writes, the
    first at the end of the old contents and the second at the end of the
    first, leave the old contents followed by both pieces of data, and
    [Size] reports their total length. *)
Theorem File_Write_appends (w : IntSize) (now1 now2 : string) (a : addr)
    (d1 d2 : list byte) (f : FS) (fl : File) :
  Immutable f = false →
  fs_heap f !! a = Some (OFile fl) →
  let old := default [] (f_data fl) in
  (Z.of_nat (length old + length d1 + length d2) ≤ maxInt w)%Z →
  d1 ≠ [] →
  let r1 := File_Write w now1 a (Z.of_nat (length old)) d1 f in
  let r2 := File_Write w now2 a (Z.of_nat (length old + length d1)) d2 r1.2 in
  r1.1 = Ok (Z.of_nat (length d1)) ∧ r2.1 = Ok (Z.of_nat (length d2)) ∧
  ∃ fl2, fs_heap r2.2 !! a = Some (OFile fl2) ∧
         f_data fl2 = Some (old ++ d1 ++ d2) ∧
         File_Size r2.2 fl2 = Z.of_nat (length old + length d1 + length d2).
Proof.
  intros Him Ha old Hmax Hd1 r1 r2.
  pose proof (maxInt_bound w) as Hb.
  assert (Hr1 : r1 = (Ok (Z.of_nat (length d1)),
            set_fs_heap (<[a := OFile (set_data (set_updated fl true) (Some (old ++ d1)))]>
                           (fs_heap f)) (set_fs_lastOP now1 f))).
  { unfold r1. rewrite (File_Write_run w now1 a _ d1 f fl Him Ha). cbv zeta.
    rewrite wrap64_small by lia.
    rewrite bool_decide_eq_false_2 by lia.
    rewrite bool_decide_eq_false_2 by (fold old; lia).
    rewrite Nat2Z.id. unfold old. rewrite copy_append_end by (by left). done. }
  set (fl1 := set_data (set_updated fl true) (Some (old ++ d1))) in *.
  assert (Hr2 : r2 = (Ok (Z.of_nat (length d2)),
            set_fs_heap (<[a := OFile (set_data (set_updated fl1 true)
                                         (Some (old ++ d1 ++ d2)))]>
                           (fs_heap r1.2)) (set_fs_lastOP now2 r1.2))).
  { unfold r2. rewrite Hr1. cbn [snd].
    erewrite (File_Write_run w now2 a _ d2 _ fl1).
    2:{ by destruct f. }
    2:{ destruct f; simpl. apply lookup_insert_eq. }
    cbv zeta.
    assert (Hlen : length (default [] (f_data fl1)) = length old + length d1).
    { simpl. by rewrite length_app. }
    rewrite wrap64_small by lia.
    rewrite bool_decide_eq_false_2 by lia.
    rewrite bool_decide_eq_false_2 by lia.
    rewrite Nat2Z.id, <- Hlen.
    change (f_data (set_updated fl1 true)) with (f_data fl1).
    rewrite copy_append_end by (right; by eexists).
    simpl. by rewrite <- app_assoc. }
  split; [by rewrite Hr1|]. split; [by rewrite Hr2|].
  eexists. split; [rewrite Hr2; destruct (r1.2); simpl; apply lookup_insert_eq|].
  split; [done|]. unfold File_Size. simpl.
  assert (Immutable r2.2 = false) as ->.
  { rewrite Hr2, Hr1. by destruct f. }
  rewrite !length_app. lia.
Qed.

(** ** Open and Release *)

Section OpenRelease.
Context {ext : Externals} {io : FileIO}.

Lemma release_counts_counts a g n k :
  open_counts a g = Some (n, k) →
  open_counts a (release_counts a g) = Some (n - 1, k - 1)%Z.
Proof.
  unfold open_counts, release_counts.
  destruct (fs_heap g !! a) as [[dir|fl]|] eqn:Ha; try done.
  intros [= <- <-]. destruct g; simpl in *. by rewrite lookup_insert_eq.
Qed.

Lemma open_counts_set_file a g fl fl' :
  fs_heap g !! a = Some (OFile fl) →
  openCount (f_state fl') = openCount (f_state fl) →
  open_counts a (set_fs_heap (<[a := OFile fl']> (fs_heap g)) g) = open_counts a g.
Proof.
  intros Ha Hc. unfold open_counts. rewrite Ha. destruct g; simpl in *.
  by rewrite lookup_insert_eq, Hc.
Qed.

Lemma open_counts_same_tree a g g' :
  same_tree g g' → open_counts a g' = open_counts a g.
Proof.
  intros (Hs&_&_&_&_&Hfds&_). unfold open_counts. specialize (Hs a).
  destruct (fs_heap g !! a) as [[dir|fl]|], (fs_heap g' !! a) as [[dir'|fl']|];
    simpl in Hs; try done.
  injection Hs as ->. by rewrite Hfds.
Qed.

(** The last step of a last Release. *)
Lemma release_clean_counts a g n k :
  open_counts a g = Some (n, k) →
  open_counts a
    ((fl3 <~ get_file a ;;
      set_obj a (OFile (mkFile None (f_meta fl3) false (f_parent fl3) (f_state fl3)))) g).2
  = Some (n, k).
Proof.
  intros Hc. unfold bind, get_file. unfold open_counts in Hc.
  destruct (fs_heap g !! a) as [[dir|fl]|] eqn:Ha; try done.
  unfold set_obj, modify. cbn [snd].
  rewrite (open_counts_set_file a g fl); [|done|done].
  unfold open_counts. by rewrite Ha.
Qed.

Lemma Release_body_counts fuel (rg : MapRange) now a g fl n k :
  fs_heap g !! a = Some (OFile fl) →
  open_counts a g = Some (n, k) →
  (∀ p r, f_parent fl = Some p → fs_root g = Some r → is_top g p r) →
  open_counts a
    ((fl <~ get_file a ;;
     if bool_decide (openCount (f_state fl) = 1%Z) then
       imm <~ gets Immutable ;;
       match f_data fl with
       | Some data =>
           if negb imm && bool_decide (0 < length data) && updated (f_state fl)
           then
             let m1 := set_Size (f_meta fl) (Z.of_nat (length data)) in
             set_obj a (OFile (set_f_meta fl m1)) ;;;
             m2 <~ (λ f, let r := uploader_PutReader (fs_bs f) (Name m1) data in
                         (r.1, set_fs_bs r.2 f)) ;;
             fl1 <~ get_file a ;;
             set_obj a (OFile (set_f_meta fl1 m2)) ;;;
             p <~ deref_opt (f_parent fl1) ;;
             Dir_Save fuel rg now p ;;;
             fl2 <~ get_file a ;;
             set_obj a (OFile (set_updated fl2 false))
           else ret tt
       | None => ret tt
       end ;;;
       fl3 <~ get_file a ;;
       set_obj a (OFile (mkFile None (f_meta fl3) false (f_parent fl3) (f_state fl3)))
     else ret tt) g).2 = Some (n, k).
Proof.
  intros Ha Hc Htop.
  unfold bind at 1. unfold get_file at 1. rewrite Ha.
  case_bool_decide as H1; [|done].
  unfold bind at 1. unfold gets at 1.
  unfold bind at 1.
  destruct (f_data fl) as [data|] eqn:Hdata.
  2:{ unfold ret at 1. by apply release_clean_counts. }
  destruct (negb (Immutable g) && bool_decide (0 < length data) && updated (f_state fl)).
  2:{ unfold ret at 1. by apply release_clean_counts. }
  cbv zeta.
  unfold bind at 1. unfold set_obj at 1, modify at 1.
  set (g1 := set_fs_heap _ g).
  assert (Hc1 : open_counts a g1 = Some (n, k)).
  { unfold g1. by rewrite (open_counts_set_file a g fl). }
  unfold bind at 1.
  destruct (uploader_PutReader (fs_bs g1) _ data) as [[m2| | |] c] eqn:Hup;
    cbn [fst snd]; try (by destruct g1).
  set (g2 := set_fs_bs c g1).
  assert (Ha2 : fs_heap g2 !! a = Some (OFile (set_f_meta fl
                  (set_Size (f_meta fl) (Z.of_nat (length data)))))).
  { unfold g2, g1. destruct g; simpl. apply lookup_insert_eq. }
  unfold bind at 1. unfold get_file at 1. rewrite Ha2.
  unfold bind at 1. unfold set_obj at 1, modify at 1.
  set (g3 := set_fs_heap _ g2).
  assert (Hc3 : open_counts a g3 = Some (n, k)).
  { unfold g3. erewrite open_counts_set_file; [|exact Ha2|done].
    unfold g2. by destruct g1. }
  unfold bind at 1. cbn [f_parent set_f_meta].
  destruct (f_parent fl) as [p|] eqn:Hp; [|done].
  unfold deref_opt, ret at 1.
  assert (Htop3 : ∀ r, fs_root g3 = Some r → is_top g3 p r).
  { intros r Hr. apply (is_top_shape g); [apply (Htop p r eq_refl); by destruct g|].
    intros x. unfold g3, g2, g1. destruct g; simpl in *.
    destruct (decide (x = a)) as [->|Hne].
    - rewrite lookup_insert_eq, Ha. simpl. by rewrite Hp.
    - by rewrite !lookup_insert_ne. }
  pose proof (Dir_Save_same_tree rg now fuel p g3 Htop3) as Hst.
  unfold bind at 1.
  destruct (Dir_Save fuel rg now p g3) as [[[]| | |] g4] eqn:Hsave; cbn [snd] in *;
    try (by rewrite (open_counts_same_tree a g3 g4 Hst)).
  assert (Hc4 : open_counts a g4 = Some (n, k))
    by (by rewrite (open_counts_same_tree a g3 g4 Hst)).
  unfold bind at 1. unfold bind at 1. unfold get_file at 1.
  unfold open_counts in Hc4.
  destruct (fs_heap g4 !! a) as [[dir|fl4]|] eqn:Ha4; try done.
  unfold set_obj at 1, modify at 1.
  apply release_clean_counts.
  rewrite (open_counts_set_file a g4 fl4); [|done|done].
  unfold open_counts. by rewrite Ha4.
Qed.

(** X19: Open counts the descriptor and Release uncounts it, whatever they
    return: a read error in Open, an upload error or a failed Save in
    Release change nothing to the counting. *)
Theorem open_counts_accounting (fuel : nat) (rg : MapRange) (now : string)
    (a : addr) (node : Z) (f : FS) (fl : File) (n k : Z) :
  fs_heap f !! a = Some (OFile fl) →
  open_counts a f = Some (n, k) →
  (∀ p r, f_parent fl = Some p → fs_root f = Some r → is_top f p r) →
  open_counts a (File_Open now a node f).2 = Some (n + 1, k + 1)%Z ∧
  open_counts a (File_Release fuel rg now a f).2 = Some (n - 1, k - 1)%Z.
Proof.
  intros Ha Hc Htop.
  assert (Hn : n = openCount (f_state fl) ∧ k = fs_openFds f).
  { unfold open_counts in Hc. rewrite Ha in Hc. by injection Hc as <- <-. }
  destruct Hn as [-> ->]. split.
  - unfold File_Open. run_M. rewrite Ha. simpl.
    destruct (bool_decide _ && bool_decide _); simpl.
    + destruct (filereader_ReadAll _ _) as [[b [e|]] c]; simpl;
        unfold open_counts; simpl; by rewrite lookup_insert_eq.
    + unfold open_counts; simpl; by rewrite lookup_insert_eq.
  - unfold File_Release. unfold bind at 1, updateLastOP, modify. unfold deferred.
    cbn [snd]. apply release_counts_counts.
    apply (Release_body_counts fuel rg now a _ fl).
    + by destruct f.
    + unfold open_counts in *. by destruct f.
    + intros p r Hp Hr. apply (is_top_shape f); [apply (Htop p r Hp); by destruct f|].
      intros x. by destruct f.
Qed.

(** X20: A last Release of a written file uploads the buffer under the name of
    the file, takes the Meta the uploader returns, saves the parent, drops
    the buffer and clears the updated flag. *)
Theorem File_Release_uploads (fuel : nat) (rg : MapRange) (now : string)
    (a p : addr) (f f' : FS) (fl : File) (data : bytes) :
  Immutable f = false →
  fs_heap f !! a = Some (OFile fl) →
  openCount (f_state fl) = 1%Z → updated (f_state fl) = true →
  f_data fl = Some data → data ≠ [] →
  f_parent fl = Some p →
  (∀ r, fs_root f = Some r → is_top f p r) →
  File_Release fuel rg now a f = (Ok tt, f') →
  ∃ m2 c,
    uploader_PutReader (fs_bs f) (Name (f_meta fl)) data = (Ok m2, c) ∧
    fs_heap f' !! a
      = Some (OFile (mkFile None m2 false (Some p) (mkFileState false 0))) ∧
    fs_openFds f' = (fs_openFds f - 1)%Z.
Proof.
  intros Him Ha H1 Hupd Hdata Hne Hp Htop Hrun.
  unfold File_Release in Hrun. unfold bind at 1 in Hrun.
  unfold updateLastOP, modify in Hrun. unfold deferred in Hrun.
  set (f0 := set_fs_lastOP now f) in *.
  assert (Ha0 : fs_heap f0 !! a = Some (OFile fl)) by (by destruct f).
  match type of Hrun with ((?b f0).1, _) = _ =>
    destruct (b f0) as [res g'] eqn:Hbody end.
  cbn [fst snd] in Hrun. injection Hrun as -> <-.
  apply bind_Ok in Hbody as (fl0 & ? & Hget & Hbody).
  unfold get_file in Hget. rewrite Ha0 in Hget. injection Hget as <- <-.
  rewrite H1, bool_decide_eq_true_2 in Hbody by done.
  apply bind_Ok in Hbody as (imm & ? & Himm & Hbody). injection Himm as <- <-.
  apply bind_Ok in Hbody as ([] & g5 & Hup & Hclean).
  rewrite Hdata in Hup.
  unfold Immutable in Him. rewrite Him, Hupd in Hup.
  rewrite bool_decide_eq_true_2 in Hup by (destruct data; [done|simpl; lia]).
  cbn [negb andb] in Hup. cbv zeta in Hup.
  apply bind_Ok in Hup as ([] & g1 & Hset & Hup). injection Hset as <-.
  apply bind_Ok in Hup as (m2 & g2 & Hput & Hup).
  destruct (uploader_PutReader _ _ data) as [r c] eqn:Hput' in Hput.
  cbn [fst snd] in Hput. injection Hput as -> <-.
  apply bind_Ok in Hup as (fl1 & ? & Hget & Hup).
  apply get_file_Ok in Hget as [-> Hget].
  assert (fl1 = set_f_meta fl (set_Size (f_meta fl) (Z.of_nat (length data)))) as ->.
  { destruct f; simpl in Hget. rewrite lookup_insert_eq in Hget. congruence. }
  apply bind_Ok in Hup as ([] & g3 & Hset & Hup). injection Hset as <-.
  cbn [f_parent set_f_meta] in Hup. rewrite Hp in Hup.
  apply bind_Ok in Hup as (p0 & ? & Hp0 & Hup). injection Hp0 as <- <-.
  apply bind_Ok in Hup as ([] & g4 & Hsave & Hup).
  match type of Hsave with Dir_Save _ _ _ _ ?g0 = _ => set (g3 := g0) in * end.
  set (fl3 := set_f_meta (set_f_meta fl (set_Size (f_meta fl) (Z.of_nat (length data)))) m2)
    in *.
  assert (Ha3 : fs_heap g3 !! a = Some (OFile fl3)).
  { unfold g3. destruct f; simpl. apply lookup_insert_eq. }
  assert (Htop3 : ∀ r, fs_root g3 = Some r → is_top g3 p r).
  { intros r Hr. apply (is_top_shape f); [apply (Htop r); by destruct f|].
    intros x. unfold g3. destruct f; simpl in *.
    destruct (decide (x = a)) as [->|Hxa].
    - rewrite lookup_insert_eq, Ha. simpl. by rewrite Hp.
    - by rewrite !lookup_insert_ne. }
  pose proof (Dir_Save_same_tree rg now fuel p g3 Htop3) as Hst.
  rewrite Hsave in Hst. cbn [snd] in Hst.
  pose proof (same_tree_file g3 g4 a fl3 Hst Ha3) as Ha4.
  apply bind_Ok in Hup as (fl4 & ? & Hget4 & Hup).
  unfold get_file in Hget4. rewrite Ha4 in Hget4. injection Hget4 as <- <-.
  injection Hup as <-.
  apply bind_Ok in Hclean as (fl5 & ? & Hget5 & Hclean).
  apply get_file_Ok in Hget5 as [-> Hget5].
  assert (fl5 = set_updated fl3 false) as ->.
  { destruct g4; simpl in Hget5. rewrite lookup_insert_eq in Hget5. congruence. }
  injection Hclean as <-.
  exists m2, c. split.
  { rewrite <- Hput'. by destruct f. }
  destruct Hst as (_&_&_&_&_&Hfds&_).
  unfold release_counts. destruct g4; simpl in *.
  rewrite lookup_insert_eq. simpl. rewrite lookup_insert_eq. split.
  - by rewrite Hp, H1.
  - rewrite Hfds. unfold g3. by destruct f.
Qed.

(** X21: Opening a closed file and releasing it without a write leaves the file
    as it was and uploads nothing: only the time of the last operation, the
    set of nodes known to the kernel and the blobs the reader cached
    change. *)
Theorem File_Open_then_Release (fuel : nat) (rg : MapRange) (now now' : string)
    (a : addr) (node : Z) (f f1 : FS) (fl : File) :
  fs_heap f !! a = Some (OFile fl) →
  openCount (f_state fl) = 0%Z → updated (f_state fl) = false →
  f_data fl = None → f_FakeFile fl = false →
  File_Open now a node f = (Ok tt, f1) →
  File_Release fuel rg now' a f1
  = (Ok tt, set_fs_lastOP now' (set_fs_cache ({[node]} ∪ fs_cache f)
                                  (set_fs_bs (fs_bs f1) f))).
Proof.
  intros Ha H0 Hupd Hdata Hfake Hopen.
  assert (Hfl : fl = mkFile None (f_meta fl) false (f_parent fl) (mkFileState false 0)).
  { destruct fl as [? ? ? ? []]; simpl in *. congruence. }
  assert (Hf1 : ∃ d fk c, f1 = set_fs_heap
            (<[a := OFile (mkFile d (f_meta fl) fk (f_parent fl) (mkFileState false 1))]>
               (fs_heap f))
            (set_fs_bs c (set_fs_cache ({[node]} ∪ fs_cache f)
               (set_fs_openFds (fs_openFds f + 1) (set_fs_lastOP now f))))).
  { unfold File_Open in Hopen.
    apply bind_Ok in Hopen as ([] & ? & Hop & Hopen). injection Hop as <-.
    apply bind_Ok in Hopen as (fl0 & ? & Hget & Hopen).
    apply get_file_Ok in Hget as [-> Hget].
    assert (fl0 = fl) as -> by (destruct f; simpl in *; congruence).
    apply bind_Ok in Hopen as ([] & ? & Hset & Hopen). injection Hset as <-.
    apply bind_Ok in Hopen as ([] & ? & Hfd & Hopen). injection Hfd as <-.
    apply bind_Ok in Hopen as ([] & ? & Hca & Hopen). injection Hca as <-.
    rewrite H0, Hupd in Hopen. cbn [openCount Z.add] in Hopen.
    match type of Hopen with (if ?c then _ else _) _ = _ => destruct c end.
    - cbv beta zeta in Hopen.
      match type of Hopen with context [filereader_ReadAll ?x ?y] =>
        destruct (filereader_ReadAll x y) as [[b [e|]] c] eqn:Hread end;
        cbn [fst snd] in Hopen; [done|].
      injection Hopen as <-. exists (Some b), true, c. destruct f; simpl.
      by rewrite insert_insert_eq.
    - injection Hopen as <-. exists None, false, (fs_bs f). rewrite Hdata, Hfake.
      by destruct f. }
  destruct Hf1 as (d & fk & c & ->). clear Hopen.
  set (fl1 := mkFile d (f_meta fl) fk (f_parent fl) (mkFileState false 1)).
  set (f1 := set_fs_heap _ _).
  assert (Hbs : fs_bs f1 = c) by (unfold f1; by destruct f).
  rewrite Hbs.
  unfold File_Release. unfold bind at 1. unfold updateLastOP, modify. unfold deferred.
  set (f2 := set_fs_lastOP now' f1).
  assert (Ha2 : fs_heap f2 !! a = Some (OFile fl1)).
  { unfold f2, f1. destruct f; simpl. apply lookup_insert_eq. }
  match goal with |- ((?b f2).1, _) = _ =>
    assert (Hbody : b f2 = (Ok tt, set_fs_heap
              (<[a := OFile (mkFile None (f_meta fl) false (f_parent fl)
                               (mkFileState false 1))]> (fs_heap f2)) f2)) end.
  { unfold bind at 1. unfold get_file at 1. rewrite Ha2.
    rewrite bool_decide_eq_true_2 by done.
    unfold bind at 1. unfold gets at 1.
    unfold bind at 1.
    change (f_data fl1) with d. change (updated (f_state fl1)) with false.
    destruct d as [data|].
    + rewrite andb_false_r. unfold ret at 1. unfold bind, get_file. by rewrite Ha2.
    + unfold ret at 1. unfold bind, get_file. by rewrite Ha2. }
  rewrite Hbody. cbn [fst snd]. f_equal. clear Hbody Ha2 Hbs.
  unfold release_counts, f2, f1. clear f2 f1.
  destruct f as [r0 rkv0 lkv0 bs0 nm0 im0 sy0 lo0 loc0 rem0 ca0 fd0 hp0 mp0 nx0].
  cbv [set_fs_lastOP set_fs_cache set_fs_bs set_fs_heap set_fs_openFds
       fs_root fs_rkv fs_lkv fs_bs fs_name fs_immutable fs_sync fs_lastOP fs_local
       fs_remote fs_cache fs_openFds fs_heap fs_maps fs_next] in *.
  rewrite lookup_insert_eq.
  cbn [f_data f_meta f_FakeFile f_parent f_state updated openCount].
  cbv [set_fs_lastOP set_fs_cache set_fs_bs set_fs_heap set_fs_openFds
       fs_root fs_rkv fs_lkv fs_bs fs_name fs_immutable fs_sync fs_lastOP fs_local
       fs_remote fs_cache fs_openFds fs_heap fs_maps fs_next].
  rewrite !insert_insert_eq. f_equal; [lia|].
  change (1 - 1)%Z with 0%Z. rewrite <- Hfl. by apply insert_id.
Qed.
End OpenRelease.

(** ** Rename and ReadDirAll *)

Section Rename.
Context {ext : Externals} {io : FileIO}.

Lemma shape_dir o dir :
  shape o = shape (Some (ODir dir)) →
  ∃ dir', o = Some (ODir dir') ∧ d_parent dir' = d_parent dir ∧
          d_Children dir' = d_Children dir.
Proof.
  destruct o as [[dir'|fl]|]; simpl; try done. intros [= Hp Hc]. by exists dir'.
Qed.

Lemma shape_set_obj_Meta o m : shape (Some (set_obj_Meta o m)) = shape (Some o).
Proof. by destruct o. Qed.



(** X23: A [Rename] into another directory whose children were never loaded
    panics on the assignment into the nil map, after the uploader renamed
    the Meta and after the entry was deleted from the source directory:
    nothing is saved and the node is left in no directory. *)
Theorem Dir_Rename_into_unloaded_dir (fuel : nat) (rg : MapRange) (now : string)
    (d newDir node : addr) (OldName NewName : string) (f : FS)
    (dir ndir : Dir) (ma : addr) (o : Obj) :
  fs_heap f !! d = Some (ODir dir) → d_Children dir = Some ma →
  children_of f dir !! OldName = Some node → fs_heap f !! node = Some o →
  fs_heap f !! newDir = Some (ODir ndir) → d_Children ndir = None →
  let rn := uploader_RenameMeta (fs_bs f) (obj_Meta o) NewName in
  rn.1.2 = None →
  Dir_Rename fuel rg now d OldName NewName newDir f
  = (Panic "assignment to entry in nil map",
     set_fs_maps (<[ma := delete OldName (default ∅ (fs_maps f !! ma))]> (fs_maps f))
       (set_fs_heap (<[node := set_obj_Meta o rn.1.1]> (fs_heap f))
          (set_fs_bs rn.2 (set_fs_lastOP now f)))).
Proof.
  intros Hd Hc Hnode Ho Hnd Hnc rn Herr. unfold Dir_Rename.
  unfold bind at 1. unfold updateLastOP, modify.
  set (f0 := set_fs_lastOP now f).
  assert (Hd0 : fs_heap f0 !! d = Some (ODir dir)) by (by destruct f).
  unfold bind at 1. rewrite (reload_if_nil_loaded d f0 dir ma Hd0 Hc).
  unfold bind at 1. rewrite (children_lookup_run d f0 dir OldName Hd0).
  assert (children_of f0 dir = children_of f dir) as -> by (by destruct f).
  rewrite Hnode.
  unfold bind at 1. unfold get_obj at 1.
  assert (fs_heap f0 !! node = Some o) as -> by (by destruct f).
  unfold bind at 1.
  assert (fs_bs f0 = fs_bs f) as -> by (by destruct f).
  fold rn. rewrite Herr.
  set (g1 := set_fs_heap _ (set_fs_bs rn.2 f0)).
  assert (Hsh1 : ∀ a, shape (fs_heap g1 !! a) = shape (fs_heap f !! a)).
  { intros a. unfold g1, f0. destruct f; simpl in *.
    destruct (decide (a = node)) as [->|Hne].
    - rewrite lookup_insert_eq, Ho. apply shape_set_obj_Meta.
    - by rewrite lookup_insert_ne. }
  destruct (shape_dir (fs_heap g1 !! d) dir) as (dir1 & Hd1 & Hp1 & Hc1).
  { by rewrite Hsh1, Hd. }
  destruct (shape_dir (fs_heap g1 !! newDir) ndir) as (ndir1 & Hnd1 & Hnp1 & Hnc1).
  { by rewrite Hsh1, Hnd. }
  unfold bind at 1.
  rewrite (children_delete_run d g1 dir1 ma OldName Hd1) by congruence.
  set (g2 := set_fs_maps _ g1).
  assert (Hh2 : fs_heap g2 = fs_heap g1) by (unfold g2; by destruct g1).
  unfold bind at 1. unfold get_obj at 1. rewrite Hh2, Hnd1.
  rewrite bool_decide_eq_true_2 by (intros ->; congruence).
  unfold bind at 1. unfold children_insert, bind, get_dir.
  by rewrite Hh2, Hnd1, Hnc1, Hnc.
Qed.

Lemma ReadDirAll_loop (cs : list (string * addr)) (acc : list Dirent) (g : FS) :
  Forall (λ nc, is_Some (fs_heap g !! nc.2)) cs →
  (fix loop (cs : list (string * addr)) (dirs : list Dirent) : M (list Dirent) :=
     match cs with
     | [] => ret dirs
     | (_, c) :: rest =>
         o <~ get_obj c ;;
         loop rest (dirs ++ [mkDirent 0 (Name (obj_Meta o)) (obj_IsDir o)])
     end) cs acc g
  = (Ok (acc ++ omap (λ nc, dirent_of g nc.2) cs), g).
Proof.
  revert acc. induction cs as [|[n c] cs IH]; intros acc Hall.
  - simpl. by rewrite app_nil_r.
  - apply Forall_cons in Hall as [[o Ho] Hall]. simpl in Ho.
    cbn [omap list_omap]. unfold bind at 1, get_obj at 1. rewrite Ho.
    rewrite IH by done. unfold dirent_of at 2. simpl. rewrite Ho. simpl.
    by rewrite <- app_assoc.
Qed.

(** X24: [ReadDirAll] on a directory whose children are loaded answers with one
    entry for each child, in the order of the iteration: the name of an
    entry is the name in the Meta of the child, not the key of the child
    map, and the inode is left at zero. *)
Theorem Dir_ReadDirAll_entries (rg : MapRange) (now : string) (d : addr)
    (f : FS) (dir : Dir) (ma : addr) :
  range_ok rg →
  fs_heap f !! d = Some (ODir dir) → d_Children dir = Some ma →
  (∀ n c, children_of f dir !! n = Some c → is_Some (fs_heap f !! c)) →
  ∃ ents,
    Dir_ReadDirAll rg now d f = (Ok ents, set_fs_lastOP now f) ∧
    length ents = size (children_of f dir) ∧
    ∀ e, e ∈ ents ↔
         ∃ n c o, children_of f dir !! n = Some c ∧ fs_heap f !! c = Some o ∧
                  e = mkDirent 0 (Name (obj_Meta o)) (obj_IsDir o).
Proof.
  intros Hrg Hd Hc Hall.
  set (f0 := set_fs_lastOP now f).
  assert (Hd0 : fs_heap f0 !! d = Some (ODir dir)) by (by destruct f).
  assert (Hch : children_of f0 dir = children_of f dir) by (by destruct f).
  assert (Hh : fs_heap f0 = fs_heap f) by (by destruct f).
  set (cs := rg addr (children_of f dir)).
  assert (Hcs : ∀ n c, (n, c) ∈ cs ↔ children_of f dir !! n = Some c).
  { intros n c. unfold cs. rewrite (Hrg addr _). apply elem_of_map_to_list. }
  assert (Hin : Forall (λ nc, is_Some (fs_heap f0 !! nc.2)) cs).
  { apply Forall_forall. intros [n c] Hnc. rewrite Hh. simpl.
    apply (Hall n). by apply Hcs. }
  exists (omap (λ nc, dirent_of f0 nc.2) cs). split_and!.
  - unfold Dir_ReadDirAll. unfold bind at 1. unfold updateLastOP, modify. fold f0.
    unfold bind at 1. rewrite (reload_if_nil_loaded d f0 dir ma Hd0 Hc).
    unfold bind at 1. unfold get_dir. rewrite Hd0.
    unfold bind at 1. unfold gets. rewrite Hch. fold cs.
    by rewrite (ReadDirAll_loop cs [] f0 Hin).
  - transitivity (length cs).
    + clear Hcs. induction Hin as [|[n c] l [o Ho] Hl IH]; [done|].
      cbn [omap list_omap]. unfold dirent_of at 1. simpl in *. rewrite Ho. simpl.
      by rewrite IH.
    + unfold cs. rewrite (Hrg addr _). by rewrite length_map_to_list.
  - intros e. rewrite list_elem_of_omap. split.
    + intros ([n c] & Hnc & He). unfold dirent_of in He. rewrite Hh in He. simpl in He.
      destruct (fs_heap f !! c) as [o|] eqn:Ho; [|done]. injection He as <-.
      exists n, c, o. split; [by apply Hcs|done].
    + intros (n & c & o & Hnc & Ho & ->). exists (n, c). split; [by apply Hcs|].
      unfold dirent_of. rewrite Hh. simpl. by rewrite Ho.
Qed.
End Rename.

(** ** The tiers of the cache *)

(** X25: The cache writes to one tier at a time: [Get] and [Put] never write to
    the remote tier and [PutRemote] never writes to the local one; a [Get]
    whose local read is anything but a miss answers with the local read
    and changes nothing. *)
Theorem Cache_tiers_frame {B R : Type} `{!cache.BlobTier B, !cache.BlobTier R}
    (c : cache.Cache B R) (hash : string) (blob : bytes) :
  cache.bs (cache.Get c hash).2 = cache.bs c ∧
  cache.bs (cache.Put c hash blob).2 = cache.bs c ∧
  cache.backend (cache.PutRemote c hash blob).2 = cache.backend c ∧
  (cache.tier_Get (cache.backend c) hash ≠ Err ErrBlobNotFound →
   cache.Get c hash = (cache.tier_Get (cache.backend c) hash, c)).
Proof.
  split_and!.
  - apply Get_bs.
  - unfold cache.Put. by destruct (cache.tier_Put (cache.backend c) hash blob).
  - unfold cache.PutRemote. by destruct (cache.tier_Put (cache.bs c) hash blob).
  - intros Hne. unfold cache.Get.
    destruct (cache.tier_Get (cache.backend c) hash) as [b|e| |]; try done.
    by destruct e.
Qed.

(** ** What a Push uploads *)

Section PushUploads.
Context {ext : Externals}.

Lemma StatRemote_stored f hash :
  cache.StatRemote (fs_bs f) hash = Ok true ↔ stored_remotely f hash.
Proof.
  unfold cache.StatRemote, stored_remotely. simpl. unfold cache.MapTier_Stat.
  case_bool_decide; split; try done.
Qed.

Lemma upload_one ref g g' :
  (exists_ <~ bs_StatRemote ref ;;
   if exists_ : bool then ret tt
   else
     blob <~ ignoring_err (bs_Get ref) ;;
     bs_PutRemote ref (default [] blob)) g = (Ok tt, g') →
  stored_remotely g' ref ∧ ∀ h, stored_remotely g h → stored_remotely g' h.
Proof.
  intros Hrun. unfold bind at 1 in Hrun. unfold bs_StatRemote at 1 in Hrun.
  destruct (cache.StatRemote (fs_bs g) ref) as [[|]| | |] eqn:Hst; try done.
  - injection Hrun as <-. split; [by apply StatRemote_stored|done].
  - apply bind_Ok in Hrun as (blob & g1 & Hget & Hrun).
    assert (Hbs : cache.bs (fs_bs g1) = cache.bs (fs_bs g)).
    { unfold ignoring_err, bs_Get in Hget.
      pose proof (Get_bs (fs_bs g) ref) as Hb.
      destruct (cache.Get (fs_bs g) ref) as [[b|e| |] c]; simpl in *;
        try done; injection Hget as _ <-; by destruct g. }
    unfold bs_PutRemote, cache.PutRemote in Hrun. simpl in Hrun.
    unfold cache.MapTier_Put in Hrun.
    destruct (cache.sealed (cache.bs (fs_bs g1))); [done|].
    injection Hrun as <-. unfold stored_remotely. rewrite <- Hbs.
    destruct g1; simpl. split.
    + by rewrite lookup_insert_eq.
    + intros h Hh. destruct (decide (h = ref)) as [->|Hne].
      * by rewrite lookup_insert_eq.
      * by rewrite lookup_insert_ne.
Qed.

Lemma upload_all refs g g' :
  forM_ refs (λ ref,
      exists_ <~ bs_StatRemote ref ;;
      if exists_ : bool then ret tt
      else
        blob <~ ignoring_err (bs_Get ref) ;;
        bs_PutRemote ref (default [] blob)) g = (Ok tt, g') →
  (∀ ref, ref ∈ refs → stored_remotely g' ref) ∧
  ∀ h, stored_remotely g h → stored_remotely g' h.
Proof.
  revert g. induction refs as [|ref refs IH]; intros g Hrun.
  - injection Hrun as <-. split; [|done]. intros ref Hin. by apply elem_of_nil in Hin.
  - cbn [forM_] in Hrun. apply bind_Ok in Hrun as ([] & g1 & Hone & Hrun).
    apply upload_one in Hone as [Href Hmono].
    apply IH in Hrun as [Hall Hmono']. split.
    + intros r Hin. apply elem_of_cons in Hin as [->|Hin]; [by apply Hmono'|by apply Hall].
    + intros h Hh. by apply Hmono', Hmono.
Qed.

(** X26: After a successful [Push] that went past its guard, every ref that
    [FS.Refs] collected from the tree is stored in the remote tier. *)
Theorem FS_Push_uploads_refs (fuel : nat) (rg : MapRange) (comment : option string)
    (f f' : FS) (m l : Mount) (mroot lroot : Root) :
  FS_Mount f = Ok (Some m) → m_root m = Some mroot →
  fs_local f = Some l → m_root l = Some lroot →
  Ref mroot = Ref lroot →
  FS_Push fuel rg comment f = (Ok tt, f') →
  let croot := match comment with Some c => set_Comment lroot c | None => lroot end in
  let g := set_fs_local (Some (mkMount (m_immutable l) (m_node l) (Some croot)))
             (match vkv_Get ErrKeyNotFound (fs_rkv f) (rootKeyFmt (fs_name f)) (-1) with
              | Ok kv => (FS_kvDataToDir (kv_Data kv) (kv_Version kv) f).2
              | _ => f
              end) in
  ∃ refs g',
    FS_Refs fuel rg (fs_root f) g = (Ok refs, g') ∧
    ∀ ref, ref ∈ refs → cache.StatRemote (fs_bs f') ref = Ok true.
Proof.
  intros Hm Hmr Hl Hlr Href Hrun croot g. unfold FS_Push in Hrun.
  apply bind_Ok in Hrun as (mo & ? & Hmo & Hrun). injection Hmo as Hmo <-.
  rewrite Hm in Hmo. injection Hmo as <-.
  apply bind_Ok in Hrun as (m0 & ? & Hm0 & Hrun). injection Hm0 as <- <-.
  rewrite Hmr in Hrun.
  apply bind_Ok in Hrun as (mr & ? & Hmr0 & Hrun). injection Hmr0 as <- <-.
  apply bind_Ok in Hrun as (lo & ? & Hlo & Hrun). injection Hlo as <- <-.
  rewrite Hl in Hrun.
  apply bind_Ok in Hrun as (l0 & ? & Hl0 & Hrun). injection Hl0 as <- <-.
  rewrite Hlr in Hrun.
  apply bind_Ok in Hrun as (lr & ? & Hlr0 & Hrun). injection Hlr0 as <- <-.
  rewrite bool_decide_eq_false_2 in Hrun by (intros Hne; by apply Hne).
  apply bind_Ok in Hrun as (name & ? & Hname & Hrun). injection Hname as <- <-.
  apply bind_Ok in Hrun as (remoteKv & g0 & Hget & Hrun).
  apply bind_Ok in Hrun as ([] & g1 & Hdec & Hrun).
  assert (Hg1 : g1 = match vkv_Get ErrKeyNotFound (fs_rkv f) (rootKeyFmt (fs_name f)) (-1) with
                     | Ok kv => (FS_kvDataToDir (kv_Data kv) (kv_Version kv) f).2
                     | _ => f
                     end).
  { unfold get_opt, rkv_Get in Hget.
    destruct (vkv_Get _ _ _ _) as [kv|e| |]; try done.
    - injection Hget as <- <-.
      apply bind_Ok in Hdec as (rd & g' & Hkv & Hdec). injection Hdec as <-.
      by rewrite Hkv.
    - case_decide; [|done]. injection Hget as <- <-. by injection Hdec as <-. }
  assert (S1 : fs_root g1 = fs_root f).
  { rewrite Hg1. destruct (vkv_Get _ _ _ _) as [kv|e| |]; try done.
    by destruct (ss_kvDataToDir (kv_Data kv) (kv_Version kv) f) as (_&_&_&?&_). }
  apply bind_Ok in Hrun as ([] & g2 & Hsetl & Hrun). injection Hsetl as <-.
  apply bind_Ok in Hrun as (r & ? & Hr & Hrun). injection Hr as <- <-.
  apply bind_Ok in Hrun as (refs & g3 & Hrefs & Hrun).
  apply bind_Ok in Hrun as ([] & g4 & Hup & Hrun).
  apply upload_all in Hup as [Hall _].
  apply bind_Ok in Hrun as (js & ? & Hjs & Hrun). injection Hjs as Hjs <-.
  apply bind_Ok in Hrun as (kvr & g5 & Hputr & Hrun).
  apply bind_Ok in Hrun as (kvl & g6 & Hputl & Hrun).
  injection Hrun as <-.
  assert (Hbs : fs_bs g6 = fs_bs g4).
  { unfold rkv_Put in Hputr. destruct (vkv_Put (fs_rkv g4) _ _ _ _) as [rr dbr].
    injection Hputr as _ <-.
    unfold lkv_Put in Hputl. destruct (vkv_Put _ _ _ _ _) as [rl dbl] in Hputl.
    injection Hputl as _ <-. by destruct g4. }
  exists refs, g3. split.
  - rewrite <- Hrefs. unfold g. rewrite <- Hg1. f_equal. by destruct g1.
  - intros ref Hin. apply StatRemote_stored. unfold stored_remotely. rewrite Hbs.
    by apply Hall.
Qed.
End PushUploads.

(** ** Reading back what was written *)

Section ReadBack.
Context {io : FileIO}.

Lemma copy_append_Some (buf : option (list byte)) (off : nat) (data : list byte) :
  off ≤ length (default [] buf) → data ≠ [] →
  copy_append buf off data
  = Some (take off (default [] buf) ++ data ++ drop (off + length data) (default [] buf)).
Proof.
  intros Hoff Hd. pose proof (copy_append_contents buf off data Hoff) as Hc.
  destruct (copy_append buf off data) as [b|]; simpl in Hc; [by rewrite Hc|].
  destruct (take off (default [] buf)); destruct data; done.
Qed.

(** X28: What was written is read back: on a mutable filesystem, after a write of
    some bytes at an offset within the buffer, a read of as many bytes at
    the same offset returns them. *)
Theorem File_Write_then_Read (w : IntSize) (now : string) (a : addr)
    (off : Z) (data : list byte) (f : FS) (fl : File) :
  Immutable f = false →
  fs_heap f !! a = Some (OFile fl) →
  (0 ≤ off ≤ Z.of_nat (length (default [] (f_data fl))))%Z →
  (off + Z.of_nat (length data) ≤ maxInt w)%Z →
  data ≠ [] →
  let r := File_Write w now a off data f in
  r.1 = Ok (Z.of_nat (length data)) ∧
  ∀ now', File_Read now' a off (Z.of_nat (length data)) r.2
          = (Ok data, set_fs_lastOP now' r.2).
Proof.
  intros Him Ha Hoff Hmax Hd r.
  pose proof (maxInt_bound w) as Hb.
  set (old := default [] (f_data fl)) in *.
  set (new := take (Z.to_nat off) old ++ data ++ drop (Z.to_nat off + length data) old).
  assert (Hr : r = (Ok (Z.of_nat (length data)),
            set_fs_heap (<[a := OFile (set_data (set_updated fl true) (Some new))]>
                           (fs_heap f)) (set_fs_lastOP now f))).
  { unfold r. rewrite (File_Write_run w now a off data f fl Him Ha). cbv zeta.
    rewrite wrap64_small by lia.
    rewrite bool_decide_eq_false_2 by lia.
    rewrite bool_decide_eq_false_2 by (fold old; lia).
    rewrite copy_append_Some; [done|fold old; lia|done]. }
  split; [by rewrite Hr|]. intros now'. rewrite Hr. cbn [snd].
  set (g := set_fs_heap _ _).
  assert (Hga : fs_heap (set_fs_lastOP now' g) !! a
                = Some (OFile (set_data (set_updated fl true) (Some new)))).
  { unfold g. destruct f; simpl. apply lookup_insert_eq. }
  assert (Hlen : length new = Z.to_nat off + length data
                              + length (drop (Z.to_nat off + length data) old)).
  { unfold new. rewrite !length_app, length_take. lia. }
  assert (Hnz : 0 < length data) by (destruct data; [done|simpl; lia]).
  unfold File_Read. unfold bind at 1. unfold updateLastOP, modify.
  unfold bind at 1. unfold get_file. rewrite Hga.
  cbn [f_data set_data f_FakeFile set_updated].
  rewrite bool_decide_eq_false_2 by done. cbn [andb].
  unfold bind at 1. unfold gets at 1. unfold File_Size. cbn [f_data set_data].
  assert (Immutable (set_fs_lastOP now' g) = false) as Himg.
  { unfold g. by destruct f. }
  rewrite Himg.
  rewrite bool_decide_eq_false_2 by lia.
  unfold bind at 1. unfold gets at 1. rewrite Himg.
  rewrite bool_decide_eq_false_2 by lia.
  unfold ret. f_equal. f_equal. unfold HandleRead. cbn [default from_option]. unfold id.
  rewrite bool_decide_eq_false_2 by lia.
  rewrite Nat2Z.id. unfold new.
  rewrite drop_app_length' by (rewrite length_take; lia).
  by rewrite take_app_length.
Qed.
End ReadBack.

(** ** Checked trees and examples *)

Lemma top_of_sound fuel f d r : top_of fuel f d = Some r → is_top f d r.
Proof.
  revert d. induction fuel as [|fuel IH]; intros d; [done|]. simpl.
  destruct (fs_heap f !! d) as [[dir|fl]|] eqn:Hd; try done.
  destruct (d_parent dir) as [p|] eqn:Hp.
  - intros Hp'. eapply top_up; [done|done|by apply IH].
  - intros [= <-]. by eapply top_here.
Qed.

Lemma top_check_sound fuel f d :
  top_check fuel f d = true → ∀ r, fs_root f = Some r → is_top f d r.
Proof.
  unfold top_check. intros Hc r Hr. rewrite Hr in Hc.
  apply bool_decide_eq_true_1 in Hc. by apply (top_of_sound fuel).
Qed.

Lemma wf_check_sound f : wf_check f = true → well_formed f.
Proof.
  unfold wf_check. intros Hc. apply andb_prop in Hc as [Hh Hm].
  rewrite forallb_forall in Hh, Hm. split.
  - intros a Ha. split.
    + destruct (fs_heap f !! a) as [o|] eqn:Ho; [|done].
      apply elem_of_map_to_list, list_elem_of_In, Hh in Ho.
      apply andb_prop in Ho as [Ho _]. apply bool_decide_eq_true_1 in Ho. simpl in Ho. lia.
    + destruct (fs_maps f !! a) as [m|] eqn:Hma; [|done].
      apply elem_of_map_to_list, list_elem_of_In, Hm in Hma.
      apply bool_decide_eq_true_1 in Hma. simpl in Hma. lia.
  - intros a dir ma Ha Hc.
    apply elem_of_map_to_list, list_elem_of_In, Hh in Ha.
    apply andb_prop in Ha as [_ Ha]. simpl in Ha. rewrite Hc in Ha.
    by apply bool_decide_eq_true_1 in Ha.
Qed.

Ltac by_top := apply (top_check_sound 4); vm_compute; reflexivity.
Ltac by_wf := apply wf_check_sound; vm_compute; reflexivity.
Ltac by_run := vm_compute; reflexivity.

(** X2 (witness): the root of the example tree, saved. *)
Lemma Dir_Save_rebuilds_Meta_witness :
  ∃ dir', fs_heap (after (Dir_Save (ext := reference ∅) 3 range_sorted "t1" 1) tree_FS) !! 1
          = Some (ODir dir') ∧
          Name (d_meta dir') = Name (d_meta tree_root) ∧
          Type_ (d_meta dir') = "dir" ∧ Mode (d_meta dir') = dir_mode ∧
          XAttrs (d_meta dir') = None.
Proof.
  apply (Dir_Save_rebuilds_Meta (ext := reference ∅) range_sorted "t1" 3 1 tree_FS
           (after (Dir_Save (ext := reference ∅) 3 range_sorted "t1" 1) tree_FS) tree_root).
  - by_top.
  - by_run.
  - by_run.
Defined.

(** X3 (witness): [user.note] set on the root of the example tree and read back. *)
Lemma Dir_Setxattr_is_lost_witness :
  (Dir_Getxattr (io := reference_io) "http://host" "t2" 1 "user.note"
     (after (Dir_Setxattr (ext := reference ∅) 3 range_sorted "t1" 1
               "user.note" "x") two_children_FS)).1
  = Err ErrNoXattr.
Proof.
  apply (Dir_Setxattr_is_lost (ext := reference ∅) (io := reference_io)
           3 range_sorted "t1" 1 "user.note" "x" two_children_FS).
  - exact two_children_top.
  - reflexivity.
  - discriminate.
  - discriminate.
  - vm_compute. reflexivity.
Defined.

(** X4 (witness): a directory [c] made in the root of the example tree. *)
Lemma Dir_Mkdir_then_Lookup_witness :
  let f' := after (Dir_Mkdir (ext := reference ∅) 3 range_sorted "t1" 1 "c") tree_FS in
  (∀ sock now',
     Dir_Lookup (ext := reference ∅) sock now' 1 "c" f'
     = (Ok (LNode 5), set_fs_lastOP now' f')) ∧
  ∃ ndir, fs_heap f' !! 5 = Some (ODir ndir) ∧
          Name (d_meta ndir) = "c" ∧ d_parent ndir = Some 1 ∧
          children_of f' ndir = ∅.
Proof.
  apply (Dir_Mkdir_then_Lookup (ext := reference ∅) 3 range_sorted "t1" 1 "c" tree_FS).
  - by_wf.
  - by_top.
  - discriminate.
  - reflexivity.
  - by_run.
Defined.



(** X7 (witness): a name the root of the example tree does not hold. *)
Lemma Dir_Remove_missing_is_Save_witness :
  Dir_Remove (ext := reference ∅) 3 range_sorted "t1" 1 "zz" tree_FS
  = Dir_Save (ext := reference ∅) 3 range_sorted "t1" 1 (set_fs_lastOP "t1" tree_FS).
Proof.
  apply (Dir_Remove_missing_is_Save (ext := reference ∅) 3 range_sorted "t1" 1 "zz"
           tree_FS tree_root 3).
  - reflexivity.
  - by_run.
  - reflexivity.
  - vm_compute. by eexists.
  - by_run.
Defined.

(** X8 (witness): [user.note] set on the file [a] of the example tree. *)
Lemma File_Setxattr_then_Getxattr_witness :
  let f' := after (File_Setxattr (ext := reference ∅) 3 range_sorted "t1" 0
                     "user.note" "x") tree_FS in
  (∀ host now',
     File_Getxattr (io := reference_io) host now' 0 "user.note" f'
     = (Ok (list_byte_of_string "x"), set_fs_lastOP now' f')) ∧
  (∀ (rg' : MapRange) now', range_ok rg' →
     ∃ names, File_Listxattr rg' now' 0 f' = (Ok names, set_fs_lastOP now' f') ∧
              "user.note" ∈ names).
Proof.
  apply (File_Setxattr_then_Getxattr (ext := reference ∅) (io := reference_io)
           3 range_sorted "t1" 0 "user.note" "x" tree_FS _ tree_a 1).
  - reflexivity.
  - by_run.
  - reflexivity.
  - by_top.
  - reflexivity.
  - discriminate.
  - by_run.
Defined.

(** X9 (witness): [user.note] removed from a file of the immutable filesystem. *)
Lemma File_Removexattr_ignores_immutable_witness :
  File_Removexattr (ext := reference ∅) 3 range_sorted "t1" 0 "user.note" frozen_tagged
  = (Ok tt,
     set_fs_heap
       (<[0 := OFile (set_f_meta tagged_file
                        (set_XAttrs (f_meta tagged_file)
                           (Some (delete "user.note" {[ "user.note" := "x" ]}))))]>
          (fs_heap frozen_tagged))
       (set_fs_lastOP "t1" frozen_tagged)).
Proof.
  apply (File_Removexattr_ignores_immutable (ext := reference ∅) 3 range_sorted "t1" 0
           "user.note" "x" frozen_tagged tagged_file {[ "user.note" := "x" ]}).
  - reflexivity.
  - by_run.
  - reflexivity.
  - by_run.
  - reflexivity.
Defined.


(** X11 (witness): the root of the example tree, which has no attribute map. *)
Lemma Dir_Setxattr_public_nil_map_witness :
  Dir_Setxattr (ext := reference ∅) 3 range_sorted "t1" 1 "public" "1" tree_FS
  = (Panic "assignment to entry in nil map", set_fs_lastOP "t1" tree_FS).
Proof.
  apply (Dir_Setxattr_public_nil_map (ext := reference ∅) 2 range_sorted "t1" 1
           tree_FS tree_root).
  - by_run.
  - reflexivity.
Defined.

(** X12 (witness): the path [/a] in the example tree. *)
Lemma FS_path_returns_a_file_witness :
  ∃ fl, fs_heap (after (FS_path (ext := reference ∅) 3 range_sorted 1 "/a" "/") tree_FS) !! 0
        = Some (OFile fl).
Proof.
  apply (FS_path_returns_a_file (ext := reference ∅) range_sorted 3 1 "/a" "/" tree_FS).
  by_run.
Defined.

(** X13 (witness): the refs of the tree holding the file [b]. *)
Lemma FS_Refs_root_last_witness :
  let r := FS_Refs (ext := their_server) 3 range_sorted (Some 1) with_b in
  ∃ o, fs_heap r.2 !! 1 = Some o ∧
       (obj_IsDir o = true → last ["h393479725"; "h45068756"] = Some (Hash (obj_Meta o))).
Proof.
  apply (FS_Refs_root_last (ext := their_server) 3 range_sorted 1 with_b).
  by_run.
Defined.

(** X14 (witness): the blank filesystem has no local mount. *)
Lemma FS_Push_without_local_mount_witness :
  FS_Push (ext := reference ∅) 5 range_sorted None blank_FS = (Panic nil_deref, blank_FS).
Proof.
  apply (FS_Push_without_local_mount (ext := reference ∅) 5 range_sorted None blank_FS).
  reflexivity.
Defined.

(** X15 (witness): a push with a comment after the file [b] was created. *)
Lemma FS_Push_commits_witness :
  let f' := after (FS_Push (ext := their_server) 5 range_sorted (Some "note")) with_b in
  let key := rootKeyFmt (fs_name with_b) in
  let croot := set_Comment (mkRoot "h45068756" 3 "") "note" in
  ∃ js kvr kvl,
    Root_JSON (Externals := their_server) croot = Ok js ∧
    history (fs_rkv f') key = history (fs_rkv with_b) key ++ [kvr] ∧
    history (fs_lkv f') key = history (fs_lkv with_b) key ++ [kvl] ∧
    kv_Data kvr = js ∧ kv_Data kvl = js ∧
    (Version croot ≠ (-1)%Z →
       kv_Version kvr = Version croot ∧ kv_Version kvl = Version croot) ∧
    fs_local f' = Some (mkMount false (Some 1) (Some croot)).
Proof.
  apply (FS_Push_commits (ext := their_server) 5 range_sorted (Some "note") with_b _
           (mkMount false (Some 1) (Some (mkRoot "h45068756" 3 "")))
           (mkMount false (Some 1) (Some (mkRoot "h45068756" 3 "")))
           (mkRoot "h45068756" 3 "") (mkRoot "h45068756" 3 "")).
  - by_run.
  - reflexivity.
  - by_run.
  - reflexivity.
  - reflexivity.
  - by_run.
Defined.

(** X26 (witness): a push with a comment after the file [b] was created. *)
Lemma FS_Push_uploads_refs_witness :
  let f' := after (FS_Push (ext := their_server) 5 range_sorted (Some "note")) with_b in
  let croot := set_Comment (mkRoot "h45068756" 3 "") "note" in
  let g := set_fs_local (Some (mkMount false (Some 1) (Some croot)))
             (match vkv_Get ErrKeyNotFound (fs_rkv with_b) (rootKeyFmt (fs_name with_b)) (-1)
              with
              | Ok kv => (FS_kvDataToDir (ext := their_server)
                            (kv_Data kv) (kv_Version kv) with_b).2
              | _ => with_b
              end) in
  ∃ refs g',
    FS_Refs (ext := their_server) 5 range_sorted (fs_root with_b) g = (Ok refs, g') ∧
    ∀ ref, ref ∈ refs → cache.StatRemote (fs_bs f') ref = Ok true.
Proof.
  apply (FS_Push_uploads_refs (ext := their_server) 5 range_sorted (Some "note") with_b _
           (mkMount false (Some 1) (Some (mkRoot "h45068756" 3 "")))
           (mkMount false (Some 1) (Some (mkRoot "h45068756" 3 "")))
           (mkRoot "h45068756" 3 "") (mkRoot "h45068756" 3 "")).
  - by_run.
  - reflexivity.
  - by_run.
  - reflexivity.
  - reflexivity.
  - by_run.
Defined.

(** X16 (witness): a pull right after a push: both tracks are at the same version. *)
Lemma FS_Pull_remote_not_ahead_witness :
  let r := FS_Pull (ext := their_server) 5 range_sorted merge_sorter "t3" pushed in
  let kv := mkKV "" (list_byte_of_string ("h73798492" +:+ String newline "")) 2 in
  same_tracks pushed r.2 ∧
  (is_Ok (kv_to_dir_unchecked (ext := their_server) (Some kv) pushed).1 →
   r.1 = if bool_decide (kv_Version kv = kv_Version kv) then Ok tt
         else Err (Errorf "BlobStash seems out of sync")).
Proof.
  apply (FS_Pull_remote_not_ahead (ext := their_server) 5 range_sorted merge_sorter "t3"
           pushed).
  - by_run.
  - by_run.
  - simpl. lia.
Defined.

(** X17 (witness): two indexes that differ at the root only. *)
Lemma compareIndex_empty_iff_witness :
  FS_compareIndex range_sorted merge_sorter
    {[ "/" := "h1"; "/a" := "ha" ]} {[ "/" := "h2"; "/a" := "ha" ]} = mkDiff [] [] [] ↔
  delete "/" ({[ "/" := "h1"; "/a" := "ha" ]} : gmap string string)
  = delete "/" {[ "/" := "h2"; "/a" := "ha" ]}.
Proof.
  apply (compareIndex_empty_iff range_sorted merge_sorter).
  - exact range_sorted_ok.
  - exact merge_sorter_ok.
Defined.

(** X18 (witness): two bytes and then one byte written at the end of a three-byte buffer. *)
Lemma File_Write_appends_witness :
  let r1 := File_Write Int64 "t1" 0 3 [x04; x05] file_FS in
  let r2 := File_Write Int64 "t2" 0 5 [x06] r1.2 in
  r1.1 = Ok 2%Z ∧ r2.1 = Ok 1%Z ∧
  ∃ fl2, fs_heap r2.2 !! 0 = Some (OFile fl2) ∧
         f_data fl2 = Some ([x01; x02; x03] ++ [x04; x05] ++ [x06]) ∧
         File_Size r2.2 fl2 = 6%Z.
Proof.
  apply (File_Write_appends Int64 "t1" "t2" 0 [x04; x05] [x06] file_FS open_file).
  - reflexivity.
  - by_run.
  - simpl. lia.
  - discriminate.
Defined.

(** X28 (witness): two bytes written at offset 1 of a three-byte buffer and read back. *)
Lemma File_Write_then_Read_witness :
  let r := File_Write Int64 "t1" 0 1 [x09; x08] file_FS in
  r.1 = Ok 2%Z ∧
  ∀ now', File_Read (io := reference_io) now' 0 1 2 r.2
          = (Ok [x09; x08], set_fs_lastOP now' r.2).
Proof.
  apply (File_Write_then_Read (io := reference_io) Int64 "t1" 0 1 [x09; x08]
           file_FS open_file).
  - reflexivity.
  - by_run.
  - simpl. lia.
  - simpl. lia.
  - discriminate.
Defined.

(** X19 (witness): the closed file [a] of the example tree. *)
Lemma open_counts_accounting_witness :
  open_counts 0 (File_Open (io := reference_io) "t1" 0 7 tree_FS).2 = Some (0 + 1, 0 + 1)%Z ∧
  open_counts 0 (File_Release (ext := reference ∅) (io := reference_io)
                   3 range_sorted "t1" 0 tree_FS).2 = Some (0 - 1, 0 - 1)%Z.
Proof.
  apply (open_counts_accounting (ext := reference ∅) (io := reference_io)
           3 range_sorted "t1" 0 7 tree_FS tree_a).
  - by_run.
  - by_run.
  - intros p r [= <-]. by_top.
Defined.

(** X20 (witness): the file [a] opened once, written to and released. *)
Lemma File_Release_uploads_witness :
  let f' := after (File_Release (ext := reference ∅) (io := reference_io)
                     3 range_sorted "t3" 0) written_FS in
  ∃ m2 c,
    uploader_PutReader (FileIO := reference_io) (fs_bs written_FS)
      (Name (f_meta written_file)) [x01] = (Ok m2, c) ∧
    fs_heap f' !! 0 = Some (OFile (mkFile None m2 false (Some 1) (mkFileState false 0))) ∧
    fs_openFds f' = (fs_openFds written_FS - 1)%Z.
Proof.
  apply (File_Release_uploads (ext := reference ∅) (io := reference_io)
           3 range_sorted "t3" 0 1 written_FS _ written_file [x01]).
  - reflexivity.
  - by_run.
  - reflexivity.
  - reflexivity.
  - reflexivity.
  - discriminate.
  - reflexivity.
  - by_top.
  - by_run.
Defined.

(** X21 (witness): the file [a] opened and released. *)
Lemma File_Open_then_Release_witness :
  let f1 := after (File_Open (io := reference_io) "t1" 0 7) tree_FS in
  File_Release (ext := reference ∅) (io := reference_io) 3 range_sorted "t2" 0 f1
  = (Ok tt, set_fs_lastOP "t2" (set_fs_cache ({[7%Z]} ∪ fs_cache tree_FS)
                                  (set_fs_bs (fs_bs f1) tree_FS))).
Proof.
  apply (File_Open_then_Release (ext := reference ∅) (io := reference_io)
           3 range_sorted "t1" "t2" 0 7 tree_FS _ tree_a).
  - by_run.
  - reflexivity.
  - reflexivity.
  - reflexivity.
  - reflexivity.
  - by_run.
Defined.


(** X23 (witness): [a] moved into the subdirectory that was never listed. *)
Lemma Dir_Rename_into_unloaded_dir_witness :
  let rn := uploader_RenameMeta (FileIO := reference_io)
              (fs_bs nested_FS) (obj_Meta (OFile tree_a)) "a" in
  Dir_Rename (ext := reference ∅) (io := reference_io)
    3 range_sorted "t1" 1 "a" "a" 4 nested_FS
  = (Panic "assignment to entry in nil map",
     set_fs_maps (<[3 := delete "a" (default ∅ (fs_maps nested_FS !! 3))]>
                    (fs_maps nested_FS))
       (set_fs_heap (<[0 := set_obj_Meta (OFile tree_a) rn.1.1]> (fs_heap nested_FS))
          (set_fs_bs rn.2 (set_fs_lastOP "t1" nested_FS)))).
Proof.
  apply (Dir_Rename_into_unloaded_dir (ext := reference ∅) (io := reference_io)
           3 range_sorted "t1" 1 4 0 "a" "a" nested_FS tree_root sub_dir 3 (OFile tree_a)).
  - by_run.
  - reflexivity.
  - by_run.
  - by_run.
  - by_run.
  - reflexivity.
  - reflexivity.
Defined.

(** X24 (witness): the listing of the root of the example tree. *)
Lemma Dir_ReadDirAll_entries_witness :
  ∃ ents,
    Dir_ReadDirAll (ext := reference ∅) range_sorted "t1" 1 tree_FS
    = (Ok ents, set_fs_lastOP "t1" tree_FS) ∧
    length ents = size (children_of tree_FS tree_root) ∧
    ∀ e, e ∈ ents ↔
         ∃ n c o, children_of tree_FS tree_root !! n = Some c ∧
                  fs_heap tree_FS !! c = Some o ∧
                  e = mkDirent 0 (Name (obj_Meta o)) (obj_IsDir o).
Proof.
  apply (Dir_ReadDirAll_entries (ext := reference ∅) range_sorted "t1" 1 tree_FS
           tree_root 3).
  - exact range_sorted_ok.
  - by_run.
  - reflexivity.
  - intros n c Hc. vm_compute in Hc.
    repeat (case_match; simplify_eq); by eexists.
Defined.

